(** * boto3.s3.transfer: a shallow embedding and its verified properties

    The module [boto3/s3/transfer.py] moves objects between local files and
    S3, switching to a multipart (upload) or ranged (download) transfer when
    the object is at least [multipart_threshold] bytes long.

    The embedding follows the source class by class.  Python objects become
    records, methods become functions that pass the object explicitly, and
    the effects of a call (remote-store requests, progress callbacks, Python
    exceptions) are threaded through a small state-and-exception monad. *)

From Stdlib Require Import ZArith List Lia Bool String Permutation Sorted.
From Stdlib Require Import Strings.Byte.
Import ListNotations.
Local Open Scope Z_scope.

Set Implicit Arguments.

(** ** Python values and builtins *)

(** Exceptions the module can let escape. *)
Inductive exn : Type :=
| ZeroDivisionError
| OverflowError
| ValueError
| OSError
| ClientError (operation : string).

Inductive result (A : Type) : Type :=
| Ok (a : A)
| Raise (e : exn).
Arguments Ok {A} a.
Arguments Raise {A} e.

Definition bytes := list byte.

(** [len(data)]. *)
Definition len {A : Type} (l : list A) : Z := Z.of_nat (List.length l).

(** [range(a, b)]. *)
Definition py_range (a b : Z) : list Z :=
  map (fun i => a + Z.of_nat i) (seq 0 (Z.to_nat (b - a))).

(** *** Integer sizes through double-precision floats

    [int(math.ceil(a / float(b)))] goes through doubles: both integers are
    converted to the nearest double, the quotient of the two doubles is
    rounded to the nearest double, and the ceiling of that double is taken.
    The double nearest to an integer is an integer again, so the quotient
    that gets rounded is a quotient of two integers. *)

(** The integer nearest to [n / d], for [d > 0]; a tie goes to the even
    one. *)
Definition round_half_even (n d : Z) : Z :=
  let q := n / d in
  let r := n mod d in
  if 2 * r <? d then q
  else if d <? 2 * r then q + 1
  else if Z.even q then q else q + 1.

(** [n] rounded to 53 significant bits. *)
Definition nearest_double (n : Z) : Z :=
  let a := Z.abs n in
  if a <? 2 ^ 53 then n
  else
    let e := Z.log2 a - 52 in
    Z.sgn n * (round_half_even a (2 ^ e) * 2 ^ e).

(** [float(n)], and the conversion of an [int] operand of [/]: the nearest
    double, and [OverflowError] when that is 2^1024 or more in absolute
    value. *)
Definition float_of_int (n : Z) : result Z :=
  let x := nearest_double n in
  if 2 ^ 1024 <=? Z.abs x then Raise OverflowError else Ok x.

(** The double nearest to [a / b], for [a >= 0] and [b > 0], as a
    significand [m] and an exponent [e]: its value is [m * 2^e].  The
    exponent leaves 53 bits to the significand and is at least -1074, the
    exponent of the smallest double.  The quotient is scaled by 2^1100 to
    read its binary logarithm off an integer. *)
Definition float_div (a b : Z) : Z * Z :=
  if a =? 0 then (0, 0)
  else
    let t := a * 2 ^ 1100 / b in
    let e := Z.max (Z.log2 t - 1152) (-1074) in
    (round_half_even (a * 2 ^ 1100) (b * 2 ^ (e + 1100)), e).

(** [int(math.ceil(a / float(b)))]: [float(b)] is evaluated first, then the
    division converts [a] and raises for a zero divisor. *)
Definition py_ceil_div (a b : Z) : result Z :=
  match float_of_int b with
  | Raise e => Raise e
  | Ok y =>
      match float_of_int a with
      | Raise e => Raise e
      | Ok x =>
          if y =? 0 then Raise ZeroDivisionError
          else
            let '(m, e) := float_div (Z.abs x) (Z.abs y) in
            let s := Z.sgn x * Z.sgn y in
            Ok (if 0 <=? e then s * (m * 2 ^ e)
                else - ((- (s * m)) / 2 ^ (- e)))
      end
  end.

(** ** Binary file objects

    The part of Python's buffered binary file objects that the module uses:
    one byte sequence and one cursor. *)
Module PyFile.

Record t : Type := mk { content : bytes; pos : Z }.

(** [open(filename, 'rb')] on a file holding [data]. *)
Definition open_rb (data : bytes) : t := mk data 0.

(** [open(filename, 'wb')]: the file is created or truncated. *)
Definition open_wb : t := mk [] 0.

(** [f.seek(offset)]: absolute positioning; a negative target raises, a
    target past the end is accepted. *)
Definition seek (f : t) (offset : Z) : result t :=
  if offset <? 0 then Raise OSError else Ok (mk (content f) offset).

(** [f.read(n)]: [n = -1] reads up to the end of the file, a smaller [n]
    raises [ValueError], otherwise at most [n] bytes are returned.  Reading
    at or after the end of the file returns [b'']. *)
Definition read (f : t) (n : Z) : result (bytes * t) :=
  if n <? -1 then Raise ValueError
  else
    let rest := skipn (Z.to_nat (pos f)) (content f) in
    let data := if n =? -1 then rest else firstn (Z.to_nat n) rest in
    Ok (data, mk (content f) (pos f + len data)).

(** [f.write(data)]: the bytes replace what is stored from the cursor on;
    a cursor past the end leaves a gap of zero bytes. *)
Definition write (f : t) (data : bytes) : t :=
  let p := Z.to_nat (pos f) in
  let gap := repeat x00 (p - List.length (content f)) in
  mk (firstn p (content f) ++ gap ++ data
        ++ skipn (p + List.length data) (content f))
     (pos f + len data).

End PyFile.

(** ** Effects

    A computation runs in a [world] that holds what exists outside the
    module: the requests sent to the remote store, in order; the arguments of
    every progress-callback invocation, in order; the local files; and, as a
    record of the positioned writes, the extent of every [pwrite].  An
    exception keeps the effects performed before it was raised. *)

(** The keyword arguments forwarded to the client ([**extra_args]). *)
Definition kwargs := list (string * string).

(** The progress callback is a function supplied by the caller; only the
    fact that one is attached and what it is called with are observable. *)
Inductive Callback : Type := ProgressCallback.

(** The body handed to [put_object] and [upload_part] is a [ReadFileChunk]:
    the requests record the window it exposes. *)
Record Body : Type := mkBody {
  body_start : Z;           (* [_start_byte] *)
  body_len : Z;             (* [len(body)], i.e. [_size] *)
  body_callback : option Callback
}.

(** [{'ETag': etag, 'PartNumber': part_number}]. *)
Record Part : Type := mkPart { ETag : string; PartNumber : Z }.

(** The [Range] parameter ['bytes=%s-%s' % (start_range, end_range)], where
    [end_range] is [''] for an open end. *)
Record Range : Type := mkRange { start_range : Z; end_range : option Z }.

Inductive call : Type :=
| CreateMultipartUpload (bucket key : string) (extra_args : kwargs)
| UploadPart (bucket key upload_id : string) (part_number : Z) (body : Body)
| CompleteMultipartUpload (bucket key upload_id : string) (parts : list Part)
| PutObject (bucket key : string) (body : Body) (extra_args : kwargs)
| HeadObject (bucket key : string)
| GetObject (bucket key : string) (range : option Range).

(** A path names the bytes of a local file together with the cursor of the
    handle the module holds on it: the module never has two handles open for
    writing on one path. *)
Definition filesystem := string -> option PyFile.t.

Record world : Type := mkWorld {
  calls : list call;        (* requests issued so far, oldest first *)
  progress : list Z;        (* callback arguments so far, oldest first *)
  fs : filesystem;          (* local files *)
  written : list (Z * Z)    (* (offset, length) of each pwrite, oldest first *)
}.

Definition no_files : filesystem := fun _ => None.

Definition fs_set (m : filesystem) (name : string) (f : PyFile.t)
  : filesystem :=
  fun n => if String.eqb n name then Some f else m n.

Definition empty_world : world := mkWorld [] [] no_files [].

Definition M (A : Type) : Type := world -> result A * world.

Definition ret {A} (a : A) : M A := fun w => (Ok a, w).

Definition bind {A B} (m : M A) (k : A -> M B) : M B :=
  fun w => match m w with
           | (Ok a, w') => k a w'
           | (Raise e, w') => (Raise e, w')
           end.

Definition raise {A} (e : exn) : M A := fun w => (Raise e, w).

Definition lift {A} (r : result A) : M A := fun w => (r, w).

Notation "x <- m ;; k" := (bind m (fun x => k))
  (at level 61, m at next level, right associativity).
Notation "m ;;; k" := (bind m (fun _ => k))
  (at level 61, right associativity).

(** Issue a request. *)
Definition emit (c : call) : M unit :=
  fun w => (Ok tt, mkWorld (calls w ++ [c]) (progress w) (fs w) (written w)).

(** [if callback is not None: callback(n)]. *)
Definition invoke (callback : option Callback) (n : Z) : M unit :=
  fun w => match callback with
           | Some _ =>
               (Ok tt, mkWorld (calls w) (progress w ++ [n]) (fs w) (written w))
           | None => (Ok tt, w)
           end.

(** ** class ReadFileChunk *)
Module ReadFileChunk.

Record t : Type := mk {
  _fileobj : PyFile.t;
  _start_byte : Z;
  _size : Z;
  _amount_read : Z;
  _callback : option Callback
}.

Definition _calculate_file_size (requested_size start_byte
                                   actual_file_size : Z) : Z :=
  let max_chunk_size := actual_file_size - start_byte in
  Z.min max_chunk_size requested_size.

Definition __init__ (fileobj : PyFile.t) (start_byte chunk_size
                       full_file_size : Z) (callback : option Callback)
  : result t :=
  let size := _calculate_file_size chunk_size start_byte full_file_size in
  match PyFile.seek fileobj start_byte with
  | Ok f => Ok (mk f start_byte size 0 callback)
  | Raise e => Raise e
  end.

(** [from_filename], for a file holding [data]: the size is what [fstat]
    reports for the open file. *)
Definition from_filename (data : bytes) (start_byte chunk_size : Z)
           (callback : option Callback) : result t :=
  let f := PyFile.open_rb data in
  let file_size := len data in
  __init__ f start_byte chunk_size file_size callback.

Definition read (self : t) (amount : option Z) : M (bytes * t) :=
  let amount_to_read :=
    match amount with
    | None => _size self - _amount_read self
    | Some a => Z.min (_size self - _amount_read self) a
    end in
  r <- lift (PyFile.read (_fileobj self) amount_to_read) ;;
  let '(data, f) := r in
  let self' := mk f (_start_byte self) (_size self)
                  (_amount_read self + len data) (_callback self) in
  invoke (_callback self) (len data) ;;;
  ret (data, self').

Definition seek (self : t) (where_ : Z) : result t :=
  match PyFile.seek (_fileobj self) (_start_byte self + where_) with
  | Ok f => Ok (mk f (_start_byte self) (_size self) where_ (_callback self))
  | Raise e => Raise e
  end.

Definition tell (self : t) : Z := _amount_read self.

Definition __len__ (self : t) : Z := _size self.

(** What a request that is given this object as its body records. *)
Definition as_body (self : t) : Body :=
  mkBody (_start_byte self) (__len__ self) (_callback self).

End ReadFileChunk.

(** ** class StreamReaderProgress

    The wrapped stream is a response body: the bytes not yet consumed.
    [stream.read(n)] hands out at most [n] of them. *)
Module StreamReaderProgress.

Record t : Type := mk { _stream : bytes; _callback : option Callback }.

Definition read (self : t) (amt : Z) : M (bytes * t) :=
  let value := firstn (Z.to_nat amt) (_stream self) in
  let self' := mk (skipn (Z.to_nat amt) (_stream self)) (_callback self) in
  invoke (_callback self) (len value) ;;;
  ret (value, self').

End StreamReaderProgress.

(** ** The remote store

    The client is an external collaborator.  Each operation is recorded as a
    request and answered by the store; an answer is a value or a failure the
    client raises.  [Client] gathers the answers. *)
Record Client : Type := mkClient {
  create_multipart_upload_response :
    string -> string -> kwargs -> result string;          (* ['UploadId'] *)
  upload_part_response :
    string -> string -> string -> Z -> Body -> result string;  (* ['ETag'] *)
  complete_multipart_upload_response :
    string -> string -> string -> list Part -> result unit;
  put_object_response : string -> string -> Body -> kwargs -> result unit;
  head_object_response : string -> string -> result Z;  (* ['ContentLength'] *)
  get_object_response :
    string -> string -> option Range -> result bytes      (* ['Body'] *)
}.

Section ClientCalls.

Variable client : Client.

Definition create_multipart_upload (bucket key : string)
           (extra_args : kwargs) : M string :=
  emit (CreateMultipartUpload bucket key extra_args) ;;;
  lift (create_multipart_upload_response client bucket key extra_args).

Definition upload_part (bucket key upload_id : string) (part_number : Z)
           (body : Body) : M string :=
  emit (UploadPart bucket key upload_id part_number body) ;;;
  lift (upload_part_response client bucket key upload_id part_number body).

Definition complete_multipart_upload (bucket key upload_id : string)
           (parts : list Part) : M unit :=
  emit (CompleteMultipartUpload bucket key upload_id parts) ;;;
  lift (complete_multipart_upload_response client bucket key upload_id
          parts).

Definition put_object (bucket key : string) (body : Body)
           (extra_args : kwargs) : M unit :=
  emit (PutObject bucket key body extra_args) ;;;
  lift (put_object_response client bucket key body extra_args).

Definition head_object (bucket key : string) : M Z :=
  emit (HeadObject bucket key) ;;;
  lift (head_object_response client bucket key).

Definition get_object (bucket key : string) (range : option Range)
  : M bytes :=
  emit (GetObject bucket key range) ;;;
  lift (get_object_response client bucket key range).

End ClientCalls.

(** ** class ThreadSafeWriter

    The write stream is the handle open on [_write_stream].  Within one
    thread the lock is always free, so [pwrite] is the seek followed by the
    write; the lock itself is modelled with the worker threads, in
    [Interleaving] below. *)
Module ThreadSafeWriter.

Record t : Type := mk { _write_stream : string }.

Definition pwrite (self : t) (data : bytes) (offset : Z) : M unit :=
  fun w =>
    match fs w (_write_stream self) with
    | None => (Raise ValueError, w)          (* I/O on a closed file *)
    | Some f =>
        match PyFile.seek f offset with
        | Raise e => (Raise e, w)
        | Ok f1 =>
            let f2 := PyFile.write f1 data in
            (Ok tt, mkWorld (calls w) (progress w)
                            (fs_set (fs w) (_write_stream self) f2)
                            (written w ++ [(offset, len data)]))
        end
    end.

End ThreadSafeWriter.

(** ** class OSUtils *)
Module OSUtils.

Definition get_file_size (filename : string) : M Z :=
  fun w => match fs w filename with
           | Some f => (Ok (len (PyFile.content f)), w)
           | None => (Raise OSError, w)
           end.

Definition open_file_chunk_reader (filename : string) (start_byte size : Z)
           (callback : option Callback) : M ReadFileChunk.t :=
  fun w => match fs w filename with
           | Some f =>
               (ReadFileChunk.from_filename (PyFile.content f) start_byte
                  size callback, w)
           | None => (Raise OSError, w)
           end.

(** [open(filename, 'wb')]. *)
Definition open_wb (filename : string) : M unit :=
  fun w => (Ok tt, mkWorld (calls w) (progress w)
                           (fs_set (fs w) filename PyFile.open_wb)
                           (written w)).

(** [f.write(chunk)] on the handle open on [filename]. *)
Definition write (filename : string) (data : bytes) : M unit :=
  fun w => match fs w filename with
           | Some f =>
               (Ok tt, mkWorld (calls w) (progress w)
                               (fs_set (fs w) filename (PyFile.write f data))
                               (written w))
           | None => (Raise ValueError, w)
           end.

Definition wrap_stream_with_callback (stream : bytes)
           (callback : option Callback) : StreamReaderProgress.t :=
  StreamReaderProgress.mk stream callback.

Definition wrap_thread_safe_writer (stream : string) : ThreadSafeWriter.t :=
  ThreadSafeWriter.mk stream.

End OSUtils.

(** ** class TransferConfig *)
Definition MB : Z := 1024 * 1024.

Module TransferConfig.

Record t : Type := mk {
  multipart_threshold : Z;
  max_concurrency : Z;
  multipart_chunksize : Z
}.

(** A keyword argument left out ([None] here) takes its default. *)
Definition __init__ (multipart_threshold max_concurrency
                       multipart_chunksize : option Z) : t :=
  mk (match multipart_threshold with Some v => v | None => 8 * MB end)
     (match max_concurrency with Some v => v | None => 1 end)
     (match multipart_chunksize with Some v => v | None => 8 * MB end).

End TransferConfig.

(** ** futures.ThreadPoolExecutor, as seen by the submitting thread

    [executor.map(fn, items)] submits one task per item and hands the results
    back in the order of the items, whatever the order in which the tasks
    finish.  The first failing result, in that order, is raised in the
    submitting thread; the tasks still pending are then cancelled, and the
    [with] block waits for those a worker had already started.  Which of the
    later tasks had been started is up to the scheduler: [started] answers
    that for each item.  The effects of the tasks are recorded in the order
    of the items: this is the run of a pool of one worker, and one of the
    runs of a larger pool, whose workers can also interleave the effects of
    different tasks (the module [Interleaving] below has them step by
    step).  What is proved below about the order of effects is stated for
    one worker; for larger pools the statements hold up to the order. *)
Definition schedule := Z -> bool.

(** [futures.ThreadPoolExecutor(max_workers=max_workers)]: the constructor
    refuses a pool without a worker.  (Before Python 3.5 it accepts one, and
    [map] then never returns.) *)
Definition ThreadPoolExecutor (max_workers : Z) : M unit :=
  if max_workers <=? 0 then raise ValueError else ret tt.

Section Executor.

Variable started : schedule.
Variable B : Type.
Variable fn : Z -> M B.

Fixpoint drain (items : list Z) (w : world) : world :=
  match items with
  | [] => w
  | x :: rest => drain rest (if started x then snd (fn x w) else w)
  end.

Fixpoint executor_map (items : list Z) : M (list B) :=
  fun w =>
    match items with
    | [] => (Ok [], w)
    | x :: rest =>
        match fn x w with
        | (Ok b, w1) =>
            match executor_map rest w1 with
            | (Ok bs, w2) => (Ok (b :: bs), w2)
            | (Raise e, w2) => (Raise e, w2)
            end
        | (Raise e, w1) => (Raise e, drain rest w1)
        end
    end.

End Executor.

(** [parts.sort(key=lambda x: x['PartNumber'])]: a stable sort on the part
    number. *)
Fixpoint insert_part (p : Part) (l : list Part) : list Part :=
  match l with
  | [] => [p]
  | q :: l' =>
      if PartNumber p <=? PartNumber q then p :: q :: l'
      else q :: insert_part p l'
  end.

Fixpoint sort_parts (l : list Part) : list Part :=
  match l with
  | [] => []
  | p :: l' => insert_part p (sort_parts l')
  end.

(** ** class MultipartUploader *)
Module MultipartUploader.

Record t : Type := mk { _client : Client; _config : TransferConfig.t }.

(** Line 278: the size of the worker pool. *)
Definition max_workers (self : t) : Z :=
  TransferConfig.max_concurrency (_config self).

Definition _upload_one_part (self : t) (filename bucket key
                               upload_id : string) (part_size : Z)
           (callback : option Callback) (part_number : Z) : M Part :=
  body <- OSUtils.open_file_chunk_reader filename
            (part_size * (part_number - 1)) part_size callback ;;
  etag <- upload_part (_client self) bucket key upload_id part_number
            (ReadFileChunk.as_body body) ;;
  ret (mkPart etag part_number).

(** Lines 285-289: what is done with the collected part results. *)
Definition complete (self : t) (bucket key upload_id : string)
           (parts : list Part) : M unit :=
  let parts := sort_parts parts in
  complete_multipart_upload (_client self) bucket key upload_id parts.

Definition upload_file (started : schedule) (self : t)
           (filename bucket key : string) (callback : option Callback)
           (extra_args : kwargs) : M unit :=
  upload_id <- create_multipart_upload (_client self) bucket key
                 extra_args ;;
  let part_size := TransferConfig.multipart_chunksize (_config self) in
  size <- OSUtils.get_file_size filename ;;
  num_parts <- lift (py_ceil_div size part_size) ;;
  ThreadPoolExecutor (max_workers self) ;;;
  parts <- executor_map started
             (_upload_one_part self filename bucket key upload_id part_size
                callback)
             (py_range 1 (num_parts + 1)) ;;
  complete self bucket key upload_id parts.

End MultipartUploader.

(** ** class MultipartDownloaded *)
Module MultipartDownloaded.

Record t : Type := mk { _client : Client; _config : TransferConfig.t }.

(** Line 313: the size of the worker pool. *)
Definition max_workers (self : t) : Z :=
  TransferConfig.max_concurrency (_config self).

(** [for chunk in iter(lambda: streaming_body.read(buffer_size), b'')]:
    the loop ends at the first empty read.  Every other read consumes at
    least one byte, so [fuel] above the length of the stream is never used
    up ([write_chunks_run]). *)
Fixpoint write_chunks (fuel : nat) (buffer_size : Z)
         (streaming_body : StreamReaderProgress.t)
         (safe_writer : ThreadSafeWriter.t) (current_index : Z) : M unit :=
  r <- StreamReaderProgress.read streaming_body buffer_size ;;
  let '(chunk, streaming_body') := r in
  match chunk with
  | [] => ret tt
  | _ :: _ =>
      match fuel with
      | O => ret tt
      | S fuel' =>
          ThreadSafeWriter.pwrite safe_writer chunk current_index ;;;
          write_chunks fuel' buffer_size streaming_body' safe_writer
            (current_index + len chunk)
      end
  end.

Definition _download_range (self : t) (bucket key filename : string)
           (part_size num_parts : Z) (callback : option Callback)
           (fileobj : string) (i : Z) : M unit :=
  let start_range := i * part_size in
  let end_range :=
    if i =? num_parts - 1 then None
    else Some (start_range + part_size - 1) in
  let range_param := mkRange start_range end_range in
  body <- get_object (_client self) bucket key (Some range_param) ;;
  let streaming_body := OSUtils.wrap_stream_with_callback body callback in
  let buffer_size := 1024 * 16 in
  let current_index := start_range in
  let safe_writer := OSUtils.wrap_thread_safe_writer fileobj in
  write_chunks (S (List.length body)) buffer_size streaming_body safe_writer
    current_index.

Definition download_file (started : schedule) (self : t)
           (bucket key filename : string) (object_size : Z)
           (callback : option Callback) : M unit :=
  let part_size := TransferConfig.multipart_chunksize (_config self) in
  num_parts <- lift (py_ceil_div object_size part_size) ;;
  OSUtils.open_wb filename ;;;
  ThreadPoolExecutor (max_workers self) ;;;
  executor_map started
    (_download_range self bucket key filename part_size num_parts callback
       filename)
    (py_range 0 num_parts) ;;;
  ret tt.

End MultipartDownloaded.

(** ** class S3Transfer *)
Module S3Transfer.

Record t : Type := mk { _client : Client; _config : TransferConfig.t }.

Definition __init__ (client : Client) (config : option TransferConfig.t)
  : t :=
  let config :=
    match config with
    | None => TransferConfig.__init__ None None None
    | Some c => c
    end in
  mk client config.

Definition _put_object (self : t) (filename bucket key : string)
           (callback : option Callback) (extra_args : kwargs) : M unit :=
  size <- OSUtils.get_file_size filename ;;
  body <- OSUtils.open_file_chunk_reader filename 0 size callback ;;
  put_object (_client self) bucket key (ReadFileChunk.as_body body)
    extra_args.

Definition _multipart_upload (started : schedule) (self : t)
           (filename bucket key : string) (callback : option Callback)
           (extra_args : kwargs) : M unit :=
  let uploader := MultipartUploader.mk (_client self) (_config self) in
  MultipartUploader.upload_file started uploader filename bucket key
    callback extra_args.

Definition upload_file (started : schedule) (self : t)
           (filename bucket key : string) (callback : option Callback)
           (extra_args : option kwargs) : M unit :=
  let extra_args := match extra_args with None => [] | Some a => a end in
  size <- OSUtils.get_file_size filename ;;
  if size >=? TransferConfig.multipart_threshold (_config self)
  then _multipart_upload started self filename bucket key callback
         extra_args
  else _put_object self filename bucket key callback extra_args.

Definition _object_size (self : t) (bucket key : string) : M Z :=
  head_object (_client self) bucket key.

Definition _ranged_download (started : schedule) (self : t)
           (bucket key filename : string) (object_size : Z)
           (callback : option Callback) : M unit :=
  let downloader :=
    MultipartDownloaded.mk (_client self) (_config self) in
  MultipartDownloaded.download_file started downloader bucket key filename
    object_size callback.

(** [for chunk in iter(lambda: streaming_body.read(8192), b'')]. *)
Fixpoint copy_chunks (fuel : nat) (streaming_body : StreamReaderProgress.t)
         (f : string) : M unit :=
  r <- StreamReaderProgress.read streaming_body 8192 ;;
  let '(chunk, streaming_body') := r in
  match chunk with
  | [] => ret tt
  | _ :: _ =>
      match fuel with
      | O => ret tt
      | S fuel' =>
          OSUtils.write f chunk ;;; copy_chunks fuel' streaming_body' f
      end
  end.

Definition _get_object (self : t) (bucket key filename : string)
           (callback : option Callback) : M unit :=
  body <- get_object (_client self) bucket key None ;;
  let streaming_body := OSUtils.wrap_stream_with_callback body callback in
  OSUtils.open_wb filename ;;;
  copy_chunks (S (List.length body)) streaming_body filename.

Definition download_file (started : schedule) (self : t)
           (bucket key filename : string) (callback : option Callback)
  : M unit :=
  object_size <- _object_size self bucket key ;;
  if object_size >=? TransferConfig.multipart_threshold (_config self)
  then _ranged_download started self bucket key filename object_size
         callback
  else _get_object self bucket key filename callback.

End S3Transfer.

(** A store that accepts everything and serves the object [obj]. *)
Definition serve (obj : bytes) (range : option Range) : bytes :=
  match range with
  | None => obj
  | Some (mkRange first None) => skipn (Z.to_nat first) obj
  | Some (mkRange first (Some last)) =>
      firstn (Z.to_nat (last + 1 - first)) (skipn (Z.to_nat first) obj)
  end.

Definition store (obj : bytes) : Client :=
  mkClient (fun _ _ _ => Ok "upload-id"%string)
           (fun _ _ _ _ _ => Ok "etag"%string)
           (fun _ _ _ _ => Ok tt)
           (fun _ _ _ _ => Ok tt)
           (fun _ _ => Ok (len obj))
           (fun _ _ range => Ok (serve obj range)).

(** ** Worker threads

    The sequential reading above is what one worker does.  With several
    workers the steps of their tasks interleave.  A download task touches
    the shared output file through [ThreadSafeWriter.pwrite] only, so a task
    is the sequence of the steps of its [pwrite] calls: take the lock of the
    writer, [seek], [write], give the lock back.  Each step is atomic; the
    scheduler picks which worker moves next. *)
Module Interleaving.

Inductive instr : Type :=
| Acquire (lock : nat)
| Seek (offset : Z)
| Write (data : bytes)
| Release (lock : nat).

Definition task := list instr.

(** The file object shared by the workers, and the locks that are taken. *)
Record state : Type := mkState { stream : PyFile.t; held : list nat }.

(** One step; [None] when the step has to wait (the lock is taken).  The
    offsets of a download are never negative, so the seek never raises; a
    negative offset leaves the cursor where it is. *)
Definition step (i : instr) (s : state) : option state :=
  match i with
  | Acquire l =>
      if existsb (Nat.eqb l) (held s) then None
      else Some (mkState (stream s) (l :: held s))
  | Seek offset =>
      match PyFile.seek (stream s) offset with
      | Ok f => Some (mkState f (held s))
      | Raise _ => Some s
      end
  | Write data => Some (mkState (PyFile.write (stream s) data) (held s))
  | Release l =>
      Some (mkState (stream s)
              (filter (fun l' => negb (Nat.eqb l l')) (held s)))
  end.

(** [ThreadSafeWriter.pwrite] on a writer whose lock is [lock]. *)
Definition pwrite (lock : nat) (data : bytes) (offset : Z) : task :=
  [Acquire lock; Seek offset; Write data; Release lock].

(** The chunks that [iter(lambda: body.read(buffer_size), b'')] yields. *)
Fixpoint chunks (fuel : nat) (buffer_size : Z) (body : bytes)
  : list bytes :=
  match firstn (Z.to_nat buffer_size) body with
  | [] => []
  | (_ :: _) as chunk =>
      match fuel with
      | O => []
      | S fuel' =>
          chunk :: chunks fuel' buffer_size
                     (skipn (Z.to_nat buffer_size) body)
      end
  end.

Fixpoint writes (lock : nat) (current_index : Z) (cs : list bytes)
  : task :=
  match cs with
  | [] => []
  | chunk :: rest =>
      pwrite lock chunk current_index
        ++ writes lock (current_index + len chunk) rest
  end.

(** The task of [_download_range] for range [i], once the store has
    answered with [body]; [lock] is the lock of the writer it uses. *)
Definition download_range (lock : nat) (part_size : Z) (body : bytes)
           (i : Z) : task :=
  let start_range := i * part_size in
  let buffer_size := 1024 * 16 in
  writes lock start_range
    (chunks (S (List.length body)) buffer_size body).

(** Line 335: every call of [_download_range] wraps the file object in a
    writer of its own, and every writer creates its own lock (line 235).
    The lock of the task for range [i] is lock number [i]. *)
Definition own_lock (i : Z) : nat := Z.to_nat i.

(** The design the specification describes: one writer, hence one lock,
    for the whole transfer. *)
Definition one_lock (i : Z) : nat := 0%nat.

Definition download_tasks (lock_of : Z -> nat) (part_size num_parts : Z)
           (obj : bytes) : list task :=
  map (fun i =>
         download_range (lock_of i) part_size
           (serve obj (Some (mkRange (i * part_size)
                               (if i =? num_parts - 1 then None
                                else Some (i * part_size + part_size - 1)))))
           i)
      (py_range 0 num_parts).

(** The pool: the tasks not yet started, what is left of the task of each
    worker ([[]] for an idle worker), and the shared state. *)
Record pool : Type := mkPool {
  queue : list task;
  workers : list task;
  shared : state
}.

(** [ThreadPoolExecutor(max_workers)] after [map] has submitted [tasks]. *)
Definition start (max_workers : Z) (tasks : list task) (f : PyFile.t)
  : pool :=
  mkPool tasks (repeat [] (Z.to_nat max_workers)) (mkState f []).

Fixpoint set_nth (k : nat) (t : task) (l : list task) : list task :=
  match l, k with
  | [], _ => []
  | _ :: l', O => t :: l'
  | x :: l', S k' => x :: set_nth k' t l'
  end.

(** Worker [k] moves: an idle worker takes the next task of the queue, a
    busy one performs the next step of its task unless it has to wait. *)
Definition turn (k : nat) (p : pool) : pool :=
  match nth_error (workers p) k with
  | None => p
  | Some [] =>
      match queue p with
      | [] => p
      | t :: q => mkPool q (set_nth k t (workers p)) (shared p)
      end
  | Some (i :: rest) =>
      match step i (shared p) with
      | None => p
      | Some s => mkPool (queue p) (set_nth k rest (workers p)) s
      end
  end.

Definition run (sched : list nat) (p : pool) : pool :=
  fold_left (fun p k => turn k p) sched p.

(** Every task has been run to its end. *)
Definition finished (p : pool) : bool :=
  match queue p with
  | [] => forallb (fun t => match t with [] => true | _ => false end)
            (workers p)
  | _ => false
  end.

(** The tasks run one after the other, each to its end. *)
Fixpoint run_task (t : task) (s : state) : state :=
  match t with
  | [] => s
  | i :: rest =>
      match step i s with
      | Some s' => run_task rest s'
      | None => s
      end
  end.

Definition run_in_order (tasks : list task) (f : PyFile.t) : state :=
  fold_left (fun s t => run_task t s) tasks (mkState f []).

End Interleaving.

(** * Properties *)

(** ** Reasoning about computations *)

Ltac unfold_m :=
  unfold bind, ret, lift, raise, emit, invoke in *.

Lemma len_nonneg (A : Type) (l : list A) : 0 <= len l.
Proof. unfold len. lia. Qed.

Lemma len_app (A : Type) (l1 l2 : list A) : len (l1 ++ l2) = len l1 + len l2.
Proof. unfold len. rewrite length_app. lia. Qed.

Lemma len_nil (A : Type) : len (@nil A) = 0.
Proof. reflexivity. Qed.

Lemma len_firstn_le (A : Type) (n : nat) (l : list A) :
  len (firstn n l) <= Z.of_nat n.
Proof. unfold len. pose proof (firstn_le_length n l). lia. Qed.

(** ** Transfer policy (C10, C5) *)

(** C10.  A configuration built with no argument has an 8 MiB threshold, an
    8 MiB part size and a concurrency of one, and a transfer manager built
    without a configuration uses exactly that one: the pools of its uploader
    and of its downloader hold a single worker. *)
Theorem C10_default_config (client : Client) :
  let config := TransferConfig.__init__ None None None in
  let transfer := S3Transfer.__init__ client None in
  TransferConfig.multipart_threshold config = 8 * 1024 * 1024
  /\ TransferConfig.multipart_chunksize config = 8 * 1024 * 1024
  /\ TransferConfig.max_concurrency config = 1
  /\ S3Transfer._config transfer = config
  /\ MultipartUploader.max_workers
       (MultipartUploader.mk (S3Transfer._client transfer)
          (S3Transfer._config transfer)) = 1
  /\ MultipartDownloaded.max_workers
       (MultipartDownloaded.mk (S3Transfer._client transfer)
          (S3Transfer._config transfer)) = 1.
Proof. cbv. repeat split. Qed.

(** ** Request traces *)

Definition add_calls (w : world) (l : list call) : world :=
  mkWorld (calls w ++ l) (progress w) (fs w) (written w).

Lemma add_calls_nil (w : world) : add_calls w [] = w.
Proof. destruct w; unfold add_calls; simpl. now rewrite app_nil_r. Qed.

Lemma add_calls_app (w : world) (l1 l2 : list call) :
  add_calls (add_calls w l1) l2 = add_calls w (l1 ++ l2).
Proof. unfold add_calls; simpl. now rewrite app_assoc. Qed.

Lemma fs_add_calls (w : world) (l : list call) : fs (add_calls w l) = fs w.
Proof. reflexivity. Qed.

Lemma calls_add_calls (w : world) (l : list call) :
  calls (add_calls w l) = calls w ++ l.
Proof. reflexivity. Qed.

(** Tasks whose only effect is a fixed list of requests: what
    [executor_map] returns and which requests it leaves in the world. *)
Section ExecutorTrace.

Variable started : schedule.
Variable B : Type.
Variable fn : Z -> M B.
Variable r : Z -> result B.
Variable c : Z -> list call.
Variable dom : Z -> Prop.
Variable files : filesystem.

Hypothesis fn_run :
  forall x w, dom x -> fs w = files -> fn x w = (r x, add_calls w (c x)).

(** The items whose task ran. *)
Fixpoint issued (items : list Z) : list Z :=
  match items with
  | [] => []
  | x :: rest =>
      x :: match r x with
           | Ok _ => issued rest
           | Raise _ => filter started rest
           end
  end.

Fixpoint outcome (items : list Z) : result (list B) :=
  match items with
  | [] => Ok []
  | x :: rest =>
      match r x with
      | Ok b => match outcome rest with
                | Ok bs => Ok (b :: bs)
                | Raise e => Raise e
                end
      | Raise e => Raise e
      end
  end.

Lemma drain_run (items : list Z) :
  Forall dom items ->
  forall w, fs w = files ->
  drain started fn items w
  = add_calls w (List.concat (map c (filter started items))).
Proof.
  induction 1 as [|x rest Hx Hrest IH]; intros w Hw; simpl.
  - now rewrite add_calls_nil.
  - destruct (started x); simpl.
    + rewrite fn_run by assumption; simpl.
      rewrite IH by (now rewrite fs_add_calls).
      now rewrite add_calls_app.
    + now apply IH.
Qed.

Lemma executor_map_run (items : list Z) :
  Forall dom items ->
  forall w, fs w = files ->
  executor_map started fn items w
  = (outcome items, add_calls w (List.concat (map c (issued items)))).
Proof.
  induction 1 as [|x rest Hx Hrest IH]; intros w Hw; simpl.
  - now rewrite add_calls_nil.
  - rewrite fn_run by assumption.
    destruct (r x) as [b|e]; simpl.
    + rewrite IH by (now rewrite fs_add_calls).
      rewrite add_calls_app.
      now destruct (outcome rest).
    + rewrite drain_run by (auto; now rewrite fs_add_calls).
      now rewrite add_calls_app.
Qed.

Lemma outcome_ok_all (items : list Z) (bs : list B) :
  outcome items = Ok bs ->
  issued items = items /\ Forall2 (fun x b => r x = Ok b) items bs.
Proof.
  revert bs; induction items as [|x rest IH]; intros bs; simpl.
  - intros [= <-]; auto.
  - destruct (r x) as [b|e] eqn:Hr; [|discriminate].
    destruct (outcome rest) as [bs'|e]; [|discriminate].
    intros [= <-]. destruct (IH bs' eq_refl) as [-> HF]; auto.
Qed.

Lemma outcome_raise_some (items : list Z) (e : exn) :
  outcome items = Raise e ->
  exists x e', In x items /\ r x = Raise e'.
Proof.
  revert e; induction items as [|x rest IH]; intros e; simpl;
    [discriminate|].
  destruct (r x) as [b|e'] eqn:Hr.
  - destruct (outcome rest) as [bs|e'']; [discriminate|].
    intros _. destruct (IH e'' eq_refl) as (y & e1 & Hy & Hr').
    exists y, e1; auto.
  - intros _. exists x, e'; auto.
Qed.

Lemma issued_incl (items : list Z) : incl (issued items) items.
Proof.
  induction items as [|x rest IH]; simpl; [easy|].
  intros y [->|Hy]; [now left|right].
  destruct (r x); [now apply IH|].
  now apply filter_In in Hy.
Qed.

End ExecutorTrace.

Lemma py_range_In (a b n : Z) : In n (py_range a b) <-> a <= n < b.
Proof.
  unfold py_range. rewrite in_map_iff. split.
  - intros (i & <- & Hi). apply in_seq in Hi. lia.
  - intros H. exists (Z.to_nat (n - a)). split; [lia|].
    apply in_seq. lia.
Qed.

Lemma py_range_length (a b : Z) :
  List.length (py_range a b) = Z.to_nat (b - a).
Proof. unfold py_range. now rewrite length_map, length_seq. Qed.

Lemma py_range_empty (a b : Z) : b <= a -> py_range a b = [].
Proof.
  intros H. unfold py_range.
  replace (Z.to_nat (b - a)) with 0%nat by lia. reflexivity.
Qed.

Lemma py_range_cons (a b : Z) :
  a < b -> py_range a b = a :: py_range (a + 1) b.
Proof.
  intros H. unfold py_range.
  replace (Z.to_nat (b - a)) with (S (Z.to_nat (b - (a + 1)))) by lia.
  simpl. f_equal; [lia|].
  rewrite <- seq_shift, map_map. apply map_ext. intros; lia.
Qed.

Lemma py_range_snoc (a b : Z) :
  a <= b -> py_range a (b + 1) = py_range a b ++ [b].
Proof.
  intros H. unfold py_range.
  replace (Z.to_nat (b + 1 - a)) with (Z.to_nat (b - a) + 1)%nat by lia.
  rewrite seq_app, map_app. simpl. do 2 f_equal. lia.
Qed.

(** The ceiling of the quotient, for a positive divisor. *)
Lemma ceil_div_bounds (a b : Z) :
  0 < b -> b * (- ((- a) / b) - 1) < a <= b * (- ((- a) / b)).
Proof.
  intros Hb.
  pose proof (Z.mul_div_le (- a) b Hb).
  pose proof (Z.mul_succ_div_gt (- a) b Hb).
  lia.
Qed.

Lemma ceil_div_neg_divisor (a b : Z) :
  0 <= a -> b < 0 -> - ((- a) / b) <= 0.
Proof.
  intros Ha Hb.
  assert (0 <= (- a) / b); [|lia].
  rewrite <- Z.div_opp_opp by lia.
  rewrite Z.opp_involutive.
  apply Z.div_pos; lia.
Qed.

(** ** The ceiling computed through doubles *)

Lemma ceil_unique (m M K : Z) :
  0 < M -> (K - 1) * M < m <= K * M -> - ((- m) / M) = K.
Proof.
  intros HM H.
  assert (- m / M = - K); [|lia].
  symmetry. apply (Z.div_unique _ _ _ (K * M - m)); lia.
Qed.

Lemma round_half_even_cases (n d : Z) :
  0 < d ->
  let q := n / d in
  let r := n mod d in
  (round_half_even n d = q /\ 2 * r <= d)
  \/ (round_half_even n d = q + 1 /\ d <= 2 * r).
Proof.
  intros Hd q r. unfold round_half_even. fold q r.
  destruct (2 * r <? d) eqn:E1; [left; split; [reflexivity|lia]|].
  destruct (d <? 2 * r) eqn:E2; [right; split; [reflexivity|lia]|].
  destruct (Z.even q); [left|right]; split; (reflexivity || lia).
Qed.

Lemma round_half_even_scale (n d c : Z) :
  0 < d -> 0 < c ->
  round_half_even (n * c) (d * c) = round_half_even n d.
Proof.
  intros Hd Hc. unfold round_half_even.
  rewrite Z.div_mul_cancel_r by lia.
  rewrite Z.mul_mod_distr_r by lia.
  replace (2 * (n mod d * c) <? d * c) with (2 * (n mod d) <? d).
  - replace (d * c <? 2 * (n mod d * c)) with (d <? 2 * (n mod d));
      [reflexivity|].
    destruct (d <? 2 * (n mod d)) eqn:E; symmetry;
      [apply Z.ltb_lt in E; apply Z.ltb_lt|apply Z.ltb_ge in E; apply Z.ltb_ge];
      nia.
  - destruct (2 * (n mod d) <? d) eqn:E; symmetry;
      [apply Z.ltb_lt in E; apply Z.ltb_lt|apply Z.ltb_ge in E; apply Z.ltb_ge];
      nia.
Qed.

(** A quotient rounded to at least 53 significant bits has the ceiling of
    the exact quotient, when the dividend is below 2^53. *)
Lemma ceil_of_rounded (a b M : Z) :
  0 < a < 2 ^ 53 -> 0 < b -> 0 < M -> b * 2 ^ 52 <= a * M ->
  - ((- round_half_even (a * M) b) / M) = - ((- a) / b).
Proof.
  intros Ha Hb HM Hnorm.
  set (K := - ((- a) / b)).
  pose proof (@ceil_div_bounds a b Hb) as HK. fold K in HK.
  apply ceil_unique; [exact HM|].
  pose proof (Z.div_mod (a * M) b ltac:(lia)) as Hdiv.
  pose proof (Z.mod_pos_bound (a * M) b Hb) as Hr.
  destruct (@round_half_even_cases (a * M) b Hb) as [[-> Hlow]|[-> Hup]];
    set (q := a * M / b) in *; set (r := (a * M) mod b) in *.
  - (* rounded down *)
    assert (Hq : (K - 1) * M <= q) by nia.
    split; [|nia].
    destruct (Z.eq_dec q ((K - 1) * M)) as [Heq|Hne]; [exfalso|lia].
    assert (Hr' : r = M * (a - (K - 1) * b)) by nia.
    assert (HrM : M <= r) by nia.
    assert (Hq52 : 2 ^ 52 <= q) by nia.
    assert (Hb2 : b < 2 * M).
    { assert (2 ^ 52 * b <= (K - 1) * M * b) by nia.
      assert ((K - 1) * b * M < 2 ^ 53 * M) by nia.
      assert (H253 : 2 ^ 53 = 2 * 2 ^ 52) by reflexivity.
      nia. }
    lia.
  - (* rounded up *)
    assert (Hq : (K - 1) * M <= q) by nia.
    split; [lia|].
    assert (q <= K * M) by nia.
    destruct (Z.eq_dec q (K * M)) as [Heq|Hne]; [exfalso|lia].
    nia.
Qed.

Lemma nearest_double_small (n : Z) :
  Z.abs n < 2 ^ 53 -> nearest_double n = n.
Proof.
  intros H. unfold nearest_double.
  destruct (Z.abs n <? 2 ^ 53) eqn:E; [reflexivity|].
  apply Z.ltb_ge in E. lia.
Qed.

Lemma float_of_int_small (n : Z) :
  Z.abs n < 2 ^ 53 -> float_of_int n = Ok n.
Proof.
  intros H. unfold float_of_int. rewrite nearest_double_small by exact H.
  destruct (2 ^ 1024 <=? Z.abs n) eqn:E; [|reflexivity].
  apply Z.leb_le in E.
  assert (2 ^ 53 < 2 ^ 1024) by reflexivity. lia.
Qed.

(** Below 2^53 the double computation gives the exact ceiling. *)
Lemma py_ceil_div_exact (a b : Z) :
  0 <= a < 2 ^ 53 -> 0 < b < 2 ^ 53 ->
  py_ceil_div a b = Ok (- ((- a) / b)).
Proof.
  intros Ha Hb. unfold py_ceil_div.
  rewrite !float_of_int_small by lia.
  destruct (b =? 0) eqn:Eb; [lia|].
  rewrite (Z.abs_eq a), (Z.abs_eq b) by lia.
  unfold float_div.
  destruct (a =? 0) eqn:Ea.
  - apply Z.eqb_eq in Ea. subst a. reflexivity.
  - apply Z.eqb_neq in Ea.
    assert (Ha' : 0 < a < 2 ^ 53) by lia.
    rewrite (Z.sgn_pos a), (Z.sgn_pos b) by lia.
    set (t := a * 2 ^ 1100 / b).
    assert (Ht : 2 ^ 1047 <= t < 2 ^ 1153).
    { unfold t. split.
      - apply Z.div_le_lower_bound; [lia|].
        change (2 ^ 1100) with (2 ^ 53 * 2 ^ 1047). nia.
      - apply Z.div_lt_upper_bound; [lia|].
        change (2 ^ 1153) with (2 ^ 53 * 2 ^ 1100).
        assert (0 < 2 ^ 1100) by reflexivity. nia. }
    assert (Ht0 : 0 < t) by (assert (0 < 2 ^ 1047) by reflexivity; lia).
    pose proof (Z.log2_spec t Ht0) as Hl.
    pose proof (Z.log2_nonneg t) as Hl0.
    set (l := Z.log2 t) in *.
    assert (Hl1 : 1047 <= l < 1153).
    { split.
      - assert (1047 < l + 1); [|lia].
        apply (Z.pow_lt_mono_r_iff 2); lia.
      - apply (Z.pow_lt_mono_r_iff 2); lia. }
    rewrite Z.max_l by lia.
    set (s := 1152 - l).
    set (k := l - 52).
    replace (l - 1152 + 1100) with k by (unfold k; lia).
    assert (Hpow : 2 ^ 1100 = 2 ^ s * 2 ^ k)
      by (rewrite <- Z.pow_add_r by (unfold s, k; lia);
          f_equal; unfold s, k; lia).
    assert (Hs : 0 < 2 ^ s) by (apply Z.pow_pos_nonneg; unfold s; lia).
    assert (Hk : 0 < 2 ^ k) by (apply Z.pow_pos_nonneg; unfold k; lia).
    rewrite Hpow, (Z.mul_assoc a), round_half_even_scale by lia.
    assert (Hnorm : b * 2 ^ 52 <= a * 2 ^ s).
    { assert (Hbt : b * t <= a * 2 ^ 1100)
        by (unfold t; apply Z.mul_div_le; lia).
      assert (Hlk : 2 ^ l = 2 ^ 52 * 2 ^ k)
        by (rewrite <- Z.pow_add_r by (unfold k; lia);
            f_equal; unfold k; lia).
      rewrite Hpow in Hbt.
      assert (b * 2 ^ 52 * 2 ^ k <= a * 2 ^ s * 2 ^ k) by nia.
      nia. }
    pose proof (@ceil_of_rounded a b (2 ^ s) Ha' (proj1 Hb) Hs Hnorm)
      as Hceil.
    cbv beta iota. rewrite !Z.mul_1_l.
    destruct (0 <=? l - 1152) eqn:E.
    + apply Z.leb_le in E. assert (Hs0 : s = 0) by (unfold s; lia).
      rewrite <- Hceil. replace (l - 1152) with 0 by lia. rewrite Hs0.
      rewrite Z.pow_0_r, Z.div_1_r, !Z.mul_1_r. f_equal. lia.
    + replace (- (l - 1152)) with s by (unfold s; lia).
      now rewrite Hceil.
Qed.

Lemma round_half_even_nonneg (n d : Z) :
  0 <= n -> 0 < d -> 0 <= round_half_even n d.
Proof.
  intros Hn Hd.
  pose proof (Z.div_pos n d Hn Hd).
  destruct (@round_half_even_cases n d Hd) as [[-> _]|[-> _]]; lia.
Qed.

(** Rounding keeps the sign, and a magnitude below a power of two stays at
    or below it. *)
Lemma nearest_double_spec (n : Z) :
  Z.sgn (nearest_double n) = Z.sgn n
  /\ forall k, 53 <= k -> Z.abs n < 2 ^ k -> Z.abs (nearest_double n) <= 2 ^ k.
Proof.
  unfold nearest_double.
  destruct (Z.abs n <? 2 ^ 53) eqn:E; [split; [reflexivity|intros; lia]|].
  apply Z.ltb_ge in E.
  set (a := Z.abs n) in *. set (e := Z.log2 a - 52).
  assert (Ha : 0 < a) by (assert (0 < 2 ^ 53) by reflexivity; lia).
  pose proof (Z.log2_spec a Ha) as Hl.
  pose proof (Z.log2_nonneg a) as Hl0.
  assert (He : 0 <= e).
  { unfold e. assert (53 < Z.log2 a + 1); [|lia].
    apply (Z.pow_lt_mono_r_iff 2); [lia|lia|]. lia. }
  assert (Hpe : 0 < 2 ^ e) by (apply Z.pow_pos_nonneg; lia).
  assert (Hle : 2 ^ e <= a).
  { apply Z.le_trans with (2 ^ Z.log2 a); [|lia].
    apply Z.pow_le_mono_r; unfold e; lia. }
  assert (Hq : 0 < a / 2 ^ e) by (apply Z.div_str_pos; lia).
  assert (Hsucc : 2 ^ (Z.log2 a + 1) = 2 ^ 53 * 2 ^ e)
    by (rewrite <- Z.pow_add_r by lia; f_equal; unfold e; lia).
  assert (Hq53 : a / 2 ^ e < 2 ^ 53)
    by (apply Z.div_lt_upper_bound; lia).
  assert (Hr : 0 < round_half_even a (2 ^ e) <= 2 ^ 53)
    by (destruct (@round_half_even_cases a (2 ^ e) Hpe) as [[-> _]|[-> _]];
        lia).
  split.
  - rewrite Z.sgn_mul, (Z.sgn_pos (_ * _)) by nia.
    rewrite Z.mul_1_r. apply Z.sgn_sgn.
  - intros k Hk Hak.
    assert (Hlk : Z.log2 a + 1 <= k).
    { assert (Z.log2 a < k); [|lia].
      apply (Z.pow_lt_mono_r_iff 2); lia. }
    assert (Hpk : 2 ^ (Z.log2 a + 1) <= 2 ^ k)
      by (apply Z.pow_le_mono_r; lia).
    assert (Hn : Z.abs (Z.sgn n) = 1) by (unfold a in Ha; lia).
    rewrite Z.abs_mul, Hn, (Z.abs_eq (_ * _)) by nia.
    nia.
Qed.

(** A size below 2^1023 in absolute value has a double. *)
Lemma float_of_int_fits (n : Z) :
  Z.abs n < 2 ^ 1023 ->
  exists x, float_of_int n = Ok x /\ Z.sgn x = Z.sgn n.
Proof.
  intros Hn. destruct (nearest_double_spec n) as [Hsgn Hbound].
  specialize (Hbound 1023 ltac:(lia) Hn).
  exists (nearest_double n). split; [|exact Hsgn].
  unfold float_of_int.
  destruct (2 ^ 1024 <=? Z.abs (nearest_double n)) eqn:E; [|reflexivity].
  apply Z.leb_le in E.
  assert (2 ^ 1023 < 2 ^ 1024) by reflexivity. lia.
Qed.

Lemma float_of_int_sign (n x : Z) :
  float_of_int n = Ok x -> Z.sgn x = Z.sgn n.
Proof.
  unfold float_of_int.
  destruct (2 ^ 1024 <=? _); [discriminate|].
  intros [= <-]. apply nearest_double_spec.
Qed.

(** The computation never returns for a zero divisor; within the range of
    the doubles it raises the division error there and returns otherwise;
    and the sign of its result is the sign of the exact quotient. *)
Lemma py_ceil_div_zero_raises (a n : Z) : py_ceil_div a 0 <> Ok n.
Proof.
  unfold py_ceil_div. change (float_of_int 0) with (@Ok Z 0).
  cbv beta iota. destruct (float_of_int a); discriminate.
Qed.

Lemma py_ceil_div_zero (a : Z) :
  Z.abs a < 2 ^ 1023 -> py_ceil_div a 0 = Raise ZeroDivisionError.
Proof.
  intros Ha. unfold py_ceil_div. change (float_of_int 0) with (@Ok Z 0).
  cbv beta iota.
  destruct (@float_of_int_fits a Ha) as (x & -> & _). reflexivity.
Qed.

Lemma py_ceil_div_returns (a b : Z) :
  Z.abs a < 2 ^ 1023 -> Z.abs b < 2 ^ 1023 -> b <> 0 ->
  exists n, py_ceil_div a b = Ok n.
Proof.
  intros Ha Hb Hb0. unfold py_ceil_div.
  destruct (@float_of_int_fits b Hb) as (y & -> & Hy).
  destruct (@float_of_int_fits a Ha) as (x & -> & _).
  destruct (y =? 0) eqn:E.
  - apply Z.eqb_eq in E. rewrite E in Hy. change (Z.sgn 0) with 0 in Hy.
    exfalso. apply Hb0. apply Z.sgn_null_iff. now symmetry.
  - destruct (float_div _ _). eexists; reflexivity.
Qed.

Lemma py_ceil_div_neg_divisor (a b n : Z) :
  0 <= a -> b < 0 -> py_ceil_div a b = Ok n -> n <= 0.
Proof.
  intros Ha Hb. unfold py_ceil_div.
  destruct (float_of_int b) as [y|] eqn:Hy; [|discriminate].
  destruct (float_of_int a) as [x|] eqn:Hx; [|discriminate].
  apply float_of_int_sign in Hy. apply float_of_int_sign in Hx.
  destruct (y =? 0); [discriminate|].
  rewrite Hx, Hy.
  destruct (float_div _ _) as [m e] eqn:Hdiv.
  assert (Hm : 0 <= m).
  { unfold float_div in Hdiv.
    destruct (_ =? 0); [injection Hdiv as <- _; lia|].
    injection Hdiv as <- _.
    apply round_half_even_nonneg.
    - assert (0 < 2 ^ 1100) by reflexivity.
      pose proof (Z.abs_nonneg x). nia.
    - assert (0 < Z.abs y).
      { rewrite (Z.sgn_neg b) in Hy by lia.
        apply Z.sgn_neg_iff in Hy. lia. }
      assert (0 < 2 ^ (Z.max (Z.log2 (Z.abs x * 2 ^ 1100 / Z.abs y) - 1152)
                         (-1074) + 1100))
        by (apply Z.pow_pos_nonneg; lia).
      nia. }
  rewrite (Z.sgn_neg b) by lia.
  assert (Hs : Z.sgn a * -1 <= 0) by (pose proof (Z.sgn_nonneg a); lia).
  set (s := Z.sgn a * -1) in *.
  intros [= <-].
  destruct (0 <=? e) eqn:E.
  - apply Z.leb_le in E.
    assert (0 <= 2 ^ e) by (apply Z.pow_nonneg; lia). nia.
  - apply Z.leb_gt in E.
    assert (0 < 2 ^ (- e)) by (apply Z.pow_pos_nonneg; lia).
    assert (0 <= - (s * m) / 2 ^ (- e)); [|lia].
    apply Z.div_pos; nia.
Qed.

(** ** What a multipart upload sends *)

Lemma get_file_size_run (files : filesystem) (filename : string)
      (f : PyFile.t) (w : world) :
  files filename = Some f -> fs w = files ->
  OSUtils.get_file_size filename w = (Ok (len (PyFile.content f)), w).
Proof.
  intros Hf Hw. unfold OSUtils.get_file_size. now rewrite Hw, Hf.
Qed.

(** The body of part [n] of a file of [size] bytes cut in parts of
    [part_size] bytes: the window that [ReadFileChunk] computes. *)
Definition part_body (size part_size : Z) (callback : option Callback)
           (n : Z) : Body :=
  mkBody (part_size * (n - 1))
         (Z.min (size - part_size * (n - 1)) part_size) callback.

Section UploadRun.

Variable started : schedule.
Variable self : MultipartUploader.t.
Variables filename bucket key : string.
Variable callback : option Callback.
Variable files : filesystem.
Variable f : PyFile.t.
Hypothesis file_present : files filename = Some f.

Let client := MultipartUploader._client self.
Let size := len (PyFile.content f).
Let part_size :=
  TransferConfig.multipart_chunksize (MultipartUploader._config self).

Definition part_call (upload_id : string) (n : Z) : list call :=
  [UploadPart bucket key upload_id n (part_body size part_size callback n)].

Definition part_result (upload_id : string) (n : Z) : result Part :=
  match upload_part_response client bucket key upload_id n
          (part_body size part_size callback n) with
  | Ok etag => Ok (mkPart etag n)
  | Raise e => Raise e
  end.

Lemma upload_one_part_run (upload_id : string) (n : Z) (w : world) :
  0 <= part_size * (n - 1) ->
  fs w = files ->
  MultipartUploader._upload_one_part self filename bucket key upload_id
    part_size callback n w
  = (part_result upload_id n, add_calls w (part_call upload_id n)).
Proof.
  intros Hn Hw.
  unfold MultipartUploader._upload_one_part, part_result, part_call.
  unfold bind at 1. unfold OSUtils.open_file_chunk_reader.
  rewrite Hw, file_present.
  unfold ReadFileChunk.from_filename, ReadFileChunk.__init__, PyFile.seek.
  destruct (part_size * (n - 1) <? 0) eqn:E; [lia|].
  unfold upload_part, ReadFileChunk.as_body; simpl.
  unfold_m; simpl.
  fold size. unfold part_body, ReadFileChunk._calculate_file_size; simpl.
  fold client.
  destruct (upload_part_response client bucket key upload_id n _);
    reflexivity.
Qed.

Lemma part_numbers_in_domain (num_parts n : Z) :
  py_ceil_div size part_size = Ok num_parts ->
  In n (py_range 1 (num_parts + 1)) ->
  0 <= part_size * (n - 1).
Proof.
  intros HN Hn. apply py_range_In in Hn.
  destruct (Z.lt_ge_cases 0 part_size); [nia|].
  destruct (Z.eq_dec part_size 0) as [Hp|Hp].
  - rewrite Hp in HN. now apply py_ceil_div_zero_raises in HN.
  - pose proof (len_nonneg (PyFile.content f)) as Hs.
    assert (num_parts <= 0); [|lia].
    apply (@py_ceil_div_neg_divisor size part_size); [exact Hs|lia|exact HN].
Qed.

(** The whole run of [upload_file], for every answer of the store. *)
Definition upload_file_result (extra_args : kwargs) (w : world)
  : result unit * world :=
  let create := CreateMultipartUpload bucket key extra_args in
  match create_multipart_upload_response client bucket key extra_args with
  | Raise e => (Raise e, add_calls w [create])
  | Ok upload_id =>
      match py_ceil_div size part_size with
      | Raise e => (Raise e, add_calls w [create])
      | Ok num_parts =>
          if MultipartUploader.max_workers self <=? 0
          then (Raise ValueError, add_calls w [create])
          else
            let items := py_range 1 (num_parts + 1) in
            match outcome (part_result upload_id) items with
            | Raise e =>
                (Raise e,
                 add_calls w
                   (create :: List.concat
                      (map (part_call upload_id)
                         (issued started (part_result upload_id) items))))
            | Ok parts =>
                (complete_multipart_upload_response client bucket key
                   upload_id (sort_parts parts),
                 add_calls w
                   (create :: List.concat (map (part_call upload_id) items)
                      ++ [CompleteMultipartUpload bucket key upload_id
                            (sort_parts parts)]))
            end
      end
  end.

Lemma upload_file_run (extra_args : kwargs) (w : world) :
  fs w = files ->
  MultipartUploader.upload_file started self filename bucket key callback
    extra_args w
  = upload_file_result extra_args w.
Proof.
  intros Hw.
  unfold MultipartUploader.upload_file, upload_file_result.
  unfold create_multipart_upload. fold client.
  unfold bind at 1. unfold bind at 1. unfold emit at 1. unfold lift at 1.
  change (mkWorld (calls w ++ [CreateMultipartUpload bucket key extra_args])
            (progress w) (fs w) (written w))
    with (add_calls w [CreateMultipartUpload bucket key extra_args]).
  destruct (create_multipart_upload_response client bucket key extra_args)
    as [upload_id|e]; [|reflexivity].
  unfold bind at 1.
  rewrite (@get_file_size_run files filename f) by assumption.
  fold size. fold part_size.
  unfold bind at 1. unfold lift at 1.
  destruct (py_ceil_div size part_size) as [num_parts|e] eqn:HN;
    [|reflexivity].
  unfold bind at 1. unfold ThreadPoolExecutor at 1.
  destruct (MultipartUploader.max_workers self <=? 0); [reflexivity|].
  unfold ret at 1. unfold bind at 1.
  erewrite (@executor_map_run started Part _ (part_result upload_id)
              (part_call upload_id) (fun n => 0 <= part_size * (n - 1))
              files).
  - destruct (outcome (part_result upload_id) _) as [parts|e] eqn:Ho.
    + destruct (@outcome_ok_all started _ _ _ _ Ho) as [-> _].
      unfold MultipartUploader.complete, complete_multipart_upload.
      fold client. unfold_m. simpl.
      rewrite <- !app_assoc. reflexivity.
    + now rewrite add_calls_app.
  - intros x w0 Hx Hw0. now apply upload_one_part_run.
  - apply Forall_forall. intros n Hn.
    now apply (@part_numbers_in_domain num_parts).
  - exact Hw.
Qed.

End UploadRun.

(** The parts a request trace uploads, in order: part number, offset of the
    body in the file, length of the body. *)
Definition uploaded_parts (l : list call) : list (Z * Z * Z) :=
  flat_map (fun c => match c with
                     | UploadPart _ _ _ n body =>
                         [(n, body_start body, body_len body)]
                     | _ => []
                     end) l.

Definition sum_Z (l : list Z) : Z := fold_right Z.add 0 l.

Lemma uploaded_parts_app (l1 l2 : list call) :
  uploaded_parts (l1 ++ l2) = uploaded_parts l1 ++ uploaded_parts l2.
Proof. apply flat_map_app. Qed.

Lemma uploaded_parts_part_calls (self : MultipartUploader.t)
      (bucket key : string) (callback : option Callback) (f : PyFile.t)
      (upload_id : string) (items : list Z) :
  uploaded_parts
    (List.concat (map (part_call self bucket key callback f upload_id) items))
  = map (fun n =>
           let b := part_body (len (PyFile.content f))
                      (TransferConfig.multipart_chunksize
                         (MultipartUploader._config self)) callback n in
           (n, body_start b, body_len b)) items.
Proof.
  unfold uploaded_parts.
  induction items as [|n rest IH]; [reflexivity|].
  simpl in *. f_equal. exact IH.
Qed.

Lemma sum_Z_app (l1 l2 : list Z) : sum_Z (l1 ++ l2) = sum_Z l1 + sum_Z l2.
Proof. induction l1; simpl; lia. Qed.

Lemma sum_Z_const (A : Type) (c : Z) (l : list A) :
  sum_Z (map (fun _ => c) l) = c * len l.
Proof.
  unfold len. induction l as [|a l IH]; simpl length; simpl; [lia|].
  rewrite IH. lia.
Qed.

(** ** Partition of an upload into parts (C1) *)

(** The claim says "for every file size".  The number of parts is computed
    in doubles: for a file of 2^53 + 1 bytes and the default part size of
    8 MiB the upload computes 2^30 parts, where the ceiling of the quotient
    is 2^30 + 1; 2^30 parts of 8 MiB hold 2^53 bytes, one less than the
    file. *)
Lemma C1_counterexample :
  ~ (forall S P N : Z,
        0 < S -> 0 < P -> py_ceil_div S P = Ok N ->
        P * (N - 1) < S <= P * N).
Proof.
  intros H.
  specialize (H (2 ^ 53 + 1) (8 * MB) (2 ^ 30) eq_refl eq_refl).
  assert (Hparts : py_ceil_div (2 ^ 53 + 1) (8 * MB) = Ok (2 ^ 30))
    by (vm_compute; reflexivity).
  specialize (H Hparts). vm_compute in H. destruct H as [_ H]. now apply H.
Qed.

(** C1, for sizes that a double holds exactly.  A successful multipart
    upload of a file of [S] bytes with part size [P], where
    [0 < S < 2^53] and [0 < P < 2^53], uploads [N = ceil(S/P)] parts,
    numbered 1..N; part [n] starts at offset [P*(n-1)]; every part but the
    last is [P] bytes long and the last one is [S - P*(N-1)] bytes long,
    which is positive and at most [P]; the lengths add up to [S].  With one
    worker the parts are requested in the order of their numbers. *)
Theorem C1_upload_partition
        (started : schedule) (self : MultipartUploader.t)
        (filename bucket key : string) (callback : option Callback)
        (extra_args : kwargs) (f : PyFile.t) (w w' : world) :
  let S := len (PyFile.content f) in
  let P := TransferConfig.multipart_chunksize
             (MultipartUploader._config self) in
  let N := - ((- S) / P) in
  let parts := map (fun n => (n, P * (n - 1),
                              if n <? N then P else S - P * (N - 1)))
                 (py_range 1 (N + 1)) in
  fs w filename = Some f ->
  0 < S < 2 ^ 53 -> 0 < P < 2 ^ 53 ->
  MultipartUploader.upload_file started self filename bucket key callback
    extra_args w = (Ok tt, w') ->
  P * (N - 1) < S <= P * N
  /\ (exists new,
        calls w' = calls w ++ new
        /\ Permutation (uploaded_parts new) parts
        /\ (MultipartUploader.max_workers self = 1 ->
            uploaded_parts new = parts)
        /\ sum_Z (map (fun x => snd x) (uploaded_parts new)) = S)
  /\ 0 < S - P * (N - 1) <= P.
Proof.
  intros S P N parts Hf HS HP Hrun.
  pose proof (@ceil_div_bounds S P (proj1 HP)) as Hceil. fold N in Hceil.
  assert (HN : 1 <= N) by nia.
  split; [exact Hceil|]. split; [|lia].
  rewrite (@upload_file_run started self filename bucket key callback
             (fs w) f Hf extra_args w eq_refl) in Hrun.
  unfold upload_file_result in Hrun. fold S P in Hrun.
  rewrite py_ceil_div_exact in Hrun by lia. fold N in Hrun.
  destruct (create_multipart_upload_response _ _ _ _) as [u|e];
    [|discriminate].
  destruct (MultipartUploader.max_workers self <=? 0); [discriminate|].
  destruct (outcome _ _) as [ps|e]; [|discriminate].
  injection Hrun as _ <-.
  eexists. split; [reflexivity|].
  assert (Hparts :
    uploaded_parts
      (CreateMultipartUpload bucket key extra_args
       :: List.concat
            (map (part_call self bucket key callback f u)
               (py_range 1 (N + 1)))
       ++ [CompleteMultipartUpload bucket key u (sort_parts ps)])
    = parts).
  { change (uploaded_parts (?c :: ?l)) with (uploaded_parts l).
    rewrite uploaded_parts_app, uploaded_parts_part_calls.
    simpl. rewrite app_nil_r.
    apply map_ext_in. intros n Hn. apply py_range_In in Hn.
    fold S P. f_equal. clearbody N S P.
    destruct (n <? N) eqn:En; [apply Z.ltb_lt in En|apply Z.ltb_ge in En].
    - assert (P * n <= P * (N - 1))
        by (apply Z.mul_le_mono_nonneg_l; lia).
      lia.
    - assert (n = N) by lia. subst n. lia. }
  split; [now rewrite Hparts|]. split; [intros _; exact Hparts|].
  rewrite Hparts. unfold parts. rewrite map_map. simpl.
  rewrite py_range_snoc, map_app, sum_Z_app by lia.
  rewrite (map_ext_in _ (fun _ => P)).
  - rewrite sum_Z_const. unfold len. rewrite py_range_length. simpl.
    rewrite Z.ltb_irrefl. rewrite Z2Nat.id by lia. lia.
  - intros n Hn. apply py_range_In in Hn.
    destruct (n <? N) eqn:En; [reflexivity|apply Z.ltb_ge in En; lia].
Qed.

(** A world whose only file is [name], holding [data]. *)
Definition world_with (name : string) (data : bytes) : world :=
  mkWorld [] [] (fs_set no_files name (PyFile.open_rb data)) [].

Definition five_bytes : bytes := ["a"; "b"; "c"; "d"; "e"]%byte.

Definition two_byte_parts : TransferConfig.t :=
  TransferConfig.__init__ (Some 4) (Some 2) (Some 2).

Definition C1_witness_run : result unit * world :=
  MultipartUploader.upload_file (fun _ => true)
    (MultipartUploader.mk (store []) two_byte_parts)
    "f" "bucket" "key" None [] (world_with "f" five_bytes).

Lemma C1_upload_partition_witness :
  Permutation (uploaded_parts (calls (snd C1_witness_run)))
    [(1, 0, 2); (2, 2, 2); (3, 4, 1)].
Proof.
  destruct (@C1_upload_partition (fun _ => true)
              (MultipartUploader.mk (store []) two_byte_parts)
              "f" "bucket" "key" None [] (PyFile.open_rb five_bytes)
              (world_with "f" five_bytes) (snd C1_witness_run)
              eq_refl (conj eq_refl eq_refl) (conj eq_refl eq_refl)
              eq_refl)
    as (_ & (new & Hcalls & Hparts & _) & _).
  rewrite Hcalls. exact Hparts.
Defined.

(** ** Order of the completed parts (C3) *)

Definition part_le (p q : Part) : Prop := PartNumber p <= PartNumber q.

Lemma insert_part_perm (p : Part) (l : list Part) :
  Permutation (p :: l) (insert_part p l).
Proof.
  induction l as [|q l IH]; simpl; [easy|].
  destruct (PartNumber p <=? PartNumber q); [easy|].
  rewrite perm_swap. now constructor.
Qed.

Lemma sort_parts_perm (l : list Part) : Permutation l (sort_parts l).
Proof.
  induction l as [|p l IH]; simpl; [easy|].
  rewrite <- insert_part_perm. now constructor.
Qed.

Lemma insert_part_sorted (p : Part) (l : list Part) :
  StronglySorted part_le l -> StronglySorted part_le (insert_part p l).
Proof.
  induction 1 as [|q l Hl IH Hq]; simpl.
  - repeat constructor.
  - destruct (PartNumber p <=? PartNumber q) eqn:E.
    + apply Z.leb_le in E. constructor; [now constructor|].
      constructor; [exact E|].
      eapply Forall_impl; [|exact Hq]. unfold part_le; intros; lia.
    + apply Z.leb_gt in E. constructor; [exact IH|].
      eapply Permutation_Forall; [apply insert_part_perm|].
      constructor; [unfold part_le; lia|exact Hq].
Qed.

Lemma sort_parts_sorted (l : list Part) :
  StronglySorted part_le (sort_parts l).
Proof.
  induction l as [|p l IH]; simpl; [constructor|].
  now apply insert_part_sorted.
Qed.

Lemma upload_file_missing (started : schedule) (self : MultipartUploader.t)
      (filename bucket key : string) (callback : option Callback)
      (extra_args : kwargs) (w : world) :
  fs w filename = None ->
  MultipartUploader.upload_file started self filename bucket key callback
    extra_args w
  = (match create_multipart_upload_response (MultipartUploader._client self)
             bucket key extra_args with
     | Ok _ => Raise OSError
     | Raise e => Raise e
     end,
     add_calls w [CreateMultipartUpload bucket key extra_args]).
Proof.
  intros Hf. unfold MultipartUploader.upload_file, create_multipart_upload.
  unfold bind at 1. unfold bind at 1. unfold emit at 1. unfold lift at 1.
  destruct (create_multipart_upload_response _ _ _ _); [|reflexivity].
  unfold bind at 1. unfold OSUtils.get_file_size. simpl.
  now rewrite Hf.
Qed.

(** The completion requests of a trace. *)
Definition completions (l : list call) : list (list Part) :=
  flat_map (fun c => match c with
                     | CompleteMultipartUpload _ _ _ parts => [parts]
                     | _ => []
                     end) l.

Lemma completions_app (l1 l2 : list call) :
  completions (l1 ++ l2) = completions l1 ++ completions l2.
Proof. apply flat_map_app. Qed.

Lemma completions_part_calls (self : MultipartUploader.t)
      (bucket key : string) (callback : option Callback) (f : PyFile.t)
      (upload_id : string) (items : list Z) :
  completions
    (List.concat (map (part_call self bucket key callback f upload_id) items))
  = [].
Proof.
  unfold completions.
  induction items as [|n rest IH]; [reflexivity|exact IH].
Qed.

(** The completion requests of one [upload_file] call: none when the call
    fails before completing, otherwise one, carrying the sorted results. *)
Lemma upload_file_completions
      (started : schedule) (self : MultipartUploader.t)
      (filename bucket key : string) (callback : option Callback)
      (extra_args : kwargs) (w : world) :
  exists new,
    calls (snd (MultipartUploader.upload_file started self filename bucket
                  key callback extra_args w)) = calls w ++ new
    /\ (completions new = []
        \/ exists parts, completions new = [sort_parts parts]).
Proof.
  destruct (fs w filename) as [f|] eqn:Hf.
  - rewrite (@upload_file_run started self filename bucket key callback
               (fs w) f Hf extra_args w eq_refl).
    unfold upload_file_result.
    destruct (create_multipart_upload_response _ _ _ _) as [u|e];
      [|eexists; split; [reflexivity|now left]].
    destruct (py_ceil_div _ _) as [num_parts|e];
      [|eexists; split; [reflexivity|now left]].
    destruct (_ <=? 0); [eexists; split; [reflexivity|now left]|].
    destruct (outcome _ _) as [parts|e].
    + eexists; split; [reflexivity|right].
      exists parts.
      change (completions (?c :: ?l)) with (completions l).
      now rewrite completions_app, completions_part_calls.
    + eexists; split; [reflexivity|left].
      change (completions (?c :: ?l)) with (completions l).
      apply completions_part_calls.
  - rewrite upload_file_missing by assumption.
    eexists; split; [reflexivity|now left].
Qed.

(** C3.  Whatever the order in which the part results were collected, the
    completion request carries them sorted by ascending part number (and
    carries exactly them); and every completion request that an upload
    issues carries a part list sorted by ascending part number. *)
Theorem C3_completion_sorted :
  (forall (self : MultipartUploader.t) (bucket key upload_id : string)
          (arrival : list Part) (w : world),
      exists parts,
        calls (snd (MultipartUploader.complete self bucket key upload_id
                      arrival w))
        = calls w ++ [CompleteMultipartUpload bucket key upload_id parts]
        /\ StronglySorted part_le parts
        /\ Permutation arrival parts)
  /\ (forall (started : schedule) (self : MultipartUploader.t)
             (filename bucket key : string) (callback : option Callback)
             (extra_args : kwargs) (w : world),
         exists new,
           calls (snd (MultipartUploader.upload_file started self filename
                         bucket key callback extra_args w)) = calls w ++ new
           /\ Forall (StronglySorted part_le) (completions new)).
Proof.
  split.
  - intros self bucket key upload_id arrival w.
    exists (sort_parts arrival). split; [|split].
    + unfold MultipartUploader.complete, complete_multipart_upload.
      unfold_m. reflexivity.
    + apply sort_parts_sorted.
    + apply sort_parts_perm.
  - intros started self filename bucket key callback extra_args w.
    destruct (upload_file_completions started self filename bucket key
                callback extra_args w) as (new & Hnew & [Hc | [parts Hc]]).
    + exists new. split; [exact Hnew|]. rewrite Hc. constructor.
    + exists new. split; [exact Hnew|]. rewrite Hc.
      constructor; [apply sort_parts_sorted|constructor].
Qed.

(** ** Failure of a part upload (C9) *)

Lemma in_part_calls (self : MultipartUploader.t) (bucket key : string)
      (callback : option Callback) (f : PyFile.t) (upload_id : string)
      (items : list Z) (c : call) :
  In c (List.concat
          (map (part_call self bucket key callback f upload_id) items)) ->
  exists x, In x items
            /\ c = UploadPart bucket key upload_id x
                     (part_body (len (PyFile.content f))
                        (TransferConfig.multipart_chunksize
                           (MultipartUploader._config self)) callback x).
Proof.
  intros Hc. apply in_concat in Hc. destruct Hc as (l & Hl & Hc).
  apply in_map_iff in Hl. destruct Hl as (x & <- & Hx).
  destruct Hc as [<-|[]]. now exists x.
Qed.

Lemma Forall2_ok_in (B : Type) (r : Z -> result B) (items : list Z)
      (bs : list B) (x : Z) :
  Forall2 (fun x b => r x = Ok b) items bs -> In x items ->
  exists b, r x = Ok b.
Proof.
  induction 1 as [|y b items bs Hy HF IH]; intros Hx; [easy|].
  destruct Hx as [<-|Hx]; [now exists b|auto].
Qed.

(** C9.  If an [upload_part] request that a multipart upload issues is
    answered by a failure, the upload call itself fails and it issues no
    [complete_multipart_upload] request. *)
Theorem C9_failed_part_no_completion
        (started : schedule) (self : MultipartUploader.t)
        (filename bucket key : string) (callback : option Callback)
        (extra_args : kwargs) (w : world)
        (new : list call) (upload_id : string) (n : Z) (body : Body)
        (e : exn) :
  let run := MultipartUploader.upload_file started self filename bucket key
               callback extra_args w in
  calls (snd run) = calls w ++ new ->
  In (UploadPart bucket key upload_id n body) new ->
  upload_part_response (MultipartUploader._client self) bucket key upload_id
    n body = Raise e ->
  (exists e', fst run = Raise e') /\ completions new = [].
Proof.
  intros run Hnew Hin Hfail. subst run.
  destruct (fs w filename) as [f|] eqn:Hf.
  - rewrite (@upload_file_run started self filename bucket key callback
               (fs w) f Hf extra_args w eq_refl) in *.
    unfold upload_file_result in *.
    destruct (create_multipart_upload_response _ _ _ _) as [u|e0].
    + destruct (py_ceil_div _ _) as [num_parts|e0].
      * destruct (_ <=? 0).
        { simpl in Hnew. apply app_inv_head in Hnew. subst new.
          destruct Hin as [Hin|[]]; discriminate. }
        destruct (outcome _ _) as [parts|e0] eqn:Ho;
          simpl in Hnew; apply app_inv_head in Hnew; subst new.
        -- exfalso.
           destruct Hin as [Hin|Hin]; [discriminate|].
           apply in_app_or in Hin. destruct Hin as [Hin|[Hin|[]]];
             [|discriminate].
           apply in_part_calls in Hin. destruct Hin as (x & Hx & Heq).
           injection Heq as -> -> ->.
           destruct (@outcome_ok_all started _ _ _ _ Ho) as [_ HF].
           destruct (@Forall2_ok_in _ _ _ _ _ HF Hx) as [b Hb].
           unfold part_result in Hb. rewrite Hfail in Hb. discriminate.
        -- split; [now exists e0|].
           change (completions (?c :: ?l)) with (completions l).
           apply completions_part_calls.
      * simpl in Hnew. apply app_inv_head in Hnew. subst new.
        destruct Hin as [Hin|[]]; discriminate.
    + simpl in Hnew. apply app_inv_head in Hnew. subst new.
      destruct Hin as [Hin|[]]; discriminate.
  - rewrite upload_file_missing in * by assumption.
    simpl in Hnew. apply app_inv_head in Hnew. subst new.
    destruct Hin as [Hin|[]]; discriminate.
Qed.

(** A store that refuses part [bad] and accepts everything else. *)
Definition refusing_part (bad : Z) : Client :=
  mkClient (fun _ _ _ => Ok "upload-id"%string)
           (fun _ _ _ n _ =>
              if n =? bad then Raise (ClientError "UploadPart")
              else Ok "etag"%string)
           (fun _ _ _ _ => Ok tt)
           (fun _ _ _ _ => Ok tt)
           (fun _ _ => Ok 0)
           (fun _ _ _ => Ok []).

Definition C9_witness_run : result unit * world :=
  MultipartUploader.upload_file (fun _ => true)
    (MultipartUploader.mk (refusing_part 2) two_byte_parts)
    "f" "bucket" "key" None [] (world_with "f" five_bytes).

Lemma C9_failed_part_no_completion_witness :
  (exists e', fst C9_witness_run = Raise e')
  /\ completions (calls (snd C9_witness_run)) = [].
Proof.
  apply (@C9_failed_part_no_completion (fun _ => true)
           (MultipartUploader.mk (refusing_part 2) two_byte_parts)
           "f" "bucket" "key" None [] (world_with "f" five_bytes)
           (calls (snd C9_witness_run)) "upload-id" 2 (mkBody 2 2 None)
           (ClientError "UploadPart")).
  - reflexivity.
  - vm_compute. right; right; left; reflexivity.
  - reflexivity.
Defined.

(** ** Which requests a computation can issue *)

(** [emits Q m]: whatever the world, [m] only adds requests, and every
    request it adds satisfies [Q]. *)
Definition emits (A : Type) (Q : call -> Prop) (m : M A) : Prop :=
  forall w, exists new, calls (snd (m w)) = calls w ++ new /\ Forall Q new.

Lemma emits_silent (A : Type) (Q : call -> Prop) (m : M A) :
  (forall w, calls (snd (m w)) = calls w) -> emits Q m.
Proof.
  intros H w. exists []. rewrite H, app_nil_r. auto.
Qed.

Lemma emits_ret (A : Type) (Q : call -> Prop) (a : A) : emits Q (ret a).
Proof. now apply emits_silent. Qed.

Lemma emits_lift (A : Type) (Q : call -> Prop) (r : result A) :
  emits Q (lift r).
Proof. now apply emits_silent. Qed.

Lemma emits_invoke (Q : call -> Prop) (cb : option Callback) (n : Z) :
  emits Q (invoke cb n).
Proof. apply emits_silent. intros w. now destruct cb. Qed.

Lemma emits_emit (Q : call -> Prop) (c : call) : Q c -> emits Q (emit c).
Proof. intros H w. exists [c]. simpl. auto. Qed.

Lemma emits_bind (A B : Type) (Q : call -> Prop) (m : M A) (k : A -> M B) :
  emits Q m -> (forall a, emits Q (k a)) -> emits Q (bind m k).
Proof.
  intros Hm Hk w. unfold bind.
  destruct (Hm w) as (new1 & H1 & HQ1).
  destruct (m w) as [[a|e] w1]; simpl in *.
  - destruct (Hk a w1) as (new2 & H2 & HQ2).
    exists (new1 ++ new2). rewrite H2, H1, app_assoc. split; [easy|].
    apply Forall_app; auto.
  - exists new1. auto.
Qed.

Lemma emits_drain (B : Type) (Q : call -> Prop) (started : schedule)
      (fn : Z -> M B) (items : list Z) :
  (forall x, emits Q (fn x)) ->
  forall w, exists new,
    calls (drain started fn items w) = calls w ++ new /\ Forall Q new.
Proof.
  intros Hfn. induction items as [|x rest IH]; intros w; simpl.
  - exists []. now rewrite app_nil_r.
  - destruct (started x); [|apply IH].
    destruct (Hfn x w) as (new1 & H1 & HQ1).
    destruct (IH (snd (fn x w))) as (new2 & H2 & HQ2).
    exists (new1 ++ new2). rewrite H2, H1, app_assoc. split; [easy|].
    apply Forall_app; auto.
Qed.

Lemma emits_executor_map (B : Type) (Q : call -> Prop) (started : schedule)
      (fn : Z -> M B) (items : list Z) :
  (forall x, emits Q (fn x)) -> emits Q (executor_map started fn items).
Proof.
  intros Hfn. induction items as [|x rest IH]; intros w; simpl.
  - exists []. now rewrite app_nil_r.
  - destruct (Hfn x w) as (new1 & H1 & HQ1).
    destruct (fn x w) as [[b|e] w1]; simpl in *.
    + destruct (IH w1) as (new2 & H2 & HQ2).
      exists (new1 ++ new2).
      destruct (executor_map started fn rest w1) as [[bs|e] w2];
        simpl in *; rewrite H2, H1, app_assoc;
        (split; [easy|apply Forall_app; auto]).
    + destruct (@emits_drain B Q started fn rest Hfn w1)
        as (new2 & H2 & HQ2).
      exists (new1 ++ new2). rewrite H2, H1, app_assoc. split; [easy|].
      apply Forall_app; auto.
Qed.

Lemma emits_pwrite (Q : call -> Prop) (self : ThreadSafeWriter.t)
      (data : bytes) (offset : Z) :
  emits Q (ThreadSafeWriter.pwrite self data offset).
Proof.
  apply emits_silent. intros w. unfold ThreadSafeWriter.pwrite.
  destruct (fs w _); [|reflexivity].
  now destruct (PyFile.seek _ _).
Qed.

Lemma emits_stream_read (Q : call -> Prop) (s : StreamReaderProgress.t)
      (amt : Z) :
  emits Q (StreamReaderProgress.read s amt).
Proof.
  unfold StreamReaderProgress.read.
  apply emits_bind; [apply emits_invoke|intros; apply emits_ret].
Qed.

Lemma emits_open_wb (Q : call -> Prop) (filename : string) :
  emits Q (OSUtils.open_wb filename).
Proof. now apply emits_silent. Qed.

Lemma emits_write (Q : call -> Prop) (filename : string) (data : bytes) :
  emits Q (OSUtils.write filename data).
Proof.
  apply emits_silent. intros w. unfold OSUtils.write.
  now destruct (fs w _).
Qed.

Lemma emits_get_file_size (Q : call -> Prop) (filename : string) :
  emits Q (OSUtils.get_file_size filename).
Proof.
  apply emits_silent. intros w. unfold OSUtils.get_file_size.
  now destruct (fs w _).
Qed.

Lemma emits_open_file_chunk_reader (Q : call -> Prop) (filename : string)
      (start_byte size : Z) (callback : option Callback) :
  emits Q (OSUtils.open_file_chunk_reader filename start_byte size callback).
Proof.
  apply emits_silent. intros w. unfold OSUtils.open_file_chunk_reader.
  now destruct (fs w _).
Qed.

Lemma emits_pool (Q : call -> Prop) (max_workers : Z) :
  emits Q (ThreadPoolExecutor max_workers).
Proof.
  apply emits_silent. intros w. unfold ThreadPoolExecutor.
  now destruct (max_workers <=? 0).
Qed.

Create HintDb emits.

#[local] Hint Resolve emits_ret emits_lift emits_invoke emits_pwrite
  emits_stream_read emits_open_wb emits_write emits_get_file_size
  emits_open_file_chunk_reader emits_pool : emits.

Definition is_multipart_call (c : call) : Prop :=
  match c with
  | CreateMultipartUpload _ _ _ | UploadPart _ _ _ _ _
  | CompleteMultipartUpload _ _ _ _ => True
  | _ => False
  end.

Definition is_ranged_get (c : call) : Prop :=
  match c with
  | GetObject _ _ (Some _) => True
  | _ => False
  end.

Lemma emits_multipart_upload (started : schedule)
      (self : MultipartUploader.t) (filename bucket key : string)
      (callback : option Callback) (extra_args : kwargs) :
  emits is_multipart_call
    (MultipartUploader.upload_file started self filename bucket key callback
       extra_args).
Proof.
  unfold MultipartUploader.upload_file, create_multipart_upload.
  repeat (apply emits_bind; [|intros ?]); auto with emits.
  - now apply emits_emit.
  - apply emits_executor_map. intros n.
    unfold MultipartUploader._upload_one_part, upload_part.
    repeat (apply emits_bind; [|intros ?]); auto with emits.
    now apply emits_emit.
  - unfold MultipartUploader.complete, complete_multipart_upload.
    repeat (apply emits_bind; [|intros ?]); auto with emits.
    now apply emits_emit.
Qed.

Lemma emits_write_chunks (Q : call -> Prop) (fuel : nat) (buffer_size : Z)
      (body : StreamReaderProgress.t) (writer : ThreadSafeWriter.t)
      (index : Z) :
  emits Q (MultipartDownloaded.write_chunks fuel buffer_size body writer
             index).
Proof.
  revert body index. induction fuel as [|fuel IH]; intros body index; simpl;
    (apply emits_bind; [auto with emits|intros [[|b chunk] body']]);
    auto with emits.
  apply emits_bind; auto with emits.
Qed.

Lemma emits_ranged_download (started : schedule)
      (self : MultipartDownloaded.t) (bucket key filename : string)
      (object_size : Z) (callback : option Callback) :
  emits is_ranged_get
    (MultipartDownloaded.download_file started self bucket key filename
       object_size callback).
Proof.
  unfold MultipartDownloaded.download_file.
  repeat (apply emits_bind; [|intros ?]); auto with emits.
  apply emits_executor_map. intros i.
  unfold MultipartDownloaded._download_range, get_object.
  apply emits_bind; [|intros body; apply emits_write_chunks].
  apply emits_bind; [now apply emits_emit|auto with emits].
Qed.

Lemma calls_copy_chunks (fuel : nat) (body : StreamReaderProgress.t)
      (f : string) (w : world) :
  calls (snd (S3Transfer.copy_chunks fuel body f w)) = calls w.
Proof.
  destruct (@emits_bind _ _ (fun _ => False)
              (ret tt) (fun _ => S3Transfer.copy_chunks fuel body f)
              (emits_ret _ tt)) with (w := w) as (new & Hnew & HF).
  - intros _. revert body. induction fuel as [|fuel IH]; intros body; simpl;
      (apply emits_bind; [auto with emits|intros [[|b chunk] body']]);
      auto with emits.
    apply emits_bind; auto with emits.
  - unfold bind, ret in Hnew. simpl in Hnew.
    destruct new as [|c new]; [now rewrite app_nil_r in Hnew|].
    now inversion HF.
Qed.

(** ** Choice of the transfer strategy (C5) *)

Lemma put_object_run (self : S3Transfer.t) (filename bucket key : string)
      (callback : option Callback) (extra_args : kwargs) (f : PyFile.t)
      (w : world) :
  fs w filename = Some f ->
  let body := mkBody 0 (len (PyFile.content f)) callback in
  S3Transfer._put_object self filename bucket key callback extra_args w
  = (put_object_response (S3Transfer._client self) bucket key body
       extra_args,
     add_calls w [PutObject bucket key body extra_args]).
Proof.
  intros Hf. unfold S3Transfer._put_object.
  unfold bind at 1.
  rewrite (@get_file_size_run (fs w) filename f w Hf eq_refl).
  unfold bind at 1. unfold OSUtils.open_file_chunk_reader. rewrite Hf.
  unfold ReadFileChunk.from_filename, ReadFileChunk.__init__; simpl.
  unfold put_object, ReadFileChunk.as_body,
    ReadFileChunk._calculate_file_size; simpl.
  unfold_m; simpl.
  now rewrite Z.sub_0_r, Z.min_id.
Qed.

(** The branch of [S3Transfer.upload_file] on the size of the file. *)
Lemma upload_file_branch
      (started : schedule) (self : S3Transfer.t)
      (filename bucket key : string) (callback : option Callback)
      (extra_args : kwargs) (f : PyFile.t) (w : world) :
  fs w filename = Some f ->
  S3Transfer.upload_file started self filename bucket key callback
    (Some extra_args) w
  = if len (PyFile.content f)
       >=? TransferConfig.multipart_threshold (S3Transfer._config self)
    then S3Transfer._multipart_upload started self filename bucket key
           callback extra_args w
    else S3Transfer._put_object self filename bucket key callback
           extra_args w.
Proof.
  intros Hf. unfold S3Transfer.upload_file. unfold bind at 1.
  rewrite (@get_file_size_run (fs w) filename f w Hf eq_refl).
  now destruct (_ >=? _).
Qed.

(** C5.  An upload of a file shorter than [multipart_threshold] is the
    direct path: its only request is one [put_object] whose body is the whole
    file.  An upload of a file at least that long, the boundary included, is
    the multipart path: it issues multipart-session requests only.  A
    download reads the object size with [head_object]; below the threshold
    it is the direct path, whose only other request is one plain
    [get_object]; from the threshold on it is the ranged path, whose other
    requests are all ranged [get_object] requests. *)
Theorem C5_strategy_selection (started : schedule) (self : S3Transfer.t) :
  let T := TransferConfig.multipart_threshold (S3Transfer._config self) in
  (forall (filename bucket key : string) (callback : option Callback)
          (extra_args : kwargs) (f : PyFile.t) (w : world),
      fs w filename = Some f ->
      let S := len (PyFile.content f) in
      let run := S3Transfer.upload_file started self filename bucket key
                   callback (Some extra_args) w in
      (S < T ->
       run = S3Transfer._put_object self filename bucket key callback
               extra_args w
       /\ calls (snd run)
          = calls w ++ [PutObject bucket key (mkBody 0 S callback)
                          extra_args])
      /\ (T <= S ->
          run = S3Transfer._multipart_upload started self filename bucket
                  key callback extra_args w
          /\ exists new, calls (snd run) = calls w ++ new
                         /\ Forall is_multipart_call new))
  /\ (forall (bucket key filename : string) (callback : option Callback)
             (S : Z) (w : world),
         head_object_response (S3Transfer._client self) bucket key = Ok S ->
         let run := S3Transfer.download_file started self bucket key filename
                      callback w in
         let w1 := add_calls w [HeadObject bucket key] in
         (S < T ->
          run = S3Transfer._get_object self bucket key filename callback w1
          /\ calls (snd run)
             = calls w ++ [HeadObject bucket key; GetObject bucket key None])
         /\ (T <= S ->
             run = S3Transfer._ranged_download started self bucket key
                     filename S callback w1
             /\ exists new,
                 calls (snd run) = calls w ++ HeadObject bucket key :: new
                 /\ Forall is_ranged_get new)).
Proof.
  intros T. split.
  - intros filename bucket key callback extra_args f w Hf S run.
    assert (Hrun : run
                   = if S >=? T
                     then S3Transfer._multipart_upload started self filename
                            bucket key callback extra_args w
                     else S3Transfer._put_object self filename bucket key
                            callback extra_args w).
    { unfold run, S3Transfer.upload_file. unfold bind at 1.
      rewrite (@get_file_size_run (fs w) filename f w Hf eq_refl).
      fold S T. now destruct (S >=? T). }
    split; intros HS.
    + destruct (S >=? T) eqn:E; [lia|].
      split; [exact Hrun|]. rewrite Hrun.
      now rewrite (put_object_run _ _ _ _ _ _ _ Hf).
    + destruct (S >=? T) eqn:E; [|lia].
      split; [exact Hrun|]. rewrite Hrun.
      apply emits_multipart_upload.
  - intros bucket key filename callback S w Hhead run w1.
    assert (Hrun : run
                   = if S >=? T
                     then S3Transfer._ranged_download started self bucket key
                            filename S callback w1
                     else S3Transfer._get_object self bucket key filename
                            callback w1).
    { unfold run, S3Transfer.download_file, S3Transfer._object_size,
        head_object.
      unfold bind at 1. unfold bind at 1. unfold emit, lift.
      rewrite Hhead. fold T. now destruct (S >=? T). }
    split; intros HS.
    + destruct (S >=? T) eqn:E; [lia|].
      split; [exact Hrun|]. rewrite Hrun.
      unfold S3Transfer._get_object, get_object.
      unfold bind at 1. unfold bind at 1. unfold emit, lift.
      destruct (get_object_response _ _ _ _) as [body|e].
      * cbv beta iota. unfold bind at 1. unfold OSUtils.open_wb at 1.
        cbv beta iota. rewrite calls_copy_chunks. simpl.
        now rewrite <- app_assoc.
      * simpl. now rewrite <- app_assoc.
    + destruct (S >=? T) eqn:E; [|lia].
      split; [exact Hrun|]. rewrite Hrun.
      destruct (@emits_ranged_download started
                  (MultipartDownloaded.mk (S3Transfer._client self)
                     (S3Transfer._config self))
                  bucket key filename S callback w1) as (new & Hnew & HQ).
      exists new. split; [|exact HQ].
      unfold S3Transfer._ranged_download. rewrite Hnew.
      unfold w1. simpl. now rewrite <- app_assoc.
Qed.

(** At the boundary: five bytes against a threshold of five bytes. *)
Definition threshold_five : TransferConfig.t :=
  TransferConfig.__init__ (Some 5) None (Some 2).

Lemma C5_strategy_selection_witness :
  let self := S3Transfer.mk (store []) threshold_five in
  S3Transfer.upload_file (fun _ => true) self "f" "bucket" "key" None
    (Some []) (world_with "f" five_bytes)
  = S3Transfer._multipart_upload (fun _ => true) self "f" "bucket" "key"
      None [] (world_with "f" five_bytes).
Proof.
  intros self.
  destruct (@C5_strategy_selection (fun _ => true) self) as [Hup _].
  destruct (Hup "f"%string "bucket"%string "key"%string None []
              (PyFile.open_rb five_bytes) (world_with "f" five_bytes)
              eq_refl) as [_ Hmulti].
  apply Hmulti. vm_compute. discriminate.
Defined.

(** ** Degenerate sizes (C8) *)

(** An upload of an empty file under the default policy is not rejected: it
    succeeds, and it has issued a [put_object] request.  So it is not true
    that every upload of an empty file fails without any request. *)
Lemma C8_counterexample :
  ~ (forall (started : schedule) (self : S3Transfer.t)
            (filename bucket key : string) (extra_args : kwargs)
            (f : PyFile.t) (w : world),
        fs w filename = Some f ->
        len (PyFile.content f) = 0
        \/ TransferConfig.multipart_chunksize (S3Transfer._config self)
           <= 0 ->
        let run := S3Transfer.upload_file started self filename bucket key
                     None (Some extra_args) w in
        (exists e, fst run = Raise e) /\ calls (snd run) = calls w).
Proof.
  intros H.
  destruct (H (fun _ => true) (S3Transfer.__init__ (store []) None)
              "f"%string "bucket"%string "key"%string []
              (PyFile.open_rb []) (world_with "f" [])
              eq_refl (or_introl eq_refl)) as [_ Hcalls].
  vm_compute in Hcalls. discriminate.
Qed.

(** C8, as the code has it.  Nothing is validated before the first request.
    An empty file below the threshold is sent with one [put_object] whose
    body is empty, and the call returns what the store answers.  On the
    multipart path [create_multipart_upload] is always issued first; once
    the session is open, and for sizes that have a double (below 2^1023 in
    absolute value), a part size of zero fails the call with a division
    error before any part is uploaded, and a negative part size, with a pool
    of at least one worker, uploads no part and completes the session with
    an empty part list. *)
Theorem C8_no_validation
        (started : schedule) (self : S3Transfer.t)
        (filename bucket key : string) (callback : option Callback)
        (extra_args : kwargs) (f : PyFile.t) (w : world) :
  let client := S3Transfer._client self in
  let S := len (PyFile.content f) in
  let P := TransferConfig.multipart_chunksize (S3Transfer._config self) in
  let T := TransferConfig.multipart_threshold (S3Transfer._config self) in
  let create := CreateMultipartUpload bucket key extra_args in
  let run := S3Transfer.upload_file started self filename bucket key callback
               (Some extra_args) w in
  fs w filename = Some f ->
  (S = 0 -> 0 < T ->
   run = (put_object_response client bucket key (mkBody 0 0 callback)
            extra_args,
          add_calls w [PutObject bucket key (mkBody 0 0 callback)
                         extra_args]))
  /\ (T <= S ->
      exists rest, calls (snd run) = calls w ++ create :: rest)
  /\ (forall upload_id,
         T <= S -> S < 2 ^ 1023 ->
         create_multipart_upload_response client bucket key extra_args
         = Ok upload_id ->
         (P = 0 -> run = (Raise ZeroDivisionError, add_calls w [create]))
         /\ (- 2 ^ 1023 < P < 0 ->
             1 <= TransferConfig.max_concurrency (S3Transfer._config self) ->
             run = (complete_multipart_upload_response client bucket key
                      upload_id [],
                    add_calls w [create;
                                 CompleteMultipartUpload bucket key upload_id
                                   []]))).
Proof.
  intros client S P T create run Hf.
  pose proof (@upload_file_branch started self filename bucket key callback
                extra_args f w Hf) as Hbranch.
  fold S T run in Hbranch.
  pose proof (@upload_file_run started
                (MultipartUploader.mk (S3Transfer._client self)
                   (S3Transfer._config self))
                filename bucket key callback (fs w) f Hf extra_args w
                eq_refl) as Hrun.
  unfold upload_file_result in Hrun.
  cbn [MultipartUploader._client MultipartUploader._config] in Hrun.
  unfold MultipartUploader.max_workers in Hrun.
  cbn [MultipartUploader._config] in Hrun.
  fold S P create in Hrun.
  split; [|split].
  - intros HS HT. rewrite Hbranch.
    destruct (S >=? T) eqn:E; [lia|].
    rewrite (put_object_run _ _ _ _ _ _ _ Hf). fold S client.
    now rewrite HS.
  - intros HT. rewrite Hbranch.
    destruct (S >=? T) eqn:E; [|lia].
    unfold S3Transfer._multipart_upload. rewrite Hrun.
    destruct (create_multipart_upload_response _ _ _ _) as [u|e];
      [|now exists []].
    destruct (py_ceil_div S P); [|now exists []].
    destruct (_ <=? 0); [now exists []|].
    destruct (outcome _ _); eexists; reflexivity.
  - intros upload_id HT HS Hcreate. rewrite Hbranch.
    destruct (S >=? T) eqn:E; [|lia].
    unfold S3Transfer._multipart_upload. rewrite Hrun.
    unfold client in Hcreate. rewrite Hcreate.
    pose proof (len_nonneg (PyFile.content f)) as HS0. fold S in HS0.
    split.
    + intros HP. rewrite HP, py_ceil_div_zero by lia. reflexivity.
    + intros HP Hworkers.
      destruct (@py_ceil_div_returns S P) as [n Hn]; [lia|lia|lia|].
      rewrite Hn.
      destruct (_ <=? 0) eqn:E0; [lia|].
      rewrite py_range_empty.
      * reflexivity.
      * pose proof (@py_ceil_div_neg_divisor S P n HS0 (proj2 HP) Hn). lia.
Qed.

Definition zero_part_size : TransferConfig.t :=
  TransferConfig.__init__ (Some 4) None (Some 0).

Lemma C8_no_validation_witness :
  S3Transfer.upload_file (fun _ => true)
    (S3Transfer.mk (store []) zero_part_size) "f" "bucket" "key" None
    (Some []) (world_with "f" five_bytes)
  = (Raise ZeroDivisionError,
     add_calls (world_with "f" five_bytes)
       [CreateMultipartUpload "bucket" "key" []]).
Proof.
  destruct (@C8_no_validation (fun _ => true)
              (S3Transfer.mk (store []) zero_part_size)
              "f" "bucket" "key" None [] (PyFile.open_rb five_bytes)
              (world_with "f" five_bytes) eq_refl) as (_ & _ & H).
  destruct (H "upload-id"%string) as [Hzero _].
  - vm_compute. discriminate.
  - reflexivity.
  - reflexivity.
  - apply Hzero. reflexivity.
Defined.

(** ** Progress callbacks (C6) *)

(** A read at the end of the window returns no byte and still calls the
    callback, with 0.  So it is not true that the callback is called only
    when a read returns at least one byte. *)
Lemma C6_counterexample :
  ~ (forall (self self' : ReadFileChunk.t) (amount : option Z)
            (data : bytes) (w w' : world),
        ReadFileChunk._callback self = Some ProgressCallback ->
        ReadFileChunk.read self amount w = (Ok (data, self'), w') ->
        progress w'
        = progress w ++ (if 0 <? len data then [len data] else [])).
Proof.
  intros H.
  specialize (H (ReadFileChunk.mk (PyFile.open_rb []) 0 0 0
                   (Some ProgressCallback))
                (ReadFileChunk.mk (PyFile.open_rb []) 0 0 0
                   (Some ProgressCallback))
                None [] empty_world (mkWorld [] [0] no_files [])
                eq_refl eq_refl).
  discriminate.
Qed.

(** C6, as the code has it.  With a callback attached, every read that
    returns calls the callback exactly once, with the number of bytes it
    returns; this number is 0 for a read that returns no byte.  This holds
    for [ReadFileChunk.read] and for [StreamReaderProgress.read], and the
    read has no other effect on the world. *)
Theorem C6_callback_every_read :
  (forall (self self' : ReadFileChunk.t) (amount : option Z) (data : bytes)
          (w w' : world),
      ReadFileChunk._callback self = Some ProgressCallback ->
      ReadFileChunk.read self amount w = (Ok (data, self'), w') ->
      w' = mkWorld (calls w) (progress w ++ [len data]) (fs w) (written w))
  /\ (forall (self : StreamReaderProgress.t) (amt : Z) (w : world),
         StreamReaderProgress._callback self = Some ProgressCallback ->
         exists data self',
           StreamReaderProgress.read self amt w
           = (Ok (data, self'),
              mkWorld (calls w) (progress w ++ [len data]) (fs w)
                      (written w))).
Proof.
  split.
  - intros self self' amount data w w' Hcb Hread.
    unfold ReadFileChunk.read in Hread. unfold_m.
    destruct (PyFile.read _ _) as [[d f]|e]; [|discriminate].
    rewrite Hcb in Hread. now injection Hread as <- _ <-.
  - intros self amt w Hcb.
    unfold StreamReaderProgress.read. unfold_m. rewrite Hcb.
    eexists; eexists; reflexivity.
Qed.

Definition C6_witness_chunk : ReadFileChunk.t :=
  ReadFileChunk.mk (PyFile.open_rb five_bytes) 0 5 0 (Some ProgressCallback).

Lemma C6_callback_every_read_witness :
  progress (snd (ReadFileChunk.read C6_witness_chunk (Some 2) empty_world))
  = [2].
Proof.
  destruct C6_callback_every_read as [Hchunk _].
  rewrite (Hchunk C6_witness_chunk
             (ReadFileChunk.mk (PyFile.mk five_bytes 2) 0 5 2
                (Some ProgressCallback))
             (Some 2) ["a"; "b"]%byte empty_world
             (snd (ReadFileChunk.read C6_witness_chunk (Some 2) empty_world))
             eq_refl eq_refl).
  reflexivity.
Defined.

(** ** Reads of a bounded chunk (C7) *)

Definition ten_bytes : bytes :=
  ["a"; "b"; "c"; "d"; "e"; "f"; "g"; "h"; "i"; "j"]%byte.

(** Inside the window the chunk behaves as promised: a read returns at most
    [min(remaining, amount)] bytes, all of them from the window, and never
    raises; at the end of the window it returns no byte. *)
Lemma read_within_window (self : ReadFileChunk.t) (amount : option Z)
      (w : world) :
  0 <= ReadFileChunk._start_byte self ->
  0 <= ReadFileChunk._amount_read self <= ReadFileChunk._size self ->
  PyFile.pos (ReadFileChunk._fileobj self)
  = ReadFileChunk._start_byte self + ReadFileChunk._amount_read self ->
  match amount with Some a => 0 <= a | None => True end ->
  let remaining := ReadFileChunk._size self - ReadFileChunk._amount_read self in
  let n := match amount with Some a => Z.min remaining a | None => remaining end in
  exists self' w',
    ReadFileChunk.read self amount w
    = (Ok (firstn (Z.to_nat n)
             (skipn (Z.to_nat (ReadFileChunk._start_byte self
                               + ReadFileChunk._amount_read self))
                (PyFile.content (ReadFileChunk._fileobj self))),
           self'), w')
    /\ 0 <= ReadFileChunk._amount_read self' <= ReadFileChunk._size self'.
Proof.
  intros Hstart Hread Hpos Hamount remaining n.
  unfold ReadFileChunk.read, PyFile.read. unfold_m.
  fold remaining. fold n.
  assert (Hn : 0 <= n <= remaining) by (unfold n; destruct amount; lia).
  destruct (n <? -1) eqn:E1; [lia|].
  destruct (n =? -1) eqn:E2; [lia|].
  rewrite Hpos.
  destruct (ReadFileChunk._callback self); eexists; eexists;
    (split; [reflexivity|]); simpl;
    match goal with |- context [len (firstn ?k ?l)] =>
      pose proof (len_firstn_le k l); pose proof (len_nonneg (firstn k l))
    end; unfold remaining in *; lia.
Qed.

(** C7 at the failing input: a ten-byte file, the window of three bytes that
    starts at byte 2.  After [seek(4)] the window holds a negative number of
    bytes, [read()] asks the file for -1 bytes, and the file hands out
    everything up to its end: four bytes, all of them beyond the window.
    After [seek(5)], [read()] raises instead of returning no byte. *)
Theorem C7_read_after_seek_past_window :
  let window := ReadFileChunk.mk (PyFile.mk ten_bytes 2) 2 3 0 None in
  ReadFileChunk.from_filename ten_bytes 2 3 None = Ok window
  /\ (exists moved moved',
         ReadFileChunk.seek window 4 = Ok moved
         /\ ReadFileChunk.read moved None empty_world
            = (Ok (["g"; "h"; "i"; "j"]%byte, moved'), empty_world))
  /\ (exists moved,
         ReadFileChunk.seek window 5 = Ok moved
         /\ ReadFileChunk.read moved None empty_world
            = (Raise ValueError, empty_world)).
Proof.
  split; [reflexivity|split].
  - eexists; eexists; split; reflexivity.
  - eexists; split; reflexivity.
Qed.

(** ** Ranged downloads (C4) *)

(** [tiles a extents b]: the extents, taken in order, are non-empty, each
    starts where the one before ends, the first starts at [a] and the last
    ends at [b].  They cover [a, b) without gap or overlap. *)
Fixpoint tiles (a : Z) (extents : list (Z * Z)) (b : Z) : Prop :=
  match extents with
  | [] => a = b
  | (offset, n) :: rest => offset = a /\ 0 < n /\ tiles (a + n) rest b
  end.

Lemma tiles_app (a b c : Z) (l1 l2 : list (Z * Z)) :
  tiles a l1 b -> tiles b l2 c -> tiles a (l1 ++ l2) c.
Proof.
  revert a. induction l1 as [|[o n] l1 IH]; intros a H1 H2; simpl in *.
  - now subst.
  - destruct H1 as (-> & Hn & H1). auto.
Qed.

Lemma write_at_end (f : PyFile.t) (data : bytes) (index : Z) :
  0 <= index -> len (PyFile.content f) = index ->
  exists f1, PyFile.seek f index = Ok f1
             /\ PyFile.content (PyFile.write f1 data)
                = PyFile.content f ++ data.
Proof.
  intros Hi Hlen. unfold PyFile.seek.
  destruct (index <? 0) eqn:E; [lia|].
  eexists; split; [reflexivity|]. unfold PyFile.write; simpl.
  unfold len in Hlen.
  replace (Z.to_nat index) with (List.length (PyFile.content f)) by lia.
  rewrite firstn_all, Nat.sub_diag. simpl.
  rewrite skipn_all2 by lia. now rewrite app_nil_r.
Qed.

Lemma firstn_nil_inv (A : Type) (n : nat) (l : list A) :
  (0 < n)%nat -> firstn n l = [] -> l = [].
Proof. destruct n, l; simpl; intros; (lia || easy). Qed.

Lemma fs_set_same (m : filesystem) (name : string) (f : PyFile.t) :
  fs_set m name f name = Some f.
Proof. unfold fs_set. now rewrite String.eqb_refl. Qed.

(** The chunk loop of [_download_range], started at the end of the file:
    it returns, it appends the whole stream to the file, and its writes tile
    the extent of the stream. *)
Lemma write_chunks_run (callback : option Callback) (filename : string)
      (buffer_size : Z) (fuel : nat) :
  0 < buffer_size ->
  forall (body : bytes) (index : Z) (f : PyFile.t) (w : world),
    (List.length body <= fuel)%nat ->
    fs w filename = Some f ->
    0 <= index -> len (PyFile.content f) = index ->
    exists w' f' ext,
      MultipartDownloaded.write_chunks fuel buffer_size
        (StreamReaderProgress.mk body callback)
        (ThreadSafeWriter.mk filename) index w = (Ok tt, w')
      /\ calls w' = calls w
      /\ fs w' filename = Some f'
      /\ PyFile.content f' = PyFile.content f ++ body
      /\ written w' = written w ++ ext
      /\ tiles index ext (index + len body).
Proof.
  intros Hbs.
  induction fuel as [|fuel IH]; intros body index f w Hfuel Hf Hi Hlen.
  - destruct body; [|simpl in Hfuel; lia].
    exists (snd (invoke callback 0 w)), f, [].
    cbn [MultipartDownloaded.write_chunks].
    unfold StreamReaderProgress.read at 1. cbn [StreamReaderProgress._stream
      StreamReaderProgress._callback].
    rewrite firstn_nil. unfold_m.
    destruct callback; simpl; rewrite ?app_nil_r;
      repeat split; auto; unfold len; simpl; lia.
  - cbn [MultipartDownloaded.write_chunks].
    unfold StreamReaderProgress.read at 1. cbn [StreamReaderProgress._stream
      StreamReaderProgress._callback].
    destruct (firstn (Z.to_nat buffer_size) body) as [|b chunk] eqn:Hchunk.
    + apply firstn_nil_inv in Hchunk; [|lia]. subst body.
      exists (snd (invoke callback 0 w)), f, [].
      unfold_m. simpl.
      destruct callback; simpl; rewrite ?app_nil_r;
        repeat split; auto; unfold len; simpl; lia.
    + set (data := b :: chunk) in *.
      set (w0 := snd (invoke callback (len data) w)).
      assert (Hw0 : calls w0 = calls w /\ fs w0 = fs w
                    /\ written w0 = written w)
        by (unfold w0, invoke; destruct callback; simpl; auto).
      destruct Hw0 as (Hc0 & Hf0 & Hwr0).
      destruct (@write_at_end f data index Hi Hlen) as (f1 & Hseek & Hwrite).
      set (w1 := mkWorld (calls w0) (progress w0)
                         (fs_set (fs w0) filename (PyFile.write f1 data))
                         (written w0 ++ [(index, len data)])).
      assert (Hbody : body = data ++ skipn (Z.to_nat buffer_size) body)
        by (rewrite <- Hchunk; symmetry; apply firstn_skipn).
      assert (Hrest : (List.length (skipn (Z.to_nat buffer_size) body)
                       <= fuel)%nat).
      { assert (Hl : List.length body
                     = (List.length data
                        + List.length (skipn (Z.to_nat buffer_size) body))%nat)
          by (rewrite Hbody at 1; apply length_app).
        assert (List.length data = S (List.length chunk)) by reflexivity.
        lia. }
      destruct (IH (skipn (Z.to_nat buffer_size) body) (index + len data)
                  (PyFile.write f1 data) w1 Hrest)
        as (w' & f' & ext & Hrun & Hc & Hf' & Hcontent & Hwr & Htiles).
      * apply fs_set_same.
      * pose proof (len_nonneg data). lia.
      * rewrite Hwrite, len_app. lia.
      * exists w', f', ((index, len data) :: ext).
        split; [|split; [|split; [|split; [|split]]]].
        -- unfold bind at 1. unfold bind at 1.
           replace (invoke callback (len data) w)
             with (@Ok unit tt, w0)
             by (unfold w0, invoke; now destruct callback).
           cbn beta iota. unfold ret at 1. cbn beta iota.
           unfold bind at 1. unfold ThreadSafeWriter.pwrite at 1.
           cbn [ThreadSafeWriter._write_stream].
           unfold data at 1. cbn beta iota.
           rewrite Hf0, Hf, Hseek. rewrite <- Hf0. fold w1. exact Hrun.
        -- rewrite Hc. simpl. exact Hc0.
        -- exact Hf'.
        -- rewrite Hcontent, Hwrite, <- app_assoc. now rewrite <- Hbody.
        -- rewrite Hwr. simpl. rewrite Hwr0, <- app_assoc. reflexivity.
        -- simpl. split; [reflexivity|]. split.
           ++ unfold data, len. simpl. lia.
           ++ replace (index + len body)
                with (index + len data
                      + len (skipn (Z.to_nat buffer_size) body)).
              ** exact Htiles.
              ** rewrite Hbody at 2. rewrite len_app. lia.
Qed.

Lemma firstn_plus (A : Type) (a b : nat) (l : list A) :
  firstn (a + b) l = firstn a l ++ firstn b (skipn a l).
Proof.
  revert l. induction a as [|a IH]; intros l; [reflexivity|].
  destruct l as [|x l]; simpl; [now rewrite firstn_nil|].
  now rewrite IH.
Qed.

Lemma len_firstn (A : Type) (n : Z) (l : list A) :
  0 <= n <= len l -> len (firstn (Z.to_nat n) l) = n.
Proof. unfold len. intros H. rewrite length_firstn. lia. Qed.

Lemma len_skipn (A : Type) (n : Z) (l : list A) :
  0 <= n <= len l -> len (skipn (Z.to_nat n) l) = len l - n.
Proof. unfold len. intros H. rewrite length_skipn. lia. Qed.

(** The range that [_download_range] asks for. *)
Definition range_of (part_size num_parts i : Z) : Range :=
  mkRange (i * part_size)
          (if i =? num_parts - 1 then None
           else Some (i * part_size + part_size - 1)).

Section DownloadRun.

Variable started : schedule.
Variable self : MultipartDownloaded.t.
Variables bucket key filename : string.
Variable callback : option Callback.
Variable obj : bytes.

Let client := MultipartDownloaded._client self.
Let P := TransferConfig.multipart_chunksize
           (MultipartDownloaded._config self).
Let L := len obj.
Variable N : Z.

Hypothesis part_size_positive : 0 < P.
Hypothesis num_parts_ceil : P * (N - 1) < L <= P * N.
Hypothesis store_serves :
  forall r, get_object_response client bucket key (Some r)
            = Ok (serve obj (Some r)).

Lemma download_range_run (i : Z) (f : PyFile.t) (w : world) :
  0 <= i < N ->
  fs w filename = Some f ->
  PyFile.content f = firstn (Z.to_nat (i * P)) obj ->
  exists w' f' ext,
    MultipartDownloaded._download_range self bucket key filename P N
      callback filename i w = (Ok tt, w')
    /\ calls w' = calls w ++ [GetObject bucket key (Some (range_of P N i))]
    /\ fs w' filename = Some f'
    /\ PyFile.content f' = firstn (Z.to_nat ((i + 1) * P)) obj
    /\ written w' = written w ++ ext
    /\ tiles (i * P) ext (Z.min ((i + 1) * P) L).
Proof.
  intros Hi Hf Hcontent.
  assert (HL : 0 <= i * P < L) by (unfold L in *; nia).
  assert (Hindex : len (PyFile.content f) = i * P)
    by (rewrite Hcontent; apply len_firstn; fold L; lia).
  set (body := serve obj (Some (range_of P N i))).
  set (w0 := add_calls w [GetObject bucket key (Some (range_of P N i))]).
  destruct (@write_chunks_run callback filename (1024 * 16)
              (S (List.length body)) eq_refl body (i * P) f w0)
    as (w' & f' & ext & Hrun & Hc & Hf' & Hcont' & Hwr & Htiles);
    [lia|exact Hf|lia|exact Hindex|].
  assert (Hbody : PyFile.content f ++ body
                  = firstn (Z.to_nat ((i + 1) * P)) obj
                  /\ i * P + len body = Z.min ((i + 1) * P) L).
  { unfold body, range_of, serve.
    destruct (i =? N - 1) eqn:E.
    - apply Z.eqb_eq in E.
      rewrite Hcontent, firstn_skipn.
      rewrite len_skipn by (fold L; lia). fold L.
      split; [|nia].
      rewrite firstn_all2; [reflexivity|].
      unfold L, len in *. nia.
    - apply Z.eqb_neq in E.
      assert (HiP : (i + 1) * P <= L) by nia.
      replace (i * P + P - 1 + 1 - i * P) with P by lia.
      rewrite Hcontent, <- firstn_plus.
      rewrite len_firstn
        by (rewrite len_skipn by (fold L; lia); fold L; lia).
      split; [f_equal; lia|lia]. }
  destruct Hbody as [Hb1 Hb2].
  exists w', f', ext.
  split; [|split; [|split; [|split; [|split]]]];
    [|exact Hc|exact Hf'|now rewrite Hcont'|exact Hwr
     |now rewrite <- Hb2].
  unfold MultipartDownloaded._download_range, get_object.
  unfold bind at 1. unfold bind at 1. unfold emit at 1. unfold lift at 1.
  fold client. fold (range_of P N i). rewrite store_serves.
  fold body. unfold OSUtils.wrap_stream_with_callback,
    OSUtils.wrap_thread_safe_writer.
  exact Hrun.
Qed.

Definition range_call (i : Z) : call :=
  GetObject bucket key (Some (range_of P N i)).

Lemma download_ranges_run (k : nat) :
  forall (a : Z) (f : PyFile.t) (w : world),
    Z.of_nat k = N - a -> 0 <= a ->
    fs w filename = Some f ->
    PyFile.content f = firstn (Z.to_nat (a * P)) obj ->
    exists w' f' ext bs,
      executor_map started
        (MultipartDownloaded._download_range self bucket key filename P N
           callback filename) (py_range a N) w = (Ok bs, w')
      /\ calls w' = calls w ++ map range_call (py_range a N)
      /\ fs w' filename = Some f'
      /\ PyFile.content f' = obj
      /\ written w' = written w ++ ext
      /\ tiles (Z.min (a * P) L) ext L.
Proof.
  induction k as [|k IH]; intros a f w Hk Ha Hf Hcontent.
  - assert (a = N) by lia. subst a.
    rewrite py_range_empty by lia.
    exists w, f, [], []. simpl. rewrite !app_nil_r.
    split; [reflexivity|]. split; [reflexivity|]. split; [exact Hf|].
    split; [|split; [reflexivity|lia]].
    rewrite Hcontent. apply firstn_all2. unfold L, len in *. nia.
  - assert (HaN : a < N) by lia.
    rewrite py_range_cons by lia. cbn [executor_map map].
    destruct (@download_range_run a f w (conj Ha HaN) Hf Hcontent)
      as (w1 & f1 & ext1 & Hrun1 & Hc1 & Hf1 & Hcont1 & Hwr1 & Ht1).
    rewrite Hrun1.
    destruct (IH (a + 1) f1 w1) as
      (w' & f' & ext & bs & Hrun & Hc & Hf' & Hcont & Hwr & Ht);
      [lia|lia|exact Hf1|exact Hcont1|].
    rewrite Hrun.
    exists w', f', (ext1 ++ ext), (tt :: bs).
    split; [reflexivity|]. split.
    { rewrite Hc, Hc1, <- app_assoc. reflexivity. }
    split; [exact Hf'|]. split; [exact Hcont|]. split.
    { now rewrite Hwr, Hwr1, app_assoc. }
    eapply tiles_app; [|exact Ht].
    replace (Z.min (a * P) L) with (a * P) by (unfold L in *; nia).
    exact Ht1.
Qed.

End DownloadRun.

(** [download_file] once the number of ranges is known, for a pool that has
    a worker: the destination is opened, and the ranges are handed to the
    pool. *)
Lemma download_file_ranges
      (started : schedule) (self : MultipartDownloaded.t)
      (bucket key filename : string) (object_size : Z)
      (callback : option Callback) (N : Z) (w : world) :
  py_ceil_div object_size
    (TransferConfig.multipart_chunksize (MultipartDownloaded._config self))
  = Ok N ->
  1 <= MultipartDownloaded.max_workers self ->
  MultipartDownloaded.download_file started self bucket key filename
    object_size callback w
  = match executor_map started
            (MultipartDownloaded._download_range self bucket key filename
               (TransferConfig.multipart_chunksize
                  (MultipartDownloaded._config self))
               N callback filename) (py_range 0 N)
            (mkWorld (calls w) (progress w)
               (fs_set (fs w) filename PyFile.open_wb) (written w)) with
    | (Ok _, w') => (Ok tt, w')
    | (Raise e, w') => (Raise e, w')
    end.
Proof.
  intros HN Hworkers.
  unfold MultipartDownloaded.download_file.
  unfold bind at 1. unfold lift at 1. rewrite HN.
  unfold bind at 1. unfold OSUtils.open_wb at 1.
  unfold bind at 1. unfold ThreadPoolExecutor at 1.
  destruct (MultipartDownloaded.max_workers self <=? 0) eqn:E; [lia|].
  unfold ret at 1. unfold bind at 1.
  now destruct (executor_map _ _ _ _) as [[bs|e] w'].
Qed.




(** Parts of two bytes handled by one worker. *)
Definition one_worker_two_byte_parts : TransferConfig.t :=
  TransferConfig.__init__ (Some 4) None (Some 2).



(** ** Writes of concurrent workers (C2) *)

Definition two_bytes : bytes := ["a"; "b"]%byte.

(** Two workers, both have taken their task; each takes the lock of its own
    writer; worker 1 seeks to 1, worker 0 seeks to 0, worker 1 writes, worker
    0 writes; both give their lock back. *)
Definition seek_write_race : list nat :=
  [0; 1; 0; 1; 1; 0; 1; 0; 0; 1]%nat.

(** C2.  The lock does not make the seek and write of one range atomic with
    respect to the other ranges: each [_download_range] call builds its own
    [ThreadSafeWriter], hence its own lock, so no worker ever waits.  For a
    two-byte object downloaded in two ranges of one byte by two workers, the
    schedule [seek_write_race] runs both tasks to their end and leaves the
    two bytes swapped in the file, while the same tasks run one after the
    other give the object.  With one lock for the whole transfer, as the
    specification describes the writer, the same schedule makes worker 1
    wait and the file is the object. *)
Theorem C2_seek_write_pairs_interleave :
  let tasks := Interleaving.download_tasks Interleaving.own_lock 1 2
                 two_bytes in
  let p := Interleaving.run seek_write_race
             (Interleaving.start 2 tasks PyFile.open_wb) in
  let q := Interleaving.run (seek_write_race ++ [1; 1; 1; 1]%nat)
             (Interleaving.start 2
                (Interleaving.download_tasks Interleaving.one_lock 1 2
                   two_bytes)
                PyFile.open_wb) in
  Interleaving.finished p = true
  /\ PyFile.content (Interleaving.stream (Interleaving.shared p))
     = ["b"; "a"]%byte
  /\ PyFile.content
       (Interleaving.stream (Interleaving.run_in_order tasks PyFile.open_wb))
     = two_bytes
  /\ Interleaving.finished q = true
  /\ PyFile.content (Interleaving.stream (Interleaving.shared q))
     = two_bytes.
Proof.
  repeat split; vm_compute; reflexivity.
Qed.

(** * Further properties of the code *)

(** ** ReadFileChunk: the window as a file *)

(** A chunk opened on a file with a start inside the file and a
    non-negative chunk size: [len(chunk)] is the number of bytes left in the
    file from the start, capped by the chunk size; [read()] returns exactly
    that many bytes, the ones that follow the start in the file; and the
    next read, whatever the amount, returns no byte, as at the end of a
    file. *)
Theorem chunk_read_whole_window
        (data : bytes) (start_byte chunk_size : Z)
        (callback : option Callback) (amount : option Z) (w : world) :
  0 <= start_byte <= len data -> 0 <= chunk_size ->
  match amount with Some a => 0 <= a | None => True end ->
  exists chunk chunk' chunk'' w' w'',
    ReadFileChunk.from_filename data start_byte chunk_size callback = Ok chunk
    /\ ReadFileChunk.__len__ chunk = Z.min (len data - start_byte) chunk_size
    /\ ReadFileChunk.read chunk None w
       = (Ok (firstn (Z.to_nat chunk_size)
                (skipn (Z.to_nat start_byte) data), chunk'), w')
    /\ len (firstn (Z.to_nat chunk_size) (skipn (Z.to_nat start_byte) data))
       = ReadFileChunk.__len__ chunk
    /\ ReadFileChunk.tell chunk' = ReadFileChunk.__len__ chunk
    /\ ReadFileChunk.read chunk' amount w' = (Ok ([], chunk''), w'').
Proof.
  intros Hstart Hsize Hamount.
  unfold ReadFileChunk.from_filename, ReadFileChunk.__init__, PyFile.seek.
  destruct (start_byte <? 0) eqn:E; [lia|].
  unfold ReadFileChunk._calculate_file_size, PyFile.open_rb.
  cbn [PyFile.content].
  set (size := Z.min (len data - start_byte) chunk_size).
  set (rest := skipn (Z.to_nat start_byte) data).
  assert (Hrest : len rest = len data - start_byte)
    by (apply len_skipn; lia).
  assert (Hdata : firstn (Z.to_nat size) rest
                  = firstn (Z.to_nat chunk_size) rest).
  { unfold size. destruct (Z.min_spec (len data - start_byte) chunk_size)
      as [[Hlt ->]|[_ ->]]; [|reflexivity].
    rewrite <- Hrest in *. unfold len in *. rewrite Nat2Z.id.
    rewrite firstn_all. symmetry. apply firstn_all2. lia. }
  assert (Hlen : len (firstn (Z.to_nat chunk_size) rest) = size).
  { rewrite <- Hdata. apply len_firstn. unfold size. lia. }
  destruct callback as [cb|];
    (eexists; eexists; eexists; eexists; eexists;
     split; [reflexivity|]; split; [reflexivity|];
     split; [|split; [exact Hlen|]];
     [ unfold ReadFileChunk.read, PyFile.read; unfold_m; simpl;
       rewrite Z.sub_0_r; fold size;
       destruct (size <? -1) eqn:E1; [unfold size in *; lia|];
       destruct (size =? -1) eqn:E2; [unfold size in *; lia|];
       fold rest; rewrite Hdata; reflexivity
     | split;
       [ unfold ReadFileChunk.tell, ReadFileChunk.__len__; simpl; lia
       | unfold ReadFileChunk.read, PyFile.read; unfold_m; simpl;
         rewrite Hlen, Z.sub_diag;
         destruct amount as [a|];
         [rewrite Z.min_l by lia|]; simpl; reflexivity ] ]).
Qed.

Lemma chunk_read_whole_window_witness :
  exists chunk chunk',
    ReadFileChunk.from_filename ten_bytes 2 3 None = Ok chunk
    /\ ReadFileChunk.__len__ chunk = 3
    /\ fst (ReadFileChunk.read chunk None empty_world)
       = Ok (["c"; "d"; "e"]%byte, chunk').
Proof.
  destruct (@chunk_read_whole_window ten_bytes 2 3 None None empty_world)
    as (chunk & chunk' & chunk'' & w' & w'' & H1 & H2 & H3 & _);
    [vm_compute; split; discriminate | lia | exact I |].
  exists chunk, chunk'. split; [exact H1|]. split; [exact H2|].
  rewrite H3. reflexivity.
Defined.

(** [seek] puts the chunk back in step with the file, whatever was read or
    sought before: after [seek(where)] inside the window, [tell()] is
    [where], and [read()] returns the bytes of the window from [where] on,
    no more.  In particular [seek(0)] rewinds: the next [read()] returns the
    whole window again. *)
Theorem chunk_seek_then_read
        (self : ReadFileChunk.t) (where_ : Z) (w : world) :
  let start_byte := ReadFileChunk._start_byte self in
  let size := ReadFileChunk._size self in
  let data := PyFile.content (ReadFileChunk._fileobj self) in
  0 <= start_byte -> 0 <= where_ <= size ->
  exists moved moved' w',
    ReadFileChunk.seek self where_ = Ok moved
    /\ ReadFileChunk.tell moved = where_
    /\ ReadFileChunk.read moved None w
       = (Ok (firstn (Z.to_nat (size - where_))
                (skipn (Z.to_nat (start_byte + where_)) data), moved'), w')
    /\ where_ <= ReadFileChunk.tell moved' <= size.
Proof.
  intros start_byte size data Hstart Hwhere.
  unfold ReadFileChunk.seek, PyFile.seek. fold start_byte.
  destruct (start_byte + where_ <? 0) eqn:E; [lia|].
  set (moved := ReadFileChunk.mk _ _ _ _ _).
  destruct (@read_within_window moved None w) as (moved' & w' & Hread & Hin);
    [exact Hstart | simpl; fold size; lia | reflexivity | exact I |].
  exists moved, moved', w'.
  split; [reflexivity|]. split; [reflexivity|].
  split; [exact Hread|].
  unfold ReadFileChunk.tell.
  pose proof Hread as Hshape.
  unfold ReadFileChunk.read, PyFile.read in Hshape. unfold_m.
  destruct (_ <? -1); [discriminate|].
  assert (Hsize : ReadFileChunk._size moved' = size
                  /\ where_ <= ReadFileChunk._amount_read moved').
  { destruct (ReadFileChunk._callback moved);
      injection Hshape as _ <- _; simpl; (split; [reflexivity|]);
      match goal with |- context [len ?l] => pose proof (len_nonneg l) end;
      lia. }
  destruct Hsize as [Hsize Hle]. rewrite <- Hsize. lia.
Qed.

Lemma chunk_seek_then_read_witness :
  exists chunk moved moved',
    ReadFileChunk.from_filename ten_bytes 2 3 None = Ok chunk
    /\ ReadFileChunk.seek chunk 1 = Ok moved
    /\ fst (ReadFileChunk.read moved None empty_world)
       = Ok (["d"; "e"]%byte, moved').
Proof.
  destruct (@chunk_seek_then_read
              (ReadFileChunk.mk (PyFile.mk ten_bytes 2) 2 3 0 None) 1
              empty_world)
    as (moved & moved' & w' & Hseek & _ & Hread & _);
    [simpl; lia | simpl; lia |].
  eexists; exists moved, moved'.
  split; [reflexivity|]. split; [exact Hseek|].
  rewrite Hread. reflexivity.
Defined.

(** ** ThreadSafeWriter: positioned writes *)

(** The byte at index [k] of a file; a byte that was never written reads as
    zero. *)
Definition byte_at (f : PyFile.t) (k : nat) : byte :=
  nth k (PyFile.content f) x00.

Lemma write_length (f : PyFile.t) (data : bytes) :
  0 <= PyFile.pos f ->
  len (PyFile.content (PyFile.write f data))
  = Z.max (len (PyFile.content f)) (PyFile.pos f + len data).
Proof.
  intros Hpos. unfold PyFile.write, len. cbn [PyFile.content].
  rewrite !length_app, length_firstn, repeat_length, length_skipn.
  lia.
Qed.

Lemma write_nth (f : PyFile.t) (data : bytes) (k : nat) :
  0 <= PyFile.pos f ->
  nth k (PyFile.content (PyFile.write f data)) x00
  = if (PyFile.pos f <=? Z.of_nat k)
       && (Z.of_nat k <? PyFile.pos f + len data)
    then nth (k - Z.to_nat (PyFile.pos f)) data x00
    else nth k (PyFile.content f) x00.
Proof.
  intros Hpos. unfold PyFile.write, len. cbn [PyFile.content].
  set (p := Z.to_nat (PyFile.pos f)).
  set (c := PyFile.content f).
  assert (Hp : PyFile.pos f = Z.of_nat p) by (unfold p; lia).
  rewrite Hp. clearbody p c. clear Hp Hpos.
  assert (Hhead : List.length (firstn p c ++ repeat x00 (p - List.length c))
                  = p)
    by (rewrite length_app, length_firstn, repeat_length; lia).
  rewrite app_assoc.
  destruct (Z.of_nat p <=? Z.of_nat k) eqn:E1; cbn [andb].
  - apply Z.leb_le in E1.
    rewrite app_nth2 by lia. rewrite Hhead.
    destruct (Z.of_nat k <? Z.of_nat p + Z.of_nat (List.length data)) eqn:E2.
    + apply Z.ltb_lt in E2. apply app_nth1. lia.
    + apply Z.ltb_ge in E2. rewrite app_nth2 by lia.
      rewrite nth_skipn. f_equal. lia.
  - apply Z.leb_gt in E1. rewrite app_nth1 by lia.
    destruct (Nat.lt_ge_cases k (List.length c)) as [Hk|Hk].
    + rewrite app_nth1 by (rewrite length_firstn; lia).
      rewrite nth_firstn.
      destruct (k <? p)%nat eqn:E3; [reflexivity|].
      apply Nat.ltb_ge in E3. lia.
    + rewrite app_nth2 by (rewrite length_firstn; lia).
      rewrite nth_repeat. symmetry. apply nth_overflow. exact Hk.
Qed.

(** [pwrite(data, offset)] with a non-empty [data] and a non-negative
    [offset] returns; afterwards the file holds [data] at
    [offset, offset + len(data)), every other byte it held is unchanged, a
    gap between its old end and [offset] reads as zeros, and its length is the
    larger of its old length and [offset + len(data)].  No other file is
    touched and no request is issued.  (The module never writes an empty
    chunk; an empty write past the end would not extend a Python file.) *)
Theorem pwrite_positioned_write
        (self : ThreadSafeWriter.t) (data : bytes) (offset : Z)
        (f : PyFile.t) (w : world) :
  let name := ThreadSafeWriter._write_stream self in
  fs w name = Some f -> 0 <= offset -> data <> [] ->
  exists f' w',
    ThreadSafeWriter.pwrite self data offset w = (Ok tt, w')
    /\ fs w' name = Some f'
    /\ len (PyFile.content f')
       = Z.max (len (PyFile.content f)) (offset + len data)
    /\ (forall k : nat,
           byte_at f' k
           = if (offset <=? Z.of_nat k) && (Z.of_nat k <? offset + len data)
             then nth (k - Z.to_nat offset) data x00
             else byte_at f k)
    /\ (forall other, other <> name -> fs w' other = fs w other)
    /\ calls w' = calls w /\ progress w' = progress w.
Proof.
  intros name Hf Hoffset _.
  unfold ThreadSafeWriter.pwrite. fold name. rewrite Hf.
  unfold PyFile.seek. destruct (offset <? 0) eqn:E; [lia|].
  eexists; eexists. split; [reflexivity|]. cbn [fs calls progress].
  split; [apply fs_set_same|].
  split; [now rewrite write_length|].
  split; [intros k; unfold byte_at; now rewrite write_nth|].
  split; [|split; reflexivity].
  intros other Hother. unfold fs_set.
  destruct (String.eqb other name) eqn:En; [|reflexivity].
  apply String.eqb_eq in En. contradiction.
Qed.

Lemma pwrite_positioned_write_witness :
  exists f',
    fs (snd (ThreadSafeWriter.pwrite (ThreadSafeWriter.mk "f")
               ["x"; "y"]%byte 7 (world_with "f" five_bytes)))
       "f"%string
    = Some f'
    /\ len (PyFile.content f') = 9
    /\ byte_at f' 5 = x00 /\ byte_at f' 7 = "x"%byte.
Proof.
  destruct (@pwrite_positioned_write (ThreadSafeWriter.mk "f")
              ["x"; "y"]%byte 7 (PyFile.open_rb five_bytes)
              (world_with "f" five_bytes))
    as (f' & w' & Hrun & Hf' & Hlen & Hbytes & _);
    [reflexivity | lia | discriminate |].
  exists f'. rewrite Hrun. split; [exact Hf'|].
  split; [exact Hlen|].
  split; [exact (Hbytes 5%nat) | exact (Hbytes 7%nat)].
Defined.

Lemma pwrite_run (self : ThreadSafeWriter.t) (data : bytes) (offset : Z)
      (f : PyFile.t) (w : world) :
  fs w (ThreadSafeWriter._write_stream self) = Some f -> 0 <= offset ->
  ThreadSafeWriter.pwrite self data offset w
  = (Ok tt,
     mkWorld (calls w) (progress w)
       (fs_set (fs w) (ThreadSafeWriter._write_stream self)
          (PyFile.write (PyFile.mk (PyFile.content f) offset) data))
       (written w ++ [(offset, len data)])).
Proof.
  intros Hf Hoffset. unfold ThreadSafeWriter.pwrite. rewrite Hf.
  unfold PyFile.seek. now destruct (offset <? 0) eqn:E; [lia|].
Qed.

(** The content of a file after a positioned write at [offset]. *)
Definition write_at (content : bytes) (offset : Z) (data : bytes) : bytes :=
  PyFile.content (PyFile.write (PyFile.mk content offset) data).

Lemma write_at_disjoint_commute (c d1 d2 : bytes) (o1 o2 : Z) :
  0 <= o1 -> 0 <= o2 ->
  o1 + len d1 <= o2 \/ o2 + len d2 <= o1 ->
  write_at (write_at c o1 d1) o2 d2 = write_at (write_at c o2 d2) o1 d1.
Proof.
  intros H1 H2 Hdisj. unfold write_at.
  apply nth_ext with (d := x00) (d' := x00).
  - apply Nat2Z.inj.
    change (len (PyFile.content
                   (PyFile.write
                      (PyFile.mk
                         (PyFile.content
                            (PyFile.write (PyFile.mk c o1) d1)) o2) d2))
            = len (PyFile.content
                     (PyFile.write
                        (PyFile.mk
                           (PyFile.content
                              (PyFile.write (PyFile.mk c o2) d2)) o1) d1))).
    rewrite !write_length by (cbn [PyFile.pos]; lia).
    cbn [PyFile.pos PyFile.content].
    rewrite !write_length by (cbn [PyFile.pos]; lia).
    cbn [PyFile.pos PyFile.content]. lia.
  - intros k _.
    rewrite !write_nth by (cbn [PyFile.pos]; lia).
    cbn [PyFile.pos PyFile.content].
    rewrite !write_nth by (cbn [PyFile.pos]; lia).
    cbn [PyFile.pos PyFile.content].
    pose proof (len_nonneg d1). pose proof (len_nonneg d2).
    destruct (o1 <=? Z.of_nat k) eqn:A1, (Z.of_nat k <? o1 + len d1) eqn:B1,
             (o2 <=? Z.of_nat k) eqn:A2, (Z.of_nat k <? o2 + len d2) eqn:B2;
      cbn [andb]; try reflexivity;
      apply Z.leb_le in A1; apply Z.ltb_lt in B1;
      apply Z.leb_le in A2; apply Z.ltb_lt in B2; lia.
Qed.

(** Two positioned writes of non-empty data on extents that do not overlap
    leave the same bytes in the file in either order.  This is what lets the
    ranges of a download be written in any order, provided the seek and the
    write of each [pwrite] stay together. *)
Theorem pwrite_disjoint_commute
        (self : ThreadSafeWriter.t) (d1 d2 : bytes) (o1 o2 : Z)
        (f : PyFile.t) (w : world) :
  let name := ThreadSafeWriter._write_stream self in
  fs w name = Some f -> 0 <= o1 -> 0 <= o2 -> d1 <> [] -> d2 <> [] ->
  o1 + len d1 <= o2 \/ o2 + len d2 <= o1 ->
  exists f12 f21 w12 w21,
    (ThreadSafeWriter.pwrite self d1 o1 ;;;
     ThreadSafeWriter.pwrite self d2 o2) w = (Ok tt, w12)
    /\ (ThreadSafeWriter.pwrite self d2 o2 ;;;
        ThreadSafeWriter.pwrite self d1 o1) w = (Ok tt, w21)
    /\ fs w12 name = Some f12 /\ fs w21 name = Some f21
    /\ PyFile.content f12 = PyFile.content f21.
Proof.
  intros name Hf H1 H2 _ _ Hdisj.
  unfold bind.
  rewrite (@pwrite_run self d1 o1 f w Hf H1).
  rewrite (@pwrite_run self d2 o2 f w Hf H2).
  fold name.
  erewrite !pwrite_run by (cbn [fs]; (apply fs_set_same || assumption)).
  eexists; eexists; eexists; eexists.
  split; [reflexivity|]. split; [reflexivity|].
  cbn [fs]. split; [apply fs_set_same|]. split; [apply fs_set_same|].
  apply (@write_at_disjoint_commute (PyFile.content f) d1 d2 o1 o2 H1 H2 Hdisj).
Qed.

Lemma pwrite_disjoint_commute_witness :
  exists f12 f21,
    fs (snd ((ThreadSafeWriter.pwrite (ThreadSafeWriter.mk "f")
                ["x"]%byte 1 ;;;
              ThreadSafeWriter.pwrite (ThreadSafeWriter.mk "f")
                ["y"]%byte 7) (world_with "f" five_bytes))) "f"%string
    = Some f12
    /\ fs (snd ((ThreadSafeWriter.pwrite (ThreadSafeWriter.mk "f")
                   ["y"]%byte 7 ;;;
                 ThreadSafeWriter.pwrite (ThreadSafeWriter.mk "f")
                   ["x"]%byte 1) (world_with "f" five_bytes))) "f"%string
       = Some f21
    /\ PyFile.content f12 = PyFile.content f21.
Proof.
  destruct (@pwrite_disjoint_commute (ThreadSafeWriter.mk "f")
              ["x"]%byte ["y"]%byte 1 7 (PyFile.open_rb five_bytes)
              (world_with "f" five_bytes))
    as (f12 & f21 & w12 & w21 & H12 & H21 & Hf12 & Hf21 & Heq);
    [reflexivity | lia | lia | discriminate | discriminate
    | left; vm_compute; discriminate |].
  exists f12, f21. rewrite H12, H21. auto.
Defined.

(** ** Direct downloads *)

Lemma write_append (f : PyFile.t) (data : bytes) :
  PyFile.pos f = len (PyFile.content f) ->
  PyFile.content (PyFile.write f data) = PyFile.content f ++ data
  /\ PyFile.pos (PyFile.write f data)
     = len (PyFile.content (PyFile.write f data)).
Proof.
  intros Hpos. unfold PyFile.write. cbn [PyFile.content PyFile.pos].
  rewrite Hpos. unfold len. rewrite Nat2Z.id.
  rewrite firstn_all, Nat.sub_diag, skipn_all2 by lia.
  cbn [repeat app]. rewrite app_nil_r.
  split; [reflexivity|]. rewrite length_app. lia.
Qed.

(** What the callback is called with during a chunk loop over a stream of
    [n] bytes: the sizes of the chunks, each positive and at most
    [buffer_size], that add up to [n], and then 0 for the read that finds the
    stream empty. *)
Definition reports (buffer_size n : Z) (ps : list Z) : Prop :=
  exists sizes, ps = sizes ++ [0]
                /\ sum_Z sizes = n
                /\ Forall (fun p => 0 < p <= buffer_size) sizes.

Lemma reports_nil (buffer_size : Z) : reports buffer_size 0 [0].
Proof. exists []. repeat split. constructor. Qed.

Lemma reports_cons (buffer_size n p : Z) (ps : list Z) :
  0 < p <= buffer_size -> reports buffer_size n ps ->
  reports buffer_size (p + n) (p :: ps).
Proof.
  intros Hp (sizes & -> & Hsum & Hall).
  exists (p :: sizes). split; [reflexivity|].
  split; [simpl; lia|]. now constructor.
Qed.

(** The chunk loop of [_get_object], on a handle whose cursor is at the end
    of the file: it returns and appends the whole stream to the file. *)
Lemma copy_chunks_run (callback : option Callback) (filename : string)
      (fuel : nat) :
  forall (body : bytes) (f : PyFile.t) (w : world),
    (List.length body <= fuel)%nat ->
    fs w filename = Some f ->
    PyFile.pos f = len (PyFile.content f) ->
    exists w' f' ps,
      S3Transfer.copy_chunks fuel (StreamReaderProgress.mk body callback)
        filename w = (Ok tt, w')
      /\ calls w' = calls w /\ written w' = written w
      /\ fs w' filename = Some f'
      /\ PyFile.content f' = PyFile.content f ++ body
      /\ (forall other, other <> filename -> fs w' other = fs w other)
      /\ progress w'
         = progress w ++ (match callback with Some _ => ps | None => [] end)
      /\ reports 8192 (len body) ps.
Proof.
  induction fuel as [|fuel IH]; intros body f w Hfuel Hf Hpos.
  - destruct body; [|simpl in Hfuel; lia].
    exists (snd (invoke callback 0 w)), f, [0].
    cbn [S3Transfer.copy_chunks].
    unfold StreamReaderProgress.read at 1.
    cbn [StreamReaderProgress._stream StreamReaderProgress._callback].
    rewrite firstn_nil. unfold_m.
    destruct callback; simpl; rewrite ?app_nil_r;
      repeat split; auto; apply reports_nil.
  - cbn [S3Transfer.copy_chunks].
    unfold StreamReaderProgress.read at 1.
    cbn [StreamReaderProgress._stream StreamReaderProgress._callback].
    destruct (firstn (Z.to_nat 8192) body) as [|b chunk] eqn:Hchunk.
    + apply firstn_nil_inv in Hchunk; [|lia]. subst body.
      exists (snd (invoke callback 0 w)), f, [0].
      unfold_m. simpl.
      destruct callback; simpl; rewrite ?app_nil_r;
        repeat split; auto; apply reports_nil.
    + set (data := b :: chunk) in *.
      set (rest := skipn (Z.to_nat 8192) body).
      set (w0 := snd (invoke callback (len data) w)).
      assert (Hw0 : calls w0 = calls w /\ fs w0 = fs w
                    /\ written w0 = written w
                    /\ progress w0
                       = progress w ++ (match callback with
                                        | Some _ => [len data]
                                        | None => []
                                        end))
        by (unfold w0, invoke; destruct callback; simpl;
            rewrite ?app_nil_r; auto).
      destruct Hw0 as (Hc0 & Hf0 & Hwr0 & Hp0).
      destruct (@write_append f data Hpos) as [Hwrite Hpos'].
      set (w1 := mkWorld (calls w0) (progress w0)
                         (fs_set (fs w0) filename (PyFile.write f data))
                         (written w0)).
      assert (Hbody : body = data ++ rest)
        by (unfold rest; rewrite <- Hchunk; symmetry; apply firstn_skipn).
      assert (Hdata : 0 < len data <= 8192).
      { split.
        - unfold data, len. simpl List.length. lia.
        - rewrite <- Hchunk.
          pose proof (len_firstn_le (Z.to_nat 8192) body) as Hle. lia. }
      assert (Hrest : (List.length rest <= fuel)%nat).
      { assert (Hl : List.length body
                     = (List.length data + List.length rest)%nat)
          by (rewrite Hbody at 1; apply length_app).
        assert (List.length data = S (List.length chunk)) by reflexivity.
        lia. }
      destruct (IH rest (PyFile.write f data) w1 Hrest)
        as (w' & f' & ps & Hrun & Hc & Hwr & Hf' & Hcontent & Hother & Hp
            & Hreports).
      * apply fs_set_same.
      * exact Hpos'.
      * exists w', f', (len data :: ps).
        split; [|split; [|split; [|split; [|split; [|split; [|split]]]]]].
        -- unfold bind at 1. unfold bind at 1.
           replace (invoke callback (len data) w)
             with (@Ok unit tt, w0)
             by (unfold w0, invoke; now destruct callback).
           cbn beta iota. unfold ret at 1. cbn beta iota.
           unfold bind at 1. unfold OSUtils.write at 1.
           unfold data at 1. cbn beta iota.
           rewrite Hf0, Hf. rewrite <- Hf0. fold w1. exact Hrun.
        -- rewrite Hc. simpl. exact Hc0.
        -- rewrite Hwr. simpl. exact Hwr0.
        -- exact Hf'.
        -- rewrite Hcontent, Hwrite, <- app_assoc. now rewrite <- Hbody.
        -- intros other Hother'. rewrite (Hother other Hother').
           unfold w1. cbn [fs]. unfold fs_set.
           destruct (String.eqb other filename) eqn:En.
           ++ apply String.eqb_eq in En. contradiction.
           ++ now rewrite Hf0.
        -- rewrite Hp. unfold w1. cbn [progress]. rewrite Hp0.
           destruct callback; [|now rewrite !app_nil_r].
           now rewrite <- app_assoc.
        -- rewrite Hbody, len_app. now apply reports_cons.
Qed.

(** [_get_object] against a store that answers the request with [body]. *)
Lemma get_object_run (self : S3Transfer.t) (bucket key filename : string)
      (callback : option Callback) (body : bytes) (w : world) :
  get_object_response (S3Transfer._client self) bucket key None = Ok body ->
  exists w' f' ps,
    S3Transfer._get_object self bucket key filename callback w = (Ok tt, w')
    /\ calls w' = calls w ++ [GetObject bucket key None]
    /\ written w' = written w
    /\ fs w' filename = Some f'
    /\ PyFile.content f' = body
    /\ (forall other, other <> filename -> fs w' other = fs w other)
    /\ progress w'
       = progress w ++ (match callback with Some _ => ps | None => [] end)
    /\ reports 8192 (len body) ps.
Proof.
  intros Hget.
  set (w0 := add_calls w [GetObject bucket key None]).
  set (w1 := mkWorld (calls w0) (progress w0)
                     (fs_set (fs w0) filename PyFile.open_wb) (written w0)).
  destruct (@copy_chunks_run callback filename (S (List.length body)) body
              PyFile.open_wb w1)
    as (w' & f' & ps & Hrun & Hc & Hwr & Hf' & Hcontent & Hother & Hp
        & Hreports);
    [lia | apply fs_set_same | reflexivity |].
  exists w', f', ps.
  split; [|split; [|split; [|split; [|split; [|split; [|split]]]]]];
    [|exact Hc|exact Hwr|exact Hf'|exact Hcontent| |exact Hp|exact Hreports].
  - unfold S3Transfer._get_object, get_object.
    unfold bind at 1. unfold bind at 1. unfold emit at 1. unfold lift at 1.
    rewrite Hget. cbv beta iota.
    unfold bind at 1. unfold OSUtils.open_wb at 1. cbv beta iota.
    unfold OSUtils.wrap_stream_with_callback. exact Hrun.
  - intros other Hother'. rewrite (Hother other Hother').
    unfold w1, w0. cbn [fs add_calls]. unfold fs_set.
    destruct (String.eqb other filename) eqn:En; [|reflexivity].
    apply String.eqb_eq in En. contradiction.
Qed.

(** The branch of [S3Transfer.download_file] on the size that [head_object]
    reports. *)
Lemma download_file_branch
      (started : schedule) (self : S3Transfer.t)
      (bucket key filename : string) (callback : option Callback)
      (size : Z) (w : world) :
  head_object_response (S3Transfer._client self) bucket key = Ok size ->
  S3Transfer.download_file started self bucket key filename callback w
  = if size >=? TransferConfig.multipart_threshold (S3Transfer._config self)
    then S3Transfer._ranged_download started self bucket key filename size
           callback (add_calls w [HeadObject bucket key])
    else S3Transfer._get_object self bucket key filename callback
           (add_calls w [HeadObject bucket key]).
Proof.
  intros Hhead.
  unfold S3Transfer.download_file, S3Transfer._object_size, head_object.
  unfold bind at 1. unfold bind at 1. unfold emit, lift.
  rewrite Hhead. now destruct (_ >=? _).
Qed.

(** A download of an object below the threshold: the requests are one
    [head_object] and one plain [get_object]; the call returns; the
    destination holds exactly the body the store sent, whatever it held
    before; no other file is touched; and a callback is called with the sizes
    of the chunks, each between 1 and 8192 and adding up to the length of
    the body, and once more with 0. *)
Theorem direct_download_run
        (started : schedule) (self : S3Transfer.t)
        (bucket key filename : string) (callback : option Callback)
        (size : Z) (body : bytes) (w : world) :
  head_object_response (S3Transfer._client self) bucket key = Ok size ->
  size < TransferConfig.multipart_threshold (S3Transfer._config self) ->
  get_object_response (S3Transfer._client self) bucket key None = Ok body ->
  exists w' f' ps,
    S3Transfer.download_file started self bucket key filename callback w
    = (Ok tt, w')
    /\ calls w' = calls w ++ [HeadObject bucket key; GetObject bucket key None]
    /\ fs w' filename = Some f'
    /\ PyFile.content f' = body
    /\ (forall other, other <> filename -> fs w' other = fs w other)
    /\ progress w'
       = progress w ++ (match callback with Some _ => ps | None => [] end)
    /\ reports 8192 (len body) ps.
Proof.
  intros Hhead Hsize Hget.
  rewrite (@download_file_branch started self bucket key filename callback
             size w Hhead).
  destruct (size >=? _) eqn:E; [lia|].
  destruct (@get_object_run self bucket key filename callback body
              (add_calls w [HeadObject bucket key]) Hget)
    as (w' & f' & ps & Hrun & Hc & _ & Hf' & Hcontent & Hother & Hp
        & Hreports).
  exists w', f', ps.
  split; [exact Hrun|]. split.
  { rewrite Hc. simpl. now rewrite <- app_assoc. }
  split; [exact Hf'|]. split; [exact Hcontent|].
  split; [exact Hother|]. split; [exact Hp|exact Hreports].
Qed.

Lemma direct_download_run_witness :
  exists w' f',
    S3Transfer.download_file (fun _ => true)
      (S3Transfer.__init__ (store five_bytes) None) "bucket" "key" "f"
      (Some ProgressCallback) empty_world = (Ok tt, w')
    /\ fs w' "f"%string = Some f'
    /\ PyFile.content f' = five_bytes
    /\ progress w' = [5; 0].
Proof.
  destruct (@direct_download_run (fun _ => true)
              (S3Transfer.__init__ (store five_bytes) None)
              "bucket" "key" "f" (Some ProgressCallback) 5 five_bytes
              empty_world)
    as (w' & f' & ps & Hrun & _ & Hf' & Hcontent & _ & Hp & _);
    [reflexivity | reflexivity | reflexivity |].
  exists w', f'. split; [exact Hrun|]. split; [exact Hf'|].
  split; [exact Hcontent|].
  assert (Hw : w' = snd (S3Transfer.download_file (fun _ => true)
                           (S3Transfer.__init__ (store five_bytes) None)
                           "bucket" "key" "f" (Some ProgressCallback)
                           empty_world))
    by now rewrite Hrun.
  rewrite Hw. reflexivity.
Defined.

(** ** Progress of a ranged download *)

(** From [w] to [w'] the callback was told of exactly as many bytes as were
    written with [pwrite]. *)
Definition reported_as_written (w w' : world) : Prop :=
  exists ps ext,
    progress w' = progress w ++ ps
    /\ written w' = written w ++ ext
    /\ sum_Z ps = sum_Z (map snd ext).

Lemma reported_refl (w : world) : reported_as_written w w.
Proof. exists [], []. now rewrite !app_nil_r. Qed.

Lemma reported_trans (w1 w2 w3 : world) :
  reported_as_written w1 w2 -> reported_as_written w2 w3 ->
  reported_as_written w1 w3.
Proof.
  intros (ps1 & e1 & Hp1 & He1 & Hs1) (ps2 & e2 & Hp2 & He2 & Hs2).
  exists (ps1 ++ ps2), (e1 ++ e2).
  rewrite Hp2, Hp1, He2, He1, <- !app_assoc.
  split; [reflexivity|]. split; [reflexivity|].
  rewrite map_app, !sum_Z_app. lia.
Qed.

Lemma reported_write_chunks (cb : Callback) (filename : string)
      (buffer_size : Z) (fuel : nat) :
  forall (body : bytes) (index : Z) (w w' : world),
    (List.length body <= fuel)%nat ->
    MultipartDownloaded.write_chunks fuel buffer_size
      (StreamReaderProgress.mk body (Some cb))
      (ThreadSafeWriter.mk filename) index w = (Ok tt, w') ->
    reported_as_written w w'.
Proof.
  induction fuel as [|fuel IH]; intros body index w w' Hfuel Hrun.
  - destruct body; [|simpl in Hfuel; lia].
    cbn [MultipartDownloaded.write_chunks] in Hrun.
    unfold StreamReaderProgress.read in Hrun.
    cbn [StreamReaderProgress._stream StreamReaderProgress._callback] in Hrun.
    rewrite firstn_nil in Hrun. unfold_m. inversion Hrun as [Hw]. clear Hrun.
    exists [0], []. cbn [progress written]. now rewrite app_nil_r.
  - cbn [MultipartDownloaded.write_chunks] in Hrun.
    unfold StreamReaderProgress.read at 1 in Hrun.
    cbn [StreamReaderProgress._stream StreamReaderProgress._callback] in Hrun.
    destruct (firstn (Z.to_nat buffer_size) body) as [|b chunk] eqn:Hchunk.
    + unfold_m. inversion Hrun as [Hw]. clear Hrun.
      exists [0], []. cbn [progress written]. now rewrite app_nil_r.
    + set (data := b :: chunk) in *.
      set (rest := skipn (Z.to_nat buffer_size) body) in *.
      assert (Hrest : (List.length rest <= fuel)%nat).
      { pose proof (firstn_skipn (Z.to_nat buffer_size) body) as Hsplit.
        fold rest in Hsplit. rewrite Hchunk in Hsplit.
        rewrite <- Hsplit in Hfuel. rewrite length_app in Hfuel.
        unfold data in Hfuel. simpl in Hfuel. lia. }
      unfold bind, invoke, ret in Hrun. unfold data in Hrun.
      cbv beta iota in Hrun. fold data in Hrun.
      unfold ThreadSafeWriter.pwrite in Hrun.
      cbn [ThreadSafeWriter._write_stream fs] in Hrun.
      destruct (fs w filename) as [f|]; [|discriminate].
      destruct (PyFile.seek f index) as [f1|e]; [|discriminate].
      apply IH in Hrun; [|exact Hrest].
      eapply reported_trans; [|exact Hrun].
      exists [len data], [(index, len data)].
      cbn [progress written]. repeat split. 
Qed.

Lemma reported_executor_map (started : schedule) (B : Type)
      (fn : Z -> M B) (items : list Z) :
  (forall x b w w', In x items -> fn x w = (Ok b, w') ->
                    reported_as_written w w') ->
  forall (bs : list B) (w w' : world),
    executor_map started fn items w = (Ok bs, w') ->
    reported_as_written w w'.
Proof.
  induction items as [|x rest IH]; intros Hfn bs w w' Hrun.
  - simpl in Hrun. injection Hrun as _ <-. apply reported_refl.
  - simpl in Hrun.
    destruct (fn x w) as [[b|e] w1] eqn:Hx; [|discriminate].
    destruct (executor_map started fn rest w1) as [[bs'|e] w2] eqn:Hrest;
      [|discriminate].
    injection Hrun as _ <-.
    eapply reported_trans.
    + eapply Hfn; [now left|exact Hx].
    + eapply IH; [|exact Hrest].
      intros y b' wa wb Hy. apply Hfn. now right.
Qed.

Lemma tiles_sum (extents : list (Z * Z)) :
  forall a b, tiles a extents b -> sum_Z (map snd extents) = b - a.
Proof.
  induction extents as [|[o n] rest IH]; intros a b Ht; simpl in *.
  - lia.
  - destruct Ht as (_ & _ & Ht). rewrite (IH _ _ Ht). lia.
Qed.

(** A ranged download with a callback, by a pool that has a worker, of an
    object and with a part size below 2^53: it returns, and the numbers the
    callback is called with add up to the length of the object.  Every byte
    is reported once, whatever the part size. *)
Theorem ranged_download_reports_every_byte
        (started : schedule) (self : MultipartDownloaded.t)
        (bucket key filename : string) (cb : Callback)
        (obj : bytes) (w : world) :
  let P := TransferConfig.multipart_chunksize
             (MultipartDownloaded._config self) in
  0 < P < 2 ^ 53 -> len obj < 2 ^ 53 ->
  1 <= MultipartDownloaded.max_workers self ->
  (forall r, get_object_response (MultipartDownloaded._client self) bucket
               key (Some r) = Ok (serve obj (Some r))) ->
  exists w' ps,
    MultipartDownloaded.download_file started self bucket key filename
      (len obj) (Some cb) w = (Ok tt, w')
    /\ progress w' = progress w ++ ps
    /\ sum_Z ps = len obj.
Proof.
  intros P HP HLmax Hworkers Hstore.
  set (L := len obj) in *. set (N := - ((- L) / P)).
  pose proof (@ceil_div_bounds L P (proj1 HP)) as Hceil. fold N in Hceil.
  pose proof (len_nonneg obj) as HL. fold L in HL.
  assert (HN : 0 <= N) by nia.
  assert (HNe : py_ceil_div L P = Ok N) by (apply py_ceil_div_exact; lia).
  set (w0 := mkWorld (calls w) (progress w)
                     (fs_set (fs w) filename PyFile.open_wb) (written w)).
  destruct (@download_ranges_run started self bucket key filename (Some cb)
              obj N (proj1 HP) Hceil Hstore (Z.to_nat N) 0 PyFile.open_wb w0)
    as (w' & f' & ext & bs & Hrun & _ & _ & _ & Hwr & Ht);
    [lia|lia|apply fs_set_same|reflexivity|].
  rewrite Z.mul_0_l, Z.min_l in Ht by exact HL.
  apply tiles_sum in Ht.
  change (TransferConfig.multipart_chunksize
            (MultipartDownloaded._config self)) with P in Hrun.
  assert (Hrep : reported_as_written w0 w').
  { eapply reported_executor_map; [|exact Hrun].
    intros i b wa wb _ Hi.
    unfold MultipartDownloaded._download_range, get_object in Hi.
    unfold bind at 1 in Hi. unfold bind at 1 in Hi.
    unfold emit at 1 in Hi. unfold lift at 1 in Hi.
    destruct (get_object_response _ _ _ _) as [body|e]; [|discriminate].
    cbv beta iota in Hi.
    unfold OSUtils.wrap_stream_with_callback,
      OSUtils.wrap_thread_safe_writer in Hi.
    destruct b.
    apply reported_write_chunks in Hi; [|lia].
    destruct Hi as (ps & e & Hp & He & Hs).
    exists ps, e. cbn [progress written] in Hp, He. auto. }
  destruct Hrep as (ps & ext' & Hp & Hwr' & Hs).
  exists w', ps. split; [|split; [exact Hp|]].
  - rewrite (@download_file_ranges started self bucket key filename L
               (Some cb) N w HNe Hworkers).
    fold w0.
    change (TransferConfig.multipart_chunksize
              (MultipartDownloaded._config self)) with P.
    now rewrite Hrun.
  - rewrite Hs. rewrite Hwr in Hwr'. apply app_inv_head in Hwr'.
    subst ext'. rewrite Ht. lia.
Qed.

Lemma ranged_download_reports_every_byte_witness :
  exists w',
    MultipartDownloaded.download_file (fun _ => true)
      (MultipartDownloaded.mk (store five_bytes) two_byte_parts)
      "bucket" "key" "out" 5 (Some ProgressCallback) empty_world
    = (Ok tt, w')
    /\ sum_Z (progress w') = 5.
Proof.
  destruct (@ranged_download_reports_every_byte (fun _ => true)
              (MultipartDownloaded.mk (store five_bytes) two_byte_parts)
              "bucket" "key" "out" ProgressCallback five_bytes empty_world)
    as (w' & ps & Hrun & Hp & Hsum);
    [split; reflexivity | reflexivity | discriminate
    | intros r; reflexivity |].
  exists w'. split; [exact Hrun|].
  rewrite Hp. exact Hsum.
Defined.

(** ** Downloads end to end *)

(** With one worker (the default), against a store that holds an object of
    less than 2^53 bytes and serves it whole or by ranges,
    [S3Transfer.download_file] returns and leaves the destination equal to
    the object, whatever the threshold and whatever the part size between 1
    and 2^53: the direct path and the ranged path produce the same file. *)
Theorem download_file_yields_object
        (started : schedule) (self : S3Transfer.t)
        (bucket key filename : string) (callback : option Callback)
        (obj : bytes) (w : world) :
  let client := S3Transfer._client self in
  TransferConfig.max_concurrency (S3Transfer._config self) = 1 ->
  0 < TransferConfig.multipart_chunksize (S3Transfer._config self) < 2 ^ 53 ->
  len obj < 2 ^ 53 ->
  head_object_response client bucket key = Ok (len obj) ->
  (forall r, get_object_response client bucket key r = Ok (serve obj r)) ->
  exists w' f',
    S3Transfer.download_file started self bucket key filename callback w
    = (Ok tt, w')
    /\ fs w' filename = Some f'
    /\ PyFile.content f' = obj.
Proof.
  intros client Hone HP HLmax Hhead Hstore.
  rewrite (@download_file_branch started self bucket key filename callback
             (len obj) w Hhead).
  set (w1 := add_calls w [HeadObject bucket key]).
  destruct (len obj >=? _).
  - set (downloader := MultipartDownloaded.mk (S3Transfer._client self)
                         (S3Transfer._config self)).
    set (P := TransferConfig.multipart_chunksize (S3Transfer._config self))
      in *.
    set (L := len obj) in *. set (N := - ((- L) / P)).
    pose proof (@ceil_div_bounds L P (proj1 HP)) as Hceil. fold N in Hceil.
    pose proof (len_nonneg obj) as HL. fold L in HL.
    assert (HN : 0 <= N) by nia.
    assert (HNe : py_ceil_div L P = Ok N) by (apply py_ceil_div_exact; lia).
    set (w0 := mkWorld (calls w1) (progress w1)
                       (fs_set (fs w1) filename PyFile.open_wb)
                       (written w1)).
    destruct (@download_ranges_run started downloader bucket key filename
                callback obj N (proj1 HP) Hceil (fun r => Hstore (Some r))
                (Z.to_nat N) 0 PyFile.open_wb w0)
      as (w' & f' & ext & bs & Hrun & _ & Hf' & Hcont & _);
      [lia|lia|apply fs_set_same|reflexivity|].
    exists w', f'. split; [|split; [exact Hf'|exact Hcont]].
    unfold S3Transfer._ranged_download. fold downloader.
    rewrite (@download_file_ranges started downloader bucket key filename L
               callback N w1 HNe)
      by (unfold MultipartDownloaded.max_workers, downloader;
          cbn [MultipartDownloaded._config]; lia).
    fold w0.
    change (TransferConfig.multipart_chunksize
              (MultipartDownloaded._config downloader)) with P in Hrun |- *.
    now rewrite Hrun.
  - destruct (@get_object_run self bucket key filename callback obj w1
                (Hstore None))
      as (w' & f' & ps & Hrun & _ & _ & Hf' & Hcont & _).
    exists w', f'. auto.
Qed.

Lemma download_file_yields_object_witness :
  exists w' f',
    S3Transfer.download_file (fun _ => true)
      (S3Transfer.mk (store five_bytes) one_worker_two_byte_parts)
      "bucket" "key" "out" None empty_world = (Ok tt, w')
    /\ fs w' "out"%string = Some f'
    /\ PyFile.content f' = five_bytes.
Proof.
  apply (@download_file_yields_object (fun _ => true)
           (S3Transfer.mk (store five_bytes) one_worker_two_byte_parts)
           "bucket" "key" "out" None five_bytes empty_world);
    [ reflexivity | split; reflexivity | reflexivity | reflexivity
    | intros r; reflexivity ].
Defined.

(** ** Failures *)

(** An upload of a file that does not exist.  Through [S3Transfer] it raises
    [OSError] before any request is issued and leaves the world as it was.
    Through [MultipartUploader.upload_file] called directly the session is
    opened first: the only request is [create_multipart_upload], and when
    the store accepts it the call then raises [OSError]; the session is left
    open. *)
Theorem upload_of_missing_file
        (started : schedule) (self : S3Transfer.t)
        (filename bucket key : string) (callback : option Callback)
        (extra_args : option kwargs) (w : world) :
  fs w filename = None ->
  S3Transfer.upload_file started self filename bucket key callback
    extra_args w = (Raise OSError, w)
  /\ forall (args : kwargs) (upload_id : string),
       create_multipart_upload_response (S3Transfer._client self) bucket key
         args = Ok upload_id ->
       S3Transfer._multipart_upload started self filename bucket key
         callback args w
       = (Raise OSError, add_calls w [CreateMultipartUpload bucket key args]).
Proof.
  intros Hf. split.
  - unfold S3Transfer.upload_file. unfold bind at 1.
    unfold OSUtils.get_file_size. now rewrite Hf.
  - intros args upload_id Hcreate. unfold S3Transfer._multipart_upload.
    rewrite upload_file_missing by exact Hf.
    cbn [MultipartUploader._client]. now rewrite Hcreate.
Qed.

Lemma upload_of_missing_file_witness :
  S3Transfer.upload_file (fun _ => true)
    (S3Transfer.__init__ (store []) None) "absent" "bucket" "key" None None
    empty_world
  = (Raise OSError, empty_world).
Proof.
  apply (@upload_of_missing_file (fun _ => true)
           (S3Transfer.__init__ (store []) None) "absent" "bucket" "key"
           None None empty_world).
  reflexivity.
Defined.

(** A download that fails before the destination is opened.  When
    [head_object] fails, the call raises the same exception after that one
    request; when the object is below the threshold and [get_object] fails,
    it raises the same exception after these two requests.  In both cases no
    local file is created, truncated or written. *)
Theorem download_failure_leaves_files
        (started : schedule) (self : S3Transfer.t)
        (bucket key filename : string) (callback : option Callback)
        (e : exn) (w : world) :
  let client := S3Transfer._client self in
  let run := S3Transfer.download_file started self bucket key filename
               callback w in
  (head_object_response client bucket key = Raise e ->
   run = (Raise e, add_calls w [HeadObject bucket key]))
  /\ (forall size,
         head_object_response client bucket key = Ok size ->
         size < TransferConfig.multipart_threshold (S3Transfer._config self) ->
         get_object_response client bucket key None = Raise e ->
         run = (Raise e, add_calls w [HeadObject bucket key;
                                      GetObject bucket key None])).
Proof.
  intros client run. split.
  - intros Hhead. unfold run, S3Transfer.download_file,
      S3Transfer._object_size, head_object.
    unfold bind at 1. unfold bind at 1. unfold emit, lift.
    fold client. now rewrite Hhead.
  - intros size Hhead Hsize Hget. unfold run.
    rewrite (@download_file_branch started self bucket key filename callback
               size w Hhead).
    destruct (size >=? _) eqn:E; [lia|].
    unfold S3Transfer._get_object, get_object.
    unfold bind at 1. unfold bind at 1. unfold emit, lift.
    fold client. rewrite Hget. cbv beta iota.
    unfold add_calls. cbn [calls progress fs written].
    now rewrite <- app_assoc.
Qed.

(** A store whose every answer is the failure [e]. *)
Definition unreachable_store (e : exn) : Client :=
  mkClient (fun _ _ _ => Raise e) (fun _ _ _ _ _ => Raise e)
           (fun _ _ _ _ => Raise e) (fun _ _ _ _ => Raise e)
           (fun _ _ => Raise e) (fun _ _ _ => Raise e).

Lemma download_failure_leaves_files_witness :
  S3Transfer.download_file (fun _ => true)
    (S3Transfer.__init__ (unreachable_store (ClientError "HeadObject")) None)
    "bucket" "key" "out" None (world_with "out" five_bytes)
  = (Raise (ClientError "HeadObject"),
     add_calls (world_with "out" five_bytes) [HeadObject "bucket" "key"]).
Proof.
  apply (@download_failure_leaves_files (fun _ => true)
           (S3Transfer.__init__
              (unreachable_store (ClientError "HeadObject")) None)
           "bucket" "key" "out" None (ClientError "HeadObject")
           (world_with "out" five_bytes)).
  reflexivity.
Defined.

Lemma concat_map_singleton (A B : Type) (g : A -> B) (l : list A) :
  List.concat (map (fun x => [g x]) l) = map g l.
Proof. induction l as [|x l IH]; simpl; [reflexivity|now rewrite IH]. Qed.

(** A ranged download, by a pool that has a worker, whose requests are all
    refused; the object size and the part size are positive and below 2^53.
    The destination is opened for writing before the first request, so the
    call raises the failure and leaves the destination empty, whatever it
    held before; nothing is written and nothing is reported.  Range 0 has
    been requested, and of the later ranges those a worker had already
    started; with one worker, in this order. *)
Theorem ranged_download_failure_truncates
        (started : schedule) (self : MultipartDownloaded.t)
        (bucket key filename : string) (callback : option Callback)
        (object_size : Z) (e : exn) (w : world) :
  let P := TransferConfig.multipart_chunksize
             (MultipartDownloaded._config self) in
  let N := - ((- object_size) / P) in
  let requests :=
    map (fun i => GetObject bucket key (Some (range_of P N i)))
        (0 :: filter started (py_range 1 N)) in
  0 < P < 2 ^ 53 -> 0 < object_size < 2 ^ 53 ->
  1 <= MultipartDownloaded.max_workers self ->
  (forall r, get_object_response (MultipartDownloaded._client self) bucket
               key (Some r) = Raise e) ->
  exists new,
    MultipartDownloaded.download_file started self bucket key filename
      object_size callback w
    = (Raise e,
       mkWorld (calls w ++ new) (progress w)
               (fs_set (fs w) filename PyFile.open_wb) (written w))
    /\ Permutation new requests
    /\ (MultipartDownloaded.max_workers self = 1 -> new = requests).
Proof.
  intros P N requests HP HS Hworkers Hstore.
  pose proof (@ceil_div_bounds object_size P (proj1 HP)) as Hceil.
  fold N in Hceil.
  assert (HN : 1 <= N) by nia.
  assert (HNe : py_ceil_div object_size P = Ok N)
    by (apply py_ceil_div_exact; lia).
  exists requests. split; [|split; [reflexivity|intros _; reflexivity]].
  rewrite (@download_file_ranges started self bucket key filename
             object_size callback N w HNe Hworkers).
  change (TransferConfig.multipart_chunksize
            (MultipartDownloaded._config self)) with P.
  set (w0 := mkWorld (calls w) (progress w)
                     (fs_set (fs w) filename PyFile.open_wb) (written w)).
  rewrite (@executor_map_run started unit
             (MultipartDownloaded._download_range self bucket key filename
                P N callback filename)
             (fun _ => Raise e)
             (fun i => [GetObject bucket key (Some (range_of P N i))])
             (fun _ => True) (fs w0)).
  - rewrite (@py_range_cons 0 N) by lia. cbn [outcome issued].
    unfold add_calls, w0, requests. cbn [calls progress fs written].
    change (0 + 1) with 1.
    now rewrite concat_map_singleton.
  - intros i w1 _ _.
    unfold MultipartDownloaded._download_range, get_object.
    unfold bind at 1. unfold bind at 1. unfold emit at 1. unfold lift at 1.
    fold (range_of P N i). now rewrite Hstore.
  - apply Forall_forall. intros; exact I.
  - reflexivity.
Qed.

Lemma ranged_download_failure_truncates_witness :
  exists w',
    MultipartDownloaded.download_file (fun _ => false)
      (MultipartDownloaded.mk (unreachable_store (ClientError "GetObject"))
         two_byte_parts)
      "bucket" "key" "out" 5 None (world_with "out" five_bytes)
    = (Raise (ClientError "GetObject"), w')
    /\ fs w' "out"%string = Some PyFile.open_wb.
Proof.
  destruct (@ranged_download_failure_truncates (fun _ => false)
              (MultipartDownloaded.mk
                 (unreachable_store (ClientError "GetObject")) two_byte_parts)
              "bucket" "key" "out" None 5 (ClientError "GetObject")
              (world_with "out" five_bytes))
    as (new & Hrun & _);
    [ split; reflexivity | split; reflexivity | discriminate
    | intros r; reflexivity |].
  eexists. split; [exact Hrun|reflexivity].
Defined.

(** ** A multipart upload that succeeds *)

Lemma outcome_all_ok (B : Type) (r : Z -> result B) (g : Z -> B)
      (items : list Z) :
  (forall x, In x items -> r x = Ok (g x)) ->
  outcome r items = Ok (map g items).
Proof.
  induction items as [|x rest IH]; intros Hr; simpl; [reflexivity|].
  rewrite (Hr x) by now left.
  rewrite IH by (intros y Hy; apply Hr; now right).
  reflexivity.
Qed.

Lemma insert_part_head (p : Part) (l : list Part) :
  Forall (part_le p) l -> insert_part p l = p :: l.
Proof.
  destruct l as [|q l]; [reflexivity|].
  intros H. apply Forall_inv in H. unfold part_le in H. simpl.
  destruct (PartNumber p <=? PartNumber q) eqn:E; [reflexivity|].
  apply Z.leb_gt in E. lia.
Qed.

(** Sorting a list that is already in order leaves it as it is. *)
Lemma sort_parts_sorted_id (l : list Part) :
  StronglySorted part_le l -> sort_parts l = l.
Proof.
  induction 1 as [|p l Hl IH Hp]; simpl; [reflexivity|].
  rewrite IH. now apply insert_part_head.
Qed.

Lemma parts_in_order (etag : Z -> string) (k : nat) :
  forall a b, Z.of_nat k = b - a ->
  StronglySorted part_le (map (fun n => mkPart (etag n) n) (py_range a b)).
Proof.
  induction k as [|k IH]; intros a b Hk.
  - rewrite py_range_empty by lia. constructor.
  - rewrite py_range_cons by lia. simpl. constructor.
    + apply IH. lia.
    + apply Forall_forall. intros p Hp. apply in_map_iff in Hp.
      destruct Hp as (n & <- & Hn). apply py_range_In in Hn.
      unfold part_le. simpl. lia.
Qed.

(** The whole trace of a multipart upload that the store accepts, for a file
    shorter than 2^53 bytes, a positive part size below 2^53 and a pool that
    has a worker: one [create_multipart_upload]; then one [upload_part] per
    part number from 1 to [N = ceil(S/P)], each with the window of the file
    that belongs to the part, and with one worker in the order of the part
    numbers; then one [complete_multipart_upload] that lists part 1 to part
    [N] in order, each with the ETag the store answered for that part.  The
    call returns what the store answers to the completion.  An empty file
    gives no part and an empty list. *)
Theorem multipart_upload_trace
        (started : schedule) (self : MultipartUploader.t)
        (filename bucket key : string) (callback : option Callback)
        (extra_args : kwargs) (f : PyFile.t) (w : world)
        (upload_id : string) (etag : Z -> string) :
  let client := MultipartUploader._client self in
  let S := len (PyFile.content f) in
  let P := TransferConfig.multipart_chunksize
             (MultipartUploader._config self) in
  let N := - ((- S) / P) in
  let body := part_body S P callback in
  let parts := map (fun n => mkPart (etag n) n) (py_range 1 (N + 1)) in
  let requests := map (fun n => UploadPart bucket key upload_id n (body n))
                      (py_range 1 (N + 1)) in
  fs w filename = Some f -> S < 2 ^ 53 -> 0 < P < 2 ^ 53 ->
  1 <= MultipartUploader.max_workers self ->
  create_multipart_upload_response client bucket key extra_args
  = Ok upload_id ->
  (forall n, 1 <= n <= N ->
             upload_part_response client bucket key upload_id n (body n)
             = Ok (etag n)) ->
  exists uploads,
    MultipartUploader.upload_file started self filename bucket key callback
      extra_args w
    = (complete_multipart_upload_response client bucket key upload_id parts,
       add_calls w
         (CreateMultipartUpload bucket key extra_args
          :: uploads
          ++ [CompleteMultipartUpload bucket key upload_id parts]))
    /\ Permutation uploads requests
    /\ (MultipartUploader.max_workers self = 1 -> uploads = requests).
Proof.
  intros client S P N body parts requests Hf HS HP Hworkers Hcreate Hparts.
  pose proof (@ceil_div_bounds S P (proj1 HP)) as Hceil. fold N in Hceil.
  pose proof (len_nonneg (PyFile.content f)) as HS0. fold S in HS0.
  assert (HN : 0 <= N) by nia.
  assert (HNe : py_ceil_div S P = Ok N)
    by (apply py_ceil_div_exact; lia).
  exists requests. split; [|split; [reflexivity|intros _; reflexivity]].
  rewrite (@upload_file_run started self filename bucket key callback
             (fs w) f Hf extra_args w eq_refl).
  unfold upload_file_result. fold client S P.
  rewrite Hcreate, HNe.
  destruct (MultipartUploader.max_workers self <=? 0) eqn:E; [lia|].
  cbv zeta.
  rewrite (@outcome_all_ok Part _ (fun n => mkPart (etag n) n)).
  - fold parts.
    rewrite (@sort_parts_sorted_id parts)
      by (apply (@parts_in_order etag (Z.to_nat N)); lia).
    unfold part_call. fold S P body.
    now rewrite concat_map_singleton.
  - intros n Hn. apply py_range_In in Hn.
    unfold part_result. fold client S P body.
    rewrite Hparts by lia. reflexivity.
Qed.

Lemma multipart_upload_trace_witness :
  MultipartUploader.upload_file (fun _ => true)
    (MultipartUploader.mk (store []) one_worker_two_byte_parts)
    "f" "bucket" "key" None [] (world_with "f" five_bytes)
  = (Ok tt,
     add_calls (world_with "f" five_bytes)
       [CreateMultipartUpload "bucket" "key" [];
        UploadPart "bucket" "key" "upload-id" 1 (mkBody 0 2 None);
        UploadPart "bucket" "key" "upload-id" 2 (mkBody 2 2 None);
        UploadPart "bucket" "key" "upload-id" 3 (mkBody 4 1 None);
        CompleteMultipartUpload "bucket" "key" "upload-id"
          [mkPart "etag" 1; mkPart "etag" 2; mkPart "etag" 3]]).
Proof.
  destruct (@multipart_upload_trace (fun _ => true)
              (MultipartUploader.mk (store []) one_worker_two_byte_parts)
              "f" "bucket" "key" None [] (PyFile.open_rb five_bytes)
              (world_with "f" five_bytes) "upload-id"
              (fun _ => "etag"%string))
    as (uploads & Hrun & _ & Hone);
    [ reflexivity | reflexivity | split; reflexivity | discriminate
    | reflexivity | intros n Hn; reflexivity |].
  rewrite Hrun, (Hone eq_refl). reflexivity.
Defined.

(** ** ReadFileChunk: reading in pieces *)

(** The chunk is in step with its file, inside its window, and the window
    lies inside the file. *)
Definition in_step (self : ReadFileChunk.t) : Prop :=
  0 <= ReadFileChunk._start_byte self
  /\ 0 <= ReadFileChunk._amount_read self <= ReadFileChunk._size self
  /\ PyFile.pos (ReadFileChunk._fileobj self)
     = ReadFileChunk._start_byte self + ReadFileChunk._amount_read self
  /\ ReadFileChunk._start_byte self + ReadFileChunk._size self
     <= len (PyFile.content (ReadFileChunk._fileobj self)).

(** The chunk after [n] more bytes were read. *)
Definition advance (self : ReadFileChunk.t) (n : Z) : ReadFileChunk.t :=
  ReadFileChunk.mk
    (PyFile.mk (PyFile.content (ReadFileChunk._fileobj self))
       (PyFile.pos (ReadFileChunk._fileobj self) + n))
    (ReadFileChunk._start_byte self) (ReadFileChunk._size self)
    (ReadFileChunk._amount_read self + n) (ReadFileChunk._callback self).

(** A read of [amount] bytes by a chunk in step: it returns
    [min(remaining, amount)] bytes, exactly. *)
Lemma read_in_step (self : ReadFileChunk.t) (amount : Z) (w : world) :
  in_step self -> 0 <= amount ->
  let n := Z.min (ReadFileChunk._size self - ReadFileChunk._amount_read self)
             amount in
  let data := firstn (Z.to_nat n)
                (skipn (Z.to_nat (PyFile.pos (ReadFileChunk._fileobj self)))
                   (PyFile.content (ReadFileChunk._fileobj self))) in
  ReadFileChunk.read self (Some amount) w
  = (Ok (data, advance self n),
     snd (invoke (ReadFileChunk._callback self) n w))
  /\ len data = n
  /\ in_step (advance self n).
Proof.
  intros (Hstart & Hread & Hpos & Hfile) Hamount n data.
  assert (Hn : 0 <= n) by (unfold n; lia).
  assert (Hlen : len data = n).
  { unfold data. apply len_firstn. rewrite len_skipn by lia.
    unfold n. lia. }
  split; [|split; [exact Hlen|]].
  - unfold ReadFileChunk.read, PyFile.read. fold n.
    destruct (n <? -1) eqn:E1; [lia|].
    destruct (n =? -1) eqn:E2; [lia|].
    unfold_m. fold data. rewrite Hlen. unfold advance.
    now destruct (ReadFileChunk._callback self).
  - unfold in_step, advance. cbn [ReadFileChunk._start_byte
      ReadFileChunk._amount_read ReadFileChunk._size ReadFileChunk._fileobj
      PyFile.pos PyFile.content].
    unfold n in *. lia.
Qed.

(** Reading [a] bytes and then [b] bytes gives, put end to end, the bytes
    that one read of [a + b] bytes gives, and leaves the chunk in the same
    state; the chunk stays in step.  A chunk opened by [from_filename] with
    a start inside the file and a non-negative chunk size is in step. *)
Theorem chunk_reads_compose
        (self : ReadFileChunk.t) (a b : Z) (w : world) :
  in_step self -> 0 <= a -> 0 <= b ->
  exists d1 d2 s1 s2 w1 w2 w12,
    ReadFileChunk.read self (Some a) w = (Ok (d1, s1), w1)
    /\ ReadFileChunk.read s1 (Some b) w1 = (Ok (d2, s2), w2)
    /\ ReadFileChunk.read self (Some (a + b)) w = (Ok (d1 ++ d2, s2), w12)
    /\ in_step s2
    /\ ReadFileChunk.tell s2 = ReadFileChunk.tell self + len d1 + len d2.
Proof.
  intros Hself Ha Hb.
  destruct (@read_in_step self a w Hself Ha) as (Hr1 & Hl1 & Hs1).
  set (n1 := Z.min (ReadFileChunk._size self
                    - ReadFileChunk._amount_read self) a) in *.
  destruct (@read_in_step (advance self n1) b
              (snd (invoke (ReadFileChunk._callback self) n1 w)) Hs1 Hb)
    as (Hr2 & Hl2 & Hs2).
  set (n2 := Z.min (ReadFileChunk._size (advance self n1)
                    - ReadFileChunk._amount_read (advance self n1)) b) in *.
  destruct (@read_in_step self (a + b) w Hself) as (Hr12 & Hl12 & Hs12);
    [lia|].
  set (n := Z.min (ReadFileChunk._size self
                   - ReadFileChunk._amount_read self) (a + b)) in *.
  destruct Hself as (Hstart & Hread & Hpos & Hfile).
  assert (Hn1 : 0 <= n1) by (unfold n1; lia).
  assert (Hn2 : 0 <= n2)
    by (unfold n2, advance; cbn [ReadFileChunk._size
          ReadFileChunk._amount_read]; unfold n1; lia).
  assert (Hn : n = n1 + n2)
    by (unfold n, n2, advance; cbn [ReadFileChunk._size
          ReadFileChunk._amount_read]; unfold n1; lia).
  assert (Hadv : advance (advance self n1) n2 = advance self n).
  { unfold advance. cbn [ReadFileChunk._start_byte
      ReadFileChunk._amount_read ReadFileChunk._size ReadFileChunk._fileobj
      ReadFileChunk._callback PyFile.pos PyFile.content].
    rewrite Hn. f_equal; [f_equal|]; lia. }
  eexists; eexists; eexists; eexists; eexists; eexists; eexists.
  split; [exact Hr1|]. split; [exact Hr2|].
  split; [|split; [exact Hs2|]].
  - rewrite Hr12, <- Hadv. do 3 f_equal.
    unfold advance at 1.
    cbn [ReadFileChunk._fileobj PyFile.pos PyFile.content].
    rewrite Hn, Z2Nat.inj_add by lia.
    rewrite firstn_plus, skipn_skipn. do 3 f_equal. lia.
  - rewrite Hl1, Hl2. unfold ReadFileChunk.tell.
    rewrite Hadv, Hn. unfold advance.
    cbn [ReadFileChunk._amount_read]. lia.
Qed.

Lemma from_filename_in_step (data : bytes) (start_byte chunk_size : Z)
      (callback : option Callback) :
  0 <= start_byte <= len data -> 0 <= chunk_size ->
  exists chunk,
    ReadFileChunk.from_filename data start_byte chunk_size callback
    = Ok chunk /\ in_step chunk.
Proof.
  intros Hstart Hsize.
  unfold ReadFileChunk.from_filename, ReadFileChunk.__init__, PyFile.seek.
  destruct (start_byte <? 0) eqn:E; [lia|].
  eexists. split; [reflexivity|].
  unfold in_step, ReadFileChunk._calculate_file_size, PyFile.open_rb.
  cbn [ReadFileChunk._start_byte ReadFileChunk._amount_read
       ReadFileChunk._size ReadFileChunk._fileobj PyFile.pos PyFile.content].
  lia.
Qed.

Lemma chunk_reads_compose_witness :
  exists d1 d2 s1 s2 w1 w2,
    ReadFileChunk.read C6_witness_chunk (Some 2) empty_world
    = (Ok (d1, s1), w1)
    /\ ReadFileChunk.read s1 (Some 2) w1 = (Ok (d2, s2), w2)
    /\ fst (ReadFileChunk.read C6_witness_chunk (Some 4) empty_world)
       = Ok (d1 ++ d2, s2).
Proof.
  destruct (@chunk_reads_compose C6_witness_chunk 2 2 empty_world)
    as (d1 & d2 & s1 & s2 & w1 & w2 & w12 & H1 & H2 & H12 & _);
    [unfold in_step; vm_compute; intuition discriminate | lia | lia |].
  exists d1, d2, s1, s2, w1, w2.
  split; [exact H1|]. split; [exact H2|].
  change 4 with (2 + 2). now rewrite H12.
Defined.

(** ** A multipart upload that fails at a part *)

Lemma py_range_split (k : nat) :
  forall a m b, Z.of_nat k = m - a -> m < b ->
  py_range a b = py_range a m ++ m :: py_range (m + 1) b.
Proof.
  induction k as [|k IH]; intros a m b Hk Hm.
  - assert (a = m) by lia. subst a.
    rewrite (@py_range_empty m m) by lia. now rewrite py_range_cons by lia.
  - rewrite (@py_range_cons a b) by lia.
    rewrite (@py_range_cons a m) by lia.
    rewrite (IH (a + 1) m b) by lia. reflexivity.
Qed.

Lemma outcome_first_failure (started : schedule) (B : Type)
      (r : Z -> result B) (x : Z) (e : exn) (after : list Z) :
  r x = Raise e ->
  forall before,
    (forall y, In y before -> exists b, r y = Ok b) ->
    outcome r (before ++ x :: after) = Raise e
    /\ issued started r (before ++ x :: after)
       = before ++ x :: filter started after.
Proof.
  intros Hx. induction before as [|y before IH]; intros Hok.
  - cbn [app outcome issued]. now rewrite Hx.
  - destruct (Hok y (or_introl eq_refl)) as [b Hy].
    destruct (IH (fun z Hz => Hok z (or_intror Hz))) as [Ho Hi].
    cbn [app outcome issued]. rewrite Hy, Ho, Hi. now split.
Qed.

(** A multipart upload in which part [k] is the first one the store
    refuses, for a file shorter than 2^53 bytes, a positive part size below
    2^53 and a pool that has a worker: the call raises the failure of part
    [k]; parts 1 to [k] have been requested, and of the later parts exactly
    those a worker had already started, with one worker in this order; the
    session is neither completed nor aborted. *)
Theorem multipart_upload_first_failure
        (started : schedule) (self : MultipartUploader.t)
        (filename bucket key : string) (callback : option Callback)
        (extra_args : kwargs) (f : PyFile.t) (w : world)
        (upload_id : string) (k : Z) (e : exn) :
  let client := MultipartUploader._client self in
  let S := len (PyFile.content f) in
  let P := TransferConfig.multipart_chunksize
             (MultipartUploader._config self) in
  let N := - ((- S) / P) in
  let body := part_body S P callback in
  let requests :=
    map (fun n => UploadPart bucket key upload_id n (body n))
        (py_range 1 (k + 1) ++ filter started (py_range (k + 1) (N + 1))) in
  fs w filename = Some f -> S < 2 ^ 53 -> 0 < P < 2 ^ 53 ->
  1 <= MultipartUploader.max_workers self ->
  create_multipart_upload_response client bucket key extra_args
  = Ok upload_id ->
  1 <= k <= N ->
  (forall n, 1 <= n < k ->
             exists etag,
               upload_part_response client bucket key upload_id n (body n)
               = Ok etag) ->
  upload_part_response client bucket key upload_id k (body k) = Raise e ->
  exists uploads,
    MultipartUploader.upload_file started self filename bucket key callback
      extra_args w
    = (Raise e,
       add_calls w (CreateMultipartUpload bucket key extra_args :: uploads))
    /\ Permutation uploads requests
    /\ (MultipartUploader.max_workers self = 1 -> uploads = requests).
Proof.
  intros client S P N body requests Hf HS HP Hworkers Hcreate Hk Hok Hfail.
  pose proof (len_nonneg (PyFile.content f)) as HS0. fold S in HS0.
  assert (HNe : py_ceil_div S P = Ok N)
    by (apply py_ceil_div_exact; lia).
  exists requests. split; [|split; [reflexivity|intros _; reflexivity]].
  rewrite (@upload_file_run started self filename bucket key callback
             (fs w) f Hf extra_args w eq_refl).
  unfold upload_file_result. fold client S P.
  rewrite Hcreate, HNe.
  destruct (MultipartUploader.max_workers self <=? 0) eqn:E; [lia|].
  cbv zeta.
  rewrite (@py_range_split (Z.to_nat (k - 1)) 1 k (N + 1)) by lia.
  destruct (@outcome_first_failure started Part
              (part_result self bucket key callback f upload_id) k e
              (py_range (k + 1) (N + 1)))
    with (before := py_range 1 k) as [Ho Hi].
  - unfold part_result. fold client S P body. now rewrite Hfail.
  - intros n Hn. apply py_range_In in Hn.
    destruct (Hok n Hn) as [etag Hetag].
    exists (mkPart etag n). unfold part_result. fold client S P body.
    now rewrite Hetag.
  - rewrite Ho, Hi. unfold part_call. fold S P body.
    rewrite concat_map_singleton. unfold requests.
    rewrite (@py_range_snoc 1 k) by lia. now rewrite <- app_assoc.
Qed.

Lemma multipart_upload_first_failure_witness :
  MultipartUploader.upload_file (fun _ => false)
    (MultipartUploader.mk (refusing_part 2) one_worker_two_byte_parts)
    "f" "bucket" "key" None [] (world_with "f" five_bytes)
  = (Raise (ClientError "UploadPart"),
     add_calls (world_with "f" five_bytes)
       [CreateMultipartUpload "bucket" "key" [];
        UploadPart "bucket" "key" "upload-id" 1 (mkBody 0 2 None);
        UploadPart "bucket" "key" "upload-id" 2 (mkBody 2 2 None)]).
Proof.
  destruct (@multipart_upload_first_failure (fun _ => false)
              (MultipartUploader.mk (refusing_part 2)
                 one_worker_two_byte_parts)
              "f" "bucket" "key" None [] (PyFile.open_rb five_bytes)
              (world_with "f" five_bytes) "upload-id" 2
              (ClientError "UploadPart"))
    as (uploads & Hrun & _ & Hone);
    [ reflexivity | reflexivity | split; reflexivity | discriminate
    | reflexivity
    | vm_compute; intuition discriminate
    | intros n Hn; exists "etag"%string;
      assert (n = 1) as -> by lia; reflexivity
    | reflexivity |].
  rewrite Hrun, (Hone eq_refl). reflexivity.
Defined.

(** ** A ranged download that fails at a range *)

Lemma drain_none (started : schedule) (B : Type) (fn : Z -> M B)
      (items : list Z) (w : world) :
  (forall x, In x items -> started x = false) ->
  drain started fn items w = w.
Proof.
  revert w. induction items as [|x rest IH]; intros w Hnone; [reflexivity|].
  cbn [drain]. rewrite (Hnone x) by now left.
  apply IH. intros y Hy. apply Hnone. now right.
Qed.

(** [_download_range] only depends on the client through the answer to the
    one request it issues. *)
Lemma download_range_answer (self self' : MultipartDownloaded.t)
      (bucket key filename : string) (P N : Z) (callback : option Callback)
      (i : Z) (w : world) :
  get_object_response (MultipartDownloaded._client self) bucket key
    (Some (range_of P N i))
  = get_object_response (MultipartDownloaded._client self') bucket key
      (Some (range_of P N i)) ->
  MultipartDownloaded._download_range self bucket key filename P N callback
    filename i w
  = MultipartDownloaded._download_range self' bucket key filename P N
      callback filename i w.
Proof.
  intros Hanswer.
  unfold MultipartDownloaded._download_range, get_object.
  unfold bind at 1 3. unfold bind at 1 2. unfold emit, lift.
  fold (range_of P N i). now rewrite Hanswer.
Qed.

Lemma ranged_prefix_run (started : schedule) (self : MultipartDownloaded.t)
      (bucket key filename : string) (callback : option Callback)
      (obj : bytes) (N k : Z) (e : exn) (j : nat) :
  let P := TransferConfig.multipart_chunksize
             (MultipartDownloaded._config self) in
  let client := MultipartDownloaded._client self in
  0 < P -> P * (N - 1) < len obj <= P * N -> k < N ->
  (forall i, 0 <= i < k ->
             get_object_response client bucket key (Some (range_of P N i))
             = Ok (serve obj (Some (range_of P N i)))) ->
  get_object_response client bucket key (Some (range_of P N k)) = Raise e ->
  (forall i, k < i -> started i = false) ->
  forall (a : Z) (f : PyFile.t) (w : world),
    Z.of_nat j = k - a -> 0 <= a ->
    fs w filename = Some f ->
    PyFile.content f = firstn (Z.to_nat (a * P)) obj ->
    exists w' f',
      executor_map started
        (MultipartDownloaded._download_range self bucket key filename P N
           callback filename) (py_range a N) w = (Raise e, w')
      /\ calls w'
         = calls w
           ++ map (fun i => GetObject bucket key (Some (range_of P N i)))
                (py_range a (k + 1))
      /\ fs w' filename = Some f'
      /\ PyFile.content f' = firstn (Z.to_nat (k * P)) obj.
Proof.
  intros P client HP Hceil HkN Hok Hfail Hnone.
  induction j as [|j IH]; intros a f w Hj Ha Hf Hcontent.
  - assert (a = k) by lia. subst a.
    rewrite (@py_range_cons k N) by lia.
    rewrite (@py_range_cons k (k + 1)) by lia.
    rewrite (@py_range_empty (k + 1) (k + 1)) by lia.
    cbn [executor_map map].
    assert (Hrun : MultipartDownloaded._download_range self bucket key
                     filename P N callback filename k w
                   = (Raise e,
                      add_calls w
                        [GetObject bucket key (Some (range_of P N k))])).
    { unfold MultipartDownloaded._download_range, get_object.
      unfold bind at 1. unfold bind at 1. unfold emit, lift.
      fold client. fold (range_of P N k). now rewrite Hfail. }
    rewrite Hrun.
    rewrite drain_none
      by (intros x Hx; apply py_range_In in Hx; apply Hnone; lia).
    exists (add_calls w [GetObject bucket key (Some (range_of P N k))]), f.
    split; [reflexivity|]. split; [reflexivity|]. now split.
  - assert (Hak : 0 <= a < k) by lia.
    rewrite (@py_range_cons a N) by lia.
    rewrite (@py_range_cons a (k + 1)) by lia.
    cbn [executor_map map].
    set (self' := MultipartDownloaded.mk (store obj)
                    (MultipartDownloaded._config self)).
    rewrite (@download_range_answer self self' bucket key filename P N
               callback a w) by (now rewrite Hok).
    destruct (@download_range_run self' bucket key filename callback obj N
                HP Hceil (fun r => eq_refl) a f w)
      as (w1 & f1 & ext1 & Hrun1 & Hc1 & Hf1 & Hcont1 & _);
      [lia|exact Hf|exact Hcontent|].
    change (TransferConfig.multipart_chunksize
              (MultipartDownloaded._config self')) with P in Hrun1.
    rewrite Hrun1.
    destruct (IH (a + 1) f1 w1) as (w' & f' & Hrun & Hc & Hf' & Hcont);
      [lia|lia|exact Hf1|exact Hcont1|].
    rewrite Hrun. exists w', f'.
    split; [reflexivity|]. split; [|now split].
    rewrite Hc, Hc1, <- app_assoc. reflexivity.
Qed.

(** A ranged download by a pool of one worker in which range [k] is the
    first one the store refuses, no later range having been started; the
    object is shorter than 2^53 bytes and the part size is positive and below
    2^53.  The call raises the failure of range [k]; ranges 0 to [k] have
    been requested, in order; and the destination is left holding the first
    [k * P] bytes of the object: the partial file is not removed. *)
Theorem ranged_download_partial_failure
        (started : schedule) (self : MultipartDownloaded.t)
        (bucket key filename : string) (callback : option Callback)
        (obj : bytes) (k : Z) (e : exn) (w : world) :
  let P := TransferConfig.multipart_chunksize
             (MultipartDownloaded._config self) in
  let client := MultipartDownloaded._client self in
  let N := - ((- len obj) / P) in
  0 < P < 2 ^ 53 -> len obj < 2 ^ 53 ->
  MultipartDownloaded.max_workers self = 1 ->
  0 <= k < N ->
  (forall i, 0 <= i < k ->
             get_object_response client bucket key (Some (range_of P N i))
             = Ok (serve obj (Some (range_of P N i)))) ->
  get_object_response client bucket key (Some (range_of P N k)) = Raise e ->
  (forall i, k < i -> started i = false) ->
  exists w' f',
    MultipartDownloaded.download_file started self bucket key filename
      (len obj) callback w = (Raise e, w')
    /\ calls w'
       = calls w
         ++ map (fun i => GetObject bucket key (Some (range_of P N i)))
              (py_range 0 (k + 1))
    /\ fs w' filename = Some f'
    /\ PyFile.content f' = firstn (Z.to_nat (k * P)) obj.
Proof.
  intros P client N HP HL Hone Hk Hok Hfail Hnone.
  pose proof (@ceil_div_bounds (len obj) P (proj1 HP)) as Hceil.
  fold N in Hceil.
  pose proof (len_nonneg obj) as HL0.
  assert (HNe : py_ceil_div (len obj) P = Ok N)
    by (apply py_ceil_div_exact; lia).
  set (w0 := mkWorld (calls w) (progress w)
                     (fs_set (fs w) filename PyFile.open_wb) (written w)).
  destruct (@ranged_prefix_run started self bucket key filename callback obj
              N k e (Z.to_nat k) (proj1 HP) Hceil (proj2 Hk) Hok Hfail Hnone
              0 PyFile.open_wb w0)
    as (w' & f' & Hrun & Hc & Hf' & Hcont);
    [lia|lia|apply fs_set_same|reflexivity|].
  exists w', f'. split; [|split; [exact Hc|now split]].
  rewrite (@download_file_ranges started self bucket key filename
             (len obj) callback N w HNe) by lia.
  fold w0. now rewrite Hrun.
Qed.

(** A store that serves [obj] except for the range that starts at byte
    [bad], which it refuses. *)
Definition refusing_range (obj : bytes) (bad : Z) : Client :=
  mkClient (fun _ _ _ => Ok "upload-id"%string)
           (fun _ _ _ _ _ => Ok "etag"%string)
           (fun _ _ _ _ => Ok tt)
           (fun _ _ _ _ => Ok tt)
           (fun _ _ => Ok (len obj))
           (fun _ _ range =>
              match range with
              | Some r =>
                  if start_range r =? bad
                  then Raise (ClientError "GetObject")
                  else Ok (serve obj range)
              | None => Ok obj
              end).

Lemma ranged_download_partial_failure_witness :
  exists w' f',
    MultipartDownloaded.download_file (fun _ => false)
      (MultipartDownloaded.mk (refusing_range five_bytes 2)
         one_worker_two_byte_parts)
      "bucket" "key" "out" 5 None empty_world
    = (Raise (ClientError "GetObject"), w')
    /\ fs w' "out"%string = Some f'
    /\ PyFile.content f' = ["a"; "b"]%byte.
Proof.
  destruct (@ranged_download_partial_failure (fun _ => false)
              (MultipartDownloaded.mk (refusing_range five_bytes 2)
                 one_worker_two_byte_parts)
              "bucket" "key" "out" None five_bytes 1
              (ClientError "GetObject") empty_world)
    as (w' & f' & Hrun & _ & Hf' & Hcont).
  - split; reflexivity.
  - reflexivity.
  - reflexivity.
  - vm_compute. intuition discriminate.
  - intros i Hi. assert (i = 0) as -> by lia. reflexivity.
  - reflexivity.
  - reflexivity.
  - exists w', f'. split; [exact Hrun|]. split; [exact Hf'|exact Hcont].
Defined.

(** ** One worker *)

(** What the pool will have done once every task has run, if the tasks are
    taken one after the other. *)
Definition outlook (p : Interleaving.pool) : Interleaving.state :=
  fold_left (fun s t => Interleaving.run_task t s) (Interleaving.queue p)
    (match Interleaving.workers p with
     | [t] => Interleaving.run_task t (Interleaving.shared p)
     | _ => Interleaving.shared p
     end).

Lemma turn_single_worker (k : nat) (p : Interleaving.pool) :
  List.length (Interleaving.workers p) = 1%nat ->
  List.length (Interleaving.workers (Interleaving.turn k p)) = 1%nat
  /\ outlook (Interleaving.turn k p) = outlook p.
Proof.
  destruct p as [q ws s]. cbn [Interleaving.workers].
  destruct ws as [|t [|u ws]]; try discriminate. intros _.
  unfold Interleaving.turn. cbn [Interleaving.workers Interleaving.queue
                                  Interleaving.shared].
  destruct k as [|k].
  - cbn [nth_error]. destruct t as [|i rest].
    + destruct q as [|t q]; split; reflexivity.
    + destruct (Interleaving.step i s) as [s'|] eqn:E;
        (split; [reflexivity|]); unfold outlook;
        cbn [Interleaving.workers Interleaving.queue Interleaving.shared
             Interleaving.run_task Interleaving.set_nth];
        now rewrite E.
  - cbn [nth_error]. destruct k; split; reflexivity.
Qed.

Lemma run_single_worker (sched : list nat) :
  forall p : Interleaving.pool,
    List.length (Interleaving.workers p) = 1%nat ->
    outlook (Interleaving.run sched p) = outlook p.
Proof.
  induction sched as [|k sched IH]; intros p Hp; [reflexivity|].
  unfold Interleaving.run. cbn [fold_left].
  destruct (@turn_single_worker k p Hp) as [Hlen Hout].
  fold (Interleaving.run sched (Interleaving.turn k p)).
  now rewrite IH.
Qed.

Lemma run_workers_length (sched : list nat) :
  forall p : Interleaving.pool,
    List.length (Interleaving.workers (Interleaving.run sched p))
    = List.length (Interleaving.workers p).
Proof.
  assert (Hset : forall k t l,
             List.length (Interleaving.set_nth k t l) = List.length l).
  { intros k t l. revert k. induction l as [|x l IH]; intros k;
      destruct k; simpl; try reflexivity. now rewrite IH. }
  induction sched as [|k sched IH]; intros p; [reflexivity|].
  unfold Interleaving.run. cbn [fold_left].
  fold (Interleaving.run sched (Interleaving.turn k p)).
  rewrite IH. unfold Interleaving.turn.
  destruct (nth_error _ k) as [[|i rest]|]; [| |reflexivity].
  - destruct (Interleaving.queue p); [reflexivity|apply Hset].
  - destruct (Interleaving.step i _); [apply Hset|reflexivity].
Qed.

(** With one worker the scheduler has no choice that matters: whenever the
    pool has run every task to its end, the shared state is the one that
    running the tasks one after the other, in the order of submission,
    gives. *)
Lemma single_worker_in_order (tasks : list Interleaving.task)
      (f : PyFile.t) (sched : list nat) :
  let p := Interleaving.run sched (Interleaving.start 1 tasks f) in
  Interleaving.finished p = true ->
  Interleaving.shared p = Interleaving.run_in_order tasks f.
Proof.
  intros p Hfin.
  assert (Hout : outlook p = Interleaving.run_in_order tasks f)
    by (unfold p; now rewrite run_single_worker).
  assert (Hlen : List.length (Interleaving.workers p) = 1%nat)
    by (unfold p; now rewrite run_workers_length).
  rewrite <- Hout. unfold outlook. unfold Interleaving.finished in Hfin.
  destruct (Interleaving.queue p); [|discriminate].
  destruct (Interleaving.workers p) as [|t [|u ws]]; try discriminate.
  cbn [forallb] in Hfin. destruct t; [reflexivity|discriminate].
Qed.

(** The chunks of a stream, put end to end, are the stream. *)
Lemma chunks_concat (buffer_size : Z) (fuel : nat) :
  0 < buffer_size ->
  forall body : bytes,
    (List.length body <= fuel)%nat ->
    List.concat (Interleaving.chunks fuel buffer_size body) = body.
Proof.
  intros Hbs.
  induction fuel as [|fuel IH]; intros body Hfuel.
  - destruct body; [|simpl in Hfuel; lia].
    simpl. now rewrite firstn_nil.
  - cbn [Interleaving.chunks].
    destruct (firstn (Z.to_nat buffer_size) body) as [|b chunk] eqn:Hchunk.
    + apply firstn_nil_inv in Hchunk; [now subst|lia].
    + cbn [List.concat].
      rewrite IH.
      * rewrite <- Hchunk. apply firstn_skipn.
      * pose proof (firstn_skipn (Z.to_nat buffer_size) body) as Hsplit.
        rewrite Hchunk in Hsplit. rewrite <- Hsplit in Hfuel.
        rewrite length_app in Hfuel. simpl in Hfuel. lia.
Qed.

(** One worker alone runs the writes of a range: the locks are free again at
    the end, and on a file that ends at the first offset the chunks are
    appended. *)
Lemma run_task_writes (lock : nat) (cs : list bytes) :
  forall (index : Z) (s : Interleaving.state),
    Interleaving.held s = [] -> 0 <= index ->
    len (PyFile.content (Interleaving.stream s)) = index ->
    let s' := Interleaving.run_task (Interleaving.writes lock index cs) s in
    Interleaving.held s' = []
    /\ PyFile.content (Interleaving.stream s')
       = PyFile.content (Interleaving.stream s) ++ List.concat cs.
Proof.
  induction cs as [|c cs IH]; intros index s Hheld Hindex Hlen.
  - simpl. now rewrite app_nil_r.
  - cbn [Interleaving.writes Interleaving.pwrite app List.concat].
    cbn [Interleaving.run_task Interleaving.step]. rewrite Hheld.
    cbn [existsb Interleaving.stream Interleaving.held].
    destruct (@write_at_end (Interleaving.stream s) c index Hindex Hlen)
      as (f1 & Hseek & Hwrite).
    rewrite Hseek.
    cbn [Interleaving.stream Interleaving.held filter].
    rewrite Nat.eqb_refl. cbn [negb].
    match goal with
    | |- context [Interleaving.run_task _ ?s1] =>
        destruct (IH (index + len c) s1) as [Hh Hc]
    end.
    + reflexivity.
    + pose proof (len_nonneg c). lia.
    + cbn [Interleaving.stream]. rewrite Hwrite, len_app. lia.
    + split; [exact Hh|]. rewrite Hc. cbn [Interleaving.stream].
      now rewrite Hwrite, <- app_assoc.
Qed.

(** Range [i] of the object continues the ranges before it. *)
Lemma serve_range_extends (obj : bytes) (P N i : Z) :
  0 < P -> P * (N - 1) < len obj <= P * N -> 0 <= i < N ->
  firstn (Z.to_nat (i * P)) obj ++ serve obj (Some (range_of P N i))
  = firstn (Z.to_nat ((i + 1) * P)) obj.
Proof.
  intros HP Hceil Hi.
  assert (HL : 0 <= i * P < len obj) by nia.
  unfold range_of, serve.
  destruct (i =? N - 1) eqn:E.
  - apply Z.eqb_eq in E. rewrite firstn_skipn.
    rewrite firstn_all2; [reflexivity|]. unfold len in *. nia.
  - apply Z.eqb_neq in E.
    assert (HiP : (i + 1) * P <= len obj) by nia.
    replace (i * P + P - 1 + 1 - i * P) with P by lia.
    rewrite <- firstn_plus. f_equal. lia.
Qed.

Lemma fold_left_map_cons (A B C : Type) (f : A -> B -> A) (g : C -> B)
      (x : C) (l : list C) (a : A) :
  fold_left f (map g (x :: l)) a = fold_left f (map g l) (f a (g x)).
Proof. reflexivity. Qed.

Lemma download_range_writes (lock : nat) (P : Z) (body : bytes) (i : Z) :
  Interleaving.download_range lock P body i
  = Interleaving.writes lock (i * P)
      (Interleaving.chunks (S (List.length body)) (1024 * 16) body).
Proof. reflexivity. Qed.

Lemma run_in_order_ranges (lock_of : Z -> nat) (obj : bytes) (P N : Z)
      (k : nat) :
  0 < P -> P * (N - 1) < len obj <= P * N ->
  forall (a : Z) (s : Interleaving.state),
    Z.of_nat k = N - a -> 0 <= a ->
    Interleaving.held s = [] ->
    PyFile.content (Interleaving.stream s) = firstn (Z.to_nat (a * P)) obj ->
    PyFile.content
      (Interleaving.stream
         (fold_left (fun s t => Interleaving.run_task t s)
            (map (fun i =>
                    Interleaving.download_range (lock_of i) P
                      (serve obj (Some (range_of P N i))) i)
                 (py_range a N)) s))
    = obj.
Proof.
  intros HP Hceil.
  induction k as [|k IH]; intros a s Hk Ha Hheld Hcontent.
  - rewrite py_range_empty by lia. cbn [map fold_left].
    rewrite Hcontent. apply firstn_all2. unfold len in *. nia.
  - rewrite py_range_cons by lia. rewrite fold_left_map_cons.
    assert (HaN : 0 <= a < N) by lia.
    assert (HL : 0 <= a * P < len obj) by nia.
    rewrite download_range_writes.
    set (body := serve obj (Some (range_of P N a))).
    set (cs := Interleaving.chunks (S (List.length body)) (1024 * 16) body).
    assert (Hcs : List.concat cs = body)
      by (apply chunks_concat; [reflexivity|apply Nat.le_succ_diag_r]).
    clearbody cs.
    assert (Hlen : len (PyFile.content (Interleaving.stream s)) = a * P)
      by (rewrite Hcontent; apply len_firstn; lia).
    destruct (@run_task_writes (lock_of a) cs (a * P) s Hheld
                (proj1 HL) Hlen) as [Hh Hc].
    apply IH; [lia|lia|exact Hh|].
    rewrite Hc, Hcs, Hcontent. unfold body.
    now apply serve_range_extends.
Qed.


(** ** One lock per range

    Every range of a download has a writer, hence a lock, of its own.  The
    invariant below says what this means for the pool: a lock is used by one
    task only, inside a task every acquire is followed by the release of the
    same lock, and a lock that is taken is taken by a worker that is about
    to release it. *)
Section OwnLocks.

Import Interleaving.

Definition lock_instr (l : nat) (i : instr) : bool :=
  match i with
  | Acquire l' | Release l' => Nat.eqb l l'
  | _ => false
  end.

(** The task acquires or releases lock [l] at some point. *)
Definition mentions (l : nat) (t : task) : bool := existsb (lock_instr l) t.

(** The first acquire or release of a task. *)
Fixpoint next_lock (t : task) : option instr :=
  match t with
  | [] => None
  | Acquire l :: _ => Some (Acquire l)
  | Release l :: _ => Some (Release l)
  | _ :: rest => next_lock rest
  end.

(** After an acquire, the next lock operation releases the same lock. *)
Fixpoint paired (t : task) : Prop :=
  match t with
  | [] => True
  | Acquire l :: rest => next_lock rest = Some (Release l) /\ paired rest
  | _ :: rest => paired rest
  end.

(** The number of tasks that use lock [l]. *)
Definition users (l : nat) (ts : list task) : nat :=
  List.length (filter (mentions l) ts).

Record lock_invariant (p : pool) : Prop := {
  inv_paired : Forall paired (workers p ++ queue p);
  inv_single : forall l, (users l (workers p ++ queue p) <= 1)%nat;
  inv_owned :
    forall l, In l (held (shared p)) ->
              exists t, In t (workers p) /\ next_lock t = Some (Release l)
}.

Lemma users_app (l : nat) (ts us : list task) :
  users l (ts ++ us) = (users l ts + users l us)%nat.
Proof. unfold users. now rewrite filter_app, length_app. Qed.

Lemma next_lock_mentions (t : task) (l : nat) :
  next_lock t = Some (Acquire l) \/ next_lock t = Some (Release l) ->
  mentions l t = true.
Proof.
  induction t as [|i t IH]; intros H; [destruct H; discriminate|].
  unfold mentions. cbn [existsb].
  destruct i as [l'|o|d|l']; cbn [next_lock lock_instr] in *.
  - assert (l' = l) by (destruct H as [H|H]; congruence). subst.
    now rewrite Nat.eqb_refl.
  - now apply IH.
  - now apply IH.
  - assert (l' = l) by (destruct H as [H|H]; congruence). subst.
    now rewrite Nat.eqb_refl.
Qed.

Lemma two_users (l : nat) (ts : list task) (t u : task) :
  In t ts -> In u ts -> t <> u ->
  mentions l t = true -> mentions l u = true ->
  (2 <= users l ts)%nat.
Proof.
  intros Ht Hu Hne Hmt Hmu. unfold users.
  assert (Ht' : In t (filter (mentions l) ts)) by now apply filter_In.
  assert (Hu' : In u (filter (mentions l) ts)) by now apply filter_In.
  destruct (filter (mentions l) ts) as [|x [|y rest]]; simpl in *;
    [contradiction| |lia].
  destruct Ht' as [<-|[]], Hu' as [<-|[]]. contradiction.
Qed.

Lemma in_set_nth (k : nat) (new t : task) (ws : list task) :
  In t ws -> In t (set_nth k new ws) \/ nth_error ws k = Some t.
Proof.
  revert k. induction ws as [|x ws IH]; intros k Ht; [contradiction|].
  destruct k as [|k]; simpl.
  - destruct Ht as [->|Ht]; [now right|left; now right].
  - destruct Ht as [->|Ht]; [left; now left|].
    destruct (IH k Ht) as [H|H]; [left; now right|now right].
Qed.

Lemma set_nth_in (k : nat) (new old : task) (ws : list task) :
  nth_error ws k = Some old -> In new (set_nth k new ws).
Proof.
  revert k. induction ws as [|x ws IH]; intros k Hk;
    destruct k; simpl in *; try discriminate.
  - now left.
  - right. now apply IH.
Qed.

Lemma users_set_nth (l : nat) (k : nat) (new old : task) (ws : list task) :
  nth_error ws k = Some old ->
  (users l (set_nth k new ws) + (if mentions l old then 1 else 0)
   = users l ws + (if mentions l new then 1 else 0))%nat.
Proof.
  unfold users. revert k. induction ws as [|x ws IH]; intros k Hk;
    destruct k; simpl in *; try discriminate.
  - injection Hk as ->.
    destruct (mentions l new), (mentions l old); simpl; lia.
  - specialize (IH k Hk). destruct (mentions l x); simpl; lia.
Qed.

Lemma Forall_set_nth (Q : task -> Prop) (k : nat) (new : task)
      (ws : list task) :
  Forall Q ws -> Q new -> Forall Q (set_nth k new ws).
Proof.
  intros Hws Hnew. revert k.
  induction Hws as [|x ws Hx Hws IH]; intros k; destruct k; simpl;
    constructor; auto.
Qed.

Lemma paired_tail (i : instr) (rest : task) :
  paired (i :: rest) -> paired rest.
Proof. destruct i; simpl; tauto. Qed.

Lemma mentions_tail (l : nat) (i : instr) (rest : task) :
  mentions l rest = true -> mentions l (i :: rest) = true.
Proof. unfold mentions. simpl. intros ->. apply orb_true_r. Qed.

(** A worker that is about to acquire a lock finds it free. *)
Lemma acquire_finds_lock_free (p : pool) (k l : nat) (rest : task) :
  lock_invariant p ->
  nth_error (workers p) k = Some (Acquire l :: rest) ->
  existsb (Nat.eqb l) (held (shared p)) = false.
Proof.
  intros [_ Hsingle Howned] Hk.
  destruct (existsb _ _) eqn:E; [exfalso|reflexivity].
  apply existsb_exists in E. destruct E as (l' & Hl' & Heq).
  apply Nat.eqb_eq in Heq. subst l'.
  destruct (Howned l Hl') as (t & Ht & Hnext).
  specialize (Hsingle l). rewrite users_app in Hsingle.
  pose proof (@two_users l (workers p) t (Acquire l :: rest) Ht
                (nth_error_In _ _ Hk)) as Htwo.
  assert (2 <= users l (workers p))%nat; [|lia].
  apply Htwo.
  - intros ->. discriminate.
  - apply next_lock_mentions. now right.
  - apply next_lock_mentions. now left.
Qed.

Lemma turn_keeps_invariant (k : nat) (p : pool) :
  lock_invariant p -> lock_invariant (turn k p).
Proof.
  intros Hinv. pose proof Hinv as [Hpaired Hsingle Howned].
  unfold turn.
  destruct (nth_error (workers p) k) as [[|i rest]|] eqn:Hk;
    [| |exact Hinv].
  - (* an idle worker takes the next task *)
    destruct (queue p) as [|t q] eqn:Hq; [exact Hinv|].
    apply Forall_app in Hpaired. destruct Hpaired as [Hws Hqs].
    constructor; cbn [workers queue shared].
    + apply Forall_app. split.
      * apply Forall_set_nth; [exact Hws|]. now apply Forall_inv in Hqs.
      * now apply Forall_inv_tail in Hqs.
    + intros l. specialize (Hsingle l).
      rewrite users_app in *.
      pose proof (@users_set_nth l k t [] (workers p) Hk) as Hset.
      change (t :: q) with ([t] ++ q) in Hsingle.
      rewrite users_app in Hsingle. unfold users at 2 in Hsingle.
      cbn [filter] in Hsingle. cbn [mentions existsb] in Hset.
      destruct (mentions l t); simpl in *; lia.
    + intros l Hl. destruct (Howned l Hl) as (u & Hu & Hnext).
      exists u. split; [|exact Hnext].
      destruct (@in_set_nth k t u (workers p) Hu) as [H|H]; [exact H|].
      rewrite Hk in H. injection H as <-. discriminate.
  - (* a busy worker performs its next step *)
    destruct (step i (shared p)) as [s|] eqn:Hstep; [|exact Hinv].
    apply Forall_app in Hpaired. destruct Hpaired as [Hws Hqs].
    assert (Hirest : paired (i :: rest))
      by (eapply Forall_forall; [exact Hws|];
          now apply nth_error_In in Hk).
    constructor; cbn [workers queue shared].
    + apply Forall_app. split; [|exact Hqs].
      apply Forall_set_nth; [exact Hws|]. now apply paired_tail in Hirest.
    + intros l. specialize (Hsingle l). rewrite users_app in *.
      pose proof (@users_set_nth l k rest (i :: rest) (workers p) Hk)
        as Hset.
      pose proof (@mentions_tail l i rest) as Htail.
      destruct (mentions l rest), (mentions l (i :: rest));
        try (specialize (Htail eq_refl); discriminate); lia.
    + intros l Hl.
      assert (Hkeep : forall u,
                 In u (workers p) -> u <> i :: rest ->
                 In u (set_nth k rest (workers p))).
      { intros u Hu Hne.
        destruct (@in_set_nth k rest u (workers p) Hu) as [H|H];
          [exact H|]. rewrite Hk in H. injection H as <-.
        contradiction. }
      destruct i as [l0|o|d|l0]; cbn [step] in Hstep.
      * (* acquire *)
        destruct (existsb _ _); [discriminate|].
        injection Hstep as <-. cbn [held] in Hl.
        destruct Hirest as [Hrel _].
        destruct Hl as [<-|Hl].
        -- exists rest. split; [|exact Hrel].
           eapply set_nth_in; exact Hk.
        -- destruct (Howned l Hl) as (u & Hu & Hnext).
           exists u. split; [|exact Hnext].
           apply Hkeep; [exact Hu|]. intros ->. discriminate.
      * (* seek *)
        assert (Hheld : held s = held (shared p))
          by (destruct (PyFile.seek _ _); injection Hstep as <-;
              reflexivity).
        rewrite Hheld in Hl.
        destruct (Howned l Hl) as (u & Hu & Hnext).
        destruct (@in_set_nth k rest u (workers p) Hu) as [H|H].
        -- exists u. now split.
        -- rewrite Hk in H. injection H as <-.
           exists rest. split; [eapply set_nth_in; exact Hk|exact Hnext].
      * (* write *)
        injection Hstep as <-. cbn [held] in Hl.
        destruct (Howned l Hl) as (u & Hu & Hnext).
        destruct (@in_set_nth k rest u (workers p) Hu) as [H|H].
        -- exists u. now split.
        -- rewrite Hk in H. injection H as <-.
           exists rest. split; [eapply set_nth_in; exact Hk|exact Hnext].
      * (* release *)
        injection Hstep as <-. cbn [held] in Hl.
        apply filter_In in Hl. destruct Hl as [Hl Hne].
        destruct (Howned l Hl) as (u & Hu & Hnext).
        exists u. split; [|exact Hnext].
        apply Hkeep; [exact Hu|]. intros ->.
        cbn [next_lock] in Hnext. injection Hnext as ->.
        rewrite Nat.eqb_refl in Hne. discriminate.
Qed.

Lemma run_keeps_invariant (sched : list nat) :
  forall p, lock_invariant p -> lock_invariant (run sched p).
Proof.
  induction sched as [|k sched IH]; intros p Hp; [exact Hp|].
  unfold run. cbn [fold_left]. apply IH. now apply turn_keeps_invariant.
Qed.

Lemma paired_writes (lock : nat) (cs : list bytes) :
  forall index, paired (writes lock index cs).
Proof.
  induction cs as [|c cs IH]; intros index; simpl; [exact I|].
  split; [reflexivity|apply IH].
Qed.

Lemma mentions_writes (l lock : nat) (cs : list bytes) :
  forall index, mentions l (writes lock index cs) = true -> l = lock.
Proof.
  induction cs as [|c cs IH]; intros index; [discriminate|].
  unfold mentions. cbn [writes pwrite app existsb lock_instr].
  destruct (Nat.eqb l lock) eqn:E; [intros _; now apply Nat.eqb_eq|].
  cbn [orb]. apply IH.
Qed.

Lemma mentions_download_range (l lock : nat) (P : Z) (body : bytes)
      (i : Z) :
  mentions l (download_range lock P body i) = true -> l = lock.
Proof. rewrite download_range_writes. apply mentions_writes. Qed.

Lemma users_cons (l : nat) (t : task) (ts : list task) :
  users l (t :: ts)
  = ((if mentions l t then 1 else 0) + users l ts)%nat.
Proof. unfold users. cbn [filter]. now destruct (mentions l t). Qed.

Lemma users_none (l : nat) (ts : list task) :
  (forall t, In t ts -> mentions l t = false) -> users l ts = 0%nat.
Proof.
  induction ts as [|t ts IH]; intros Hnone; [reflexivity|].
  rewrite users_cons, (Hnone t) by now left.
  apply IH. intros u Hu. apply Hnone. now right.
Qed.

Lemma users_own_locks (l : nat) (g : Z -> bytes) (P : Z) (k : nat) :
  forall a b, Z.of_nat k = b - a -> 0 <= a ->
  (users l (map (fun i => download_range (own_lock i) P (g i) i)
              (py_range a b)) <= 1)%nat.
Proof.
  induction k as [|k IH]; intros a b Hk Ha.
  - rewrite py_range_empty by lia. apply Nat.le_0_l.
  - rewrite py_range_cons by lia. rewrite map_cons, users_cons.
    specialize (IH (a + 1) b).
    destruct (mentions l _) eqn:E; [|apply IH; lia].
    apply mentions_download_range in E.
    rewrite users_none; [lia|].
    intros t Ht. apply in_map_iff in Ht. destruct Ht as (i & <- & Hi).
    apply py_range_In in Hi.
    destruct (mentions l _) eqn:E'; [|reflexivity].
    apply mentions_download_range in E'. unfold own_lock in *. lia.
Qed.

Lemma start_has_invariant (max_workers P N : Z) (obj : bytes)
      (f : PyFile.t) :
  lock_invariant (start max_workers (download_tasks own_lock P N obj) f).
Proof.
  unfold start, download_tasks. constructor; cbn [workers queue shared held].
  - apply Forall_app. split.
    + apply Forall_forall. intros t Ht. apply repeat_spec in Ht.
      now subst.
    + apply Forall_forall. intros t Ht. apply in_map_iff in Ht.
      destruct Ht as (i & <- & _). rewrite download_range_writes.
      apply paired_writes.
  - intros l. rewrite users_app.
    assert (Hidle : users l (repeat [] (Z.to_nat max_workers)) = 0%nat).
    { unfold users. induction (Z.to_nat max_workers); simpl; auto. }
    rewrite Hidle.
    destruct (Z.le_gt_cases N 0) as [HN|HN].
    + rewrite py_range_empty by lia. apply Nat.le_0_l.
    + apply (@users_own_locks l
               (fun i => serve obj (Some (mkRange (i * P)
                                            (if i =? N - 1 then None
                                             else Some (i * P + P - 1)))))
               P (Z.to_nat N)); lia.
  - intros l [].
Qed.

End OwnLocks.

(** Under the invariant no worker waits. *)
Lemma invariant_never_waits (p : Interleaving.pool) (k : nat)
      (i : Interleaving.instr) (rest : Interleaving.task) :
  lock_invariant p ->
  nth_error (Interleaving.workers p) k = Some (i :: rest) ->
  exists s, Interleaving.step i (Interleaving.shared p) = Some s.
Proof.
  intros Hinv Hk.
  destruct i as [l|o|d|l]; cbn [Interleaving.step].
  - rewrite (@acquire_finds_lock_free p k l rest Hinv Hk). eexists.
    reflexivity.
  - destruct (PyFile.seek _ _); eexists; reflexivity.
  - eexists; reflexivity.
  - eexists; reflexivity.
Qed.

(** With one writer per range, the lock never makes a worker wait: at every
    point of every schedule of a ranged download, whatever the number of
    workers, every worker that has a step to perform can perform it.  In
    particular the seek and the write of one range are never kept apart from
    those of another range. *)
Theorem own_locks_never_wait
        (max_workers P N : Z) (obj : bytes) (f : PyFile.t)
        (sched : list nat) (k : nat) (i : Interleaving.instr)
        (rest : Interleaving.task) :
  let p := Interleaving.run sched
             (Interleaving.start max_workers
                (Interleaving.download_tasks Interleaving.own_lock P N obj)
                f) in
  nth_error (Interleaving.workers p) k = Some (i :: rest) ->
  exists s, Interleaving.step i (Interleaving.shared p) = Some s.
Proof.
  intros p Hk.
  apply (@invariant_never_waits p k i rest); [|exact Hk].
  apply run_keeps_invariant, start_has_invariant.
Qed.

Lemma own_locks_never_wait_witness :
  let p := Interleaving.run [0; 1; 0]%nat
             (Interleaving.start 2
                (Interleaving.download_tasks Interleaving.own_lock 1 2
                   two_bytes)
                PyFile.open_wb) in
  Interleaving.held (Interleaving.shared p) = [0%nat]
  /\ exists s, Interleaving.step (Interleaving.Acquire 1)
                 (Interleaving.shared p) = Some s.
Proof.
  intros p. split; [reflexivity|].
  apply (@own_locks_never_wait 2 1 2 two_bytes PyFile.open_wb
           [0; 1; 0]%nat 1%nat (Interleaving.Acquire 1)
           [Interleaving.Seek 1; Interleaving.Write ["b"]%byte;
            Interleaving.Release 1]).
  reflexivity.
Defined.

(** ** The default: one worker *)

(** The number of moves the single worker still has to make: one to take
    each task, one for each step. *)
Definition moves_left (p : Interleaving.pool) : nat :=
  (list_sum (map (fun t => S (List.length t)) (Interleaving.queue p))
   + list_sum (map (@List.length _) (Interleaving.workers p)))%nat.

Lemma single_worker_moves (p : Interleaving.pool) (t : Interleaving.task)
      (n : nat) :
  lock_invariant p -> Interleaving.workers p = [t] ->
  moves_left p = S n ->
  exists t', Interleaving.workers (Interleaving.turn 0 p) = [t']
             /\ moves_left (Interleaving.turn 0 p) = n.
Proof.
  intros Hinv Hws Hmoves. unfold Interleaving.turn. rewrite Hws.
  cbn [nth_error]. unfold moves_left in Hmoves. rewrite Hws in Hmoves.
  destruct t as [|i rest].
  - destruct (Interleaving.queue p) as [|t q] eqn:Hq;
      [simpl in Hmoves; discriminate|].
    exists t. split; [reflexivity|].
    unfold moves_left. cbn [Interleaving.queue Interleaving.workers
                            Interleaving.set_nth].
    simpl in *. lia.
  - destruct (@invariant_never_waits p 0%nat i rest Hinv) as [s Hs];
      [now rewrite Hws|].
    rewrite Hs. exists rest. split; [reflexivity|].
    unfold moves_left. cbn [Interleaving.queue Interleaving.workers
                            Interleaving.set_nth].
    simpl in *. lia.
Qed.

Lemma single_worker_finishes (n : nat) :
  forall (p : Interleaving.pool) (t : Interleaving.task),
    lock_invariant p -> Interleaving.workers p = [t] ->
    moves_left p = n ->
    Interleaving.finished (Interleaving.run (repeat 0%nat n) p) = true.
Proof.
  induction n as [|n IH]; intros p t Hinv Hws Hmoves.
  - cbn [repeat Interleaving.run fold_left].
    unfold moves_left in Hmoves. rewrite Hws in Hmoves.
    unfold Interleaving.finished. rewrite Hws.
    destruct (Interleaving.queue p); [|simpl in Hmoves; lia].
    destruct t; [reflexivity|simpl in Hmoves; lia].
  - cbn [repeat]. unfold Interleaving.run. cbn [fold_left].
    destruct (@single_worker_moves p t n Hinv Hws Hmoves)
      as (t' & Hws' & Hmoves').
    apply (IH _ t'); [now apply turn_keeps_invariant|exact Hws'|exact Hmoves'].
Qed.

(** A ranged download on one worker, which is the default
    ([max_concurrency = 1]).  The worker is never made to wait, so the
    download runs to its end; and whatever the scheduler does, once the pool
    has run every range to its end the file is the object. *)
Theorem single_worker_download (obj : bytes) (P : Z) :
  let N := - ((- len obj) / P) in
  let pool := Interleaving.start 1
                (Interleaving.download_tasks Interleaving.own_lock P N obj)
                PyFile.open_wb in
  0 < P ->
  (exists n,
      Interleaving.finished (Interleaving.run (repeat 0%nat n) pool) = true)
  /\ forall sched,
       Interleaving.finished (Interleaving.run sched pool) = true ->
       PyFile.content
         (Interleaving.stream
            (Interleaving.shared (Interleaving.run sched pool)))
       = obj.
Proof.
  intros N pool HP. split.
  - exists (moves_left pool).
    apply (@single_worker_finishes _ pool []);
      [apply start_has_invariant|reflexivity|reflexivity].
  - intros sched Hfin.
    pose proof (@ceil_div_bounds (len obj) P HP) as Hceil. fold N in Hceil.
    pose proof (len_nonneg obj) as HL.
    assert (HN : 0 <= N) by nia.
    unfold pool. rewrite single_worker_in_order by exact Hfin.
    unfold Interleaving.run_in_order, Interleaving.download_tasks.
    apply (@run_in_order_ranges Interleaving.own_lock obj P N (Z.to_nat N)
             HP Hceil 0);
      [lia|lia|reflexivity|reflexivity].
Qed.

Lemma single_worker_download_witness :
  let p := Interleaving.run (repeat 0%nat 10)
             (Interleaving.start 1
                (Interleaving.download_tasks Interleaving.own_lock 1 2
                   two_bytes)
                PyFile.open_wb) in
  Interleaving.finished p = true
  /\ PyFile.content (Interleaving.stream (Interleaving.shared p))
     = two_bytes.
Proof.
  intros p. split; [reflexivity|].
  destruct (@single_worker_download two_bytes 1) as [_ Hsafe];
    [reflexivity|].
  apply (Hsafe (repeat 0%nat 10)). reflexivity.
Defined.
